(** * AI triage service: response parsing, priority calculation, effort
      inference and backend fallback

    A shallow embedding of the JavaScript sources [src/api/triage.js] and
    [src/unnamed/part_001] (the later revision of the same handler, with the
    brace repair, the two agents and the Jira response format), followed by
    the properties of the specification that concern them.

    Conventions of the embedding:
    - a JavaScript string is a [string]: a sequence of code units below 256;
    - a JavaScript number is a binary64 [float], computed with the primitive
      IEEE operations;
    - a value produced by [JSON.parse] is a [json]; [undefined] is [None] of
      [option json]; the [null] returned by the parser is [None] of the
      function's result;
    - an exception is a [None] (or [Throws]) result at the point where the
      source would throw; every [try]/[catch] of the source is a [match] on
      it;
    - logging and backend calls are recorded in a trace of [event]s. *)

From Stdlib Require Import ZArith List Bool Ascii String Floats Uint63 Lia.
From Stdlib Require Import DecimalString.
From Stdlib Require HexadecimalString.
Set Warnings "-register-all,-inexact-float".
Import ListNotations.
Local Open Scope string_scope.
Local Open Scope list_scope.
Local Open Scope Z_scope.

(** ** The language: strings, numbers, JSON values and coercions *)

Module Js.

(** *** String methods *)

Definition dquote : ascii := "034"%char.
Definition backslash : ascii := "092"%char.
Definition backtick : ascii := "096"%char.

(** [s.startsWith(p)] is [String.prefix p s]. *)

(** [s.includes(sub)] *)
Fixpoint includes (sub s : string) : bool :=
  if String.prefix sub s then true
  else match s with
       | EmptyString => false
       | String _ s' => includes sub s'
       end.

(** Removes the first [n] code units. *)
Fixpoint drop (n : nat) (s : string) : string :=
  match n, s with
  | O, _ => s
  | S n', String _ s' => drop n' s'
  | S _, EmptyString => EmptyString
  end.

(** The text before the first occurrence of [sep] (all of [s] when there is
    none): the first piece of [s.split(sep)]. *)
Fixpoint before (sep s : string) : string :=
  if String.prefix sep s then EmptyString
  else match s with
       | EmptyString => EmptyString
       | String c s' => String c (before sep s')
       end.

(** The text after the first occurrence of [sep], if any. *)
Fixpoint after (sep s : string) : option string :=
  if String.prefix sep s then Some (drop (String.length sep) s)
  else match s with
       | EmptyString => None
       | String _ s' => after sep s'
       end.

Fixpoint split_pieces (n : nat) (sep s : string) : list string :=
  before sep s ::
  match n, after sep s with
  | S n', Some r => split_pieces n' sep r
  | _, _ => []
  end.

(** [s.split(sep)] for a non-empty separator: the pieces between the
    successive occurrences, left to right. *)
Definition split (sep s : string) : list string :=
  split_pieces (String.length s) sep s.

(** White space of [String.prototype.trim] among the code units below 256:
    TAB, LF, VT, FF, CR, SP and NBSP. *)
Definition is_space (c : ascii) : bool :=
  match nat_of_ascii c with
  | 9 | 10 | 11 | 12 | 13 | 32 | 160 => true
  | _ => false
  end%nat.

Fixpoint trimStart (s : string) : string :=
  match s with
  | EmptyString => EmptyString
  | String c s' => if is_space c then trimStart s' else s
  end.

Fixpoint trimEnd (s : string) : string :=
  match s with
  | EmptyString => EmptyString
  | String c s' =>
      match trimEnd s' with
      | EmptyString => if is_space c then EmptyString else String c EmptyString
      | t => String c t
      end
  end.

(** [s.trim()] *)
Definition trim (s : string) : string := trimEnd (trimStart s).

(** [(s.match(/c/g) || []).length]: the number of occurrences of [c]. *)
Fixpoint count_char (c : ascii) (s : string) : Z :=
  match s with
  | EmptyString => 0
  | String d s' => (if Ascii.eqb d c then 1 else 0) + count_char c s'
  end.

Fixpoint lastIndexOf_from (c : ascii) (i : Z) (s : string) (found : Z) : Z :=
  match s with
  | EmptyString => found
  | String d s' => lastIndexOf_from c (i + 1) s' (if Ascii.eqb d c then i else found)
  end.

(** [s.lastIndexOf(c)], [-1] when [c] does not occur. *)
Definition lastIndexOf (c : ascii) (s : string) : Z := lastIndexOf_from c 0 s (-1).

(** [s.substring(0, n)] for [0 <= n]. *)
Definition substring0 (n : Z) (s : string) : string := String.substring 0 (Z.to_nat n) s.

Definition lower_char (c : ascii) : ascii :=
  let n := nat_of_ascii c in
  if ((65 <=? n) && (n <=? 90))%nat then ascii_of_nat (n + 32)
  else if ((192 <=? n) && (n <=? 222) && negb (n =? 215))%nat then ascii_of_nat (n + 32)
  else c.

(** [s.toLowerCase()] on code units below 256. *)
Fixpoint toLowerCase (s : string) : string :=
  match s with
  | EmptyString => EmptyString
  | String c s' => String (lower_char c) (toLowerCase s')
  end.

(** [l.join(sep)] *)
Fixpoint join (sep : string) (l : list string) : string :=
  match l with
  | [] => EmptyString
  | [x] => x
  | x :: l' => String.append x (String.append sep (join sep l'))
  end.

(** *** Regular expressions of the form [a.*b]

    Every pattern of the sources is two literals around one [.*]; the dot
    matches any code unit but a line terminator. *)

Record regex := DotStar { lit_before : string; lit_after : string }.

Definition is_line_terminator (c : ascii) : bool :=
  match nat_of_ascii c with
  | 10 | 13 => true
  | _ => false
  end%nat.

Fixpoint dot_star_then (b s : string) : bool :=
  if String.prefix b s then true
  else match s with
       | EmptyString => false
       | String c s' => if is_line_terminator c then false else dot_star_then b s'
       end.

(** [new RegExp(p, 'i').test(s)] on a lower-case subject [s]. *)
Fixpoint regex_test (p : regex) (s : string) : bool :=
  (if String.prefix (lit_before p) s
   then dot_star_then (lit_after p) (drop (String.length (lit_before p)) s)
   else false)
  || match s with
     | EmptyString => false
     | String _ s' => regex_test p s'
     end.

(** *** Numbers *)

(** The float of a small integer (exact below 2^53). *)
Definition float_of_Z (z : Z) : float :=
  match z with
  | Z0 => 0%float
  | Zpos _ => of_uint63 (Uint63.of_Z z)
  | Zneg p => (- of_uint63 (Uint63.of_Z (Zpos p)))%float
  end.

(** The binary64 nearest to [p / q] (ties to even), for [0 < p], [0 < q]. *)
Definition round_ratio (p q : Z) : float :=
  let scaled := fun e : Z => if e <? 0 then (Z.shiftl p (- e), q) else (p, Z.shiftl q e) in
  let e0 := Z.log2 p - Z.log2 q - 52 in
  let m0 := fst (scaled e0) / snd (scaled e0) in
  let e1 := if m0 <? 2 ^ 52 then e0 - 1 else if 2 ^ 53 <=? m0 then e0 + 1 else e0 in
  let e := Z.max e1 (-1074) in
  let n := fst (scaled e) in
  let d := snd (scaled e) in
  let m := n / d in
  let r := n mod d in
  let m' := if 2 * r <? d then m
            else if d <? 2 * r then m + 1
            else if Z.even m then m else m + 1 in
  Z.ldexp (float_of_Z m') e.

(** The binary64 nearest to [digits * 10 ^ exp10], signed. *)
Definition decimal_to_float (neg : bool) (digits exp10 : Z) : float :=
  let mag :=
    if digits <=? 0 then 0%float
    else if 309 <=? exp10 + (Z.log2 digits * 3) / 10 then infinity
    else if exp10 + ((Z.log2 digits + 1) * 31) / 100 + 1 <=? -325 then 0%float
    else if 0 <=? exp10 then round_ratio (digits * 10 ^ exp10) 1
    else round_ratio digits (10 ^ (- exp10)) in
  if neg then (- mag)%float else mag.

Definition is_digit (c : ascii) : bool :=
  let n := nat_of_ascii c in ((48 <=? n) && (n <=? 57))%nat.

Definition digit_val (c : ascii) : Z := Z.of_nat (nat_of_ascii c) - 48.

(** Reads the longest run of decimal digits: its value, its length, the rest. *)
Fixpoint scan_digits (acc cnt : Z) (s : string) : Z * Z * string :=
  match s with
  | EmptyString => (acc, cnt, EmptyString)
  | String c r =>
      if is_digit c then scan_digits (10 * acc + digit_val c) (cnt + 1) r
      else (acc, cnt, s)
  end.

(** An optional exponent part [e[+-]ddd]; [None] when the digits are missing. *)
Definition scan_exponent (s : string) : option (Z * string) :=
  match s with
  | String c r =>
      if Ascii.eqb c "e" || Ascii.eqb c "E" then
        let '(neg, r1) :=
          match r with
          | String "-" r' => (true, r')
          | String "+" r' => (false, r')
          | _ => (false, r)
          end in
        let '(v, cnt, r2) := scan_digits 0 0 r1 in
        if cnt =? 0 then None else Some (if neg then - v else v, r2)
      else Some (0, s)
  | EmptyString => Some (0, s)
  end.

(** An optional fraction part [.ddd] after the integer part [ip]: the
    mantissa, the number of fraction digits and the rest. [need] tells
    whether a digit after the point is mandatory (JSON) or not. *)
Definition scan_fraction (need : bool) (ip : Z) (s : string) : option (Z * Z * string) :=
  match s with
  | String "." r =>
      let '(fp, fc, r1) := scan_digits 0 0 r in
      if need && (fc =? 0) then None else Some (ip * 10 ^ fc + fp, fc, r1)
  | _ => Some (ip, 0, s)
  end.

(** The JSON number grammar: an optional minus sign; the integer part, a
    single 0 or digits not starting with 0; an optional point with at least
    one digit; an optional exponent with at least one digit. *)
Definition parse_number (s : string) : option (float * string) :=
  let '(neg, s1) :=
    match s with
    | String "-" r => (true, r)
    | _ => (false, s)
    end in
  match s1 with
  | String c r =>
      if is_digit c then
        let '(ip, _, s2) := if Ascii.eqb c "0" then (0, 1, r) else scan_digits 0 0 s1 in
        match scan_fraction true ip s2 with
        | None => None
        | Some (mant, fc, s3) =>
            match scan_exponent s3 with
            | None => None
            | Some (ex, s4) => Some (decimal_to_float neg mant (ex - fc), s4)
            end
        end
      else None
  | EmptyString => None
  end.

Definition string_of_nonneg (z : Z) : string :=
  NilZero.string_of_uint (N.to_uint (Z.to_N z)).

Fixpoint zeros (n : nat) : string :=
  match n with
  | O => EmptyString
  | S n' => String "0" (zeros n')
  end.

(** The least [n] with [p / q < 10 ^ n], searched upwards from [n]. *)
Fixpoint decimal_position (fuel : nat) (p q n : Z) : Z :=
  match fuel with
  | O => n
  | S fuel' =>
      if (if 0 <=? n then p <? 10 ^ n * q else p * 10 ^ (- n) <? q) then n
      else decimal_position fuel' p q (n + 1)
  end.

(** The [k]-digit decimals next to [p / q] that read back as [x]; the
    nearer one when both do. Result: digits [s] and position [n], for the
    value [s * 10 ^ (n - k)]. *)
Definition shortest_candidate (x : float) (p q n k : Z) : option (Z * Z) :=
  let t := n - k in
  let num := if 0 <=? t then p else p * 10 ^ (- t) in
  let den := if 0 <=? t then q * 10 ^ t else q in
  let lo := num / den in
  let r := num mod den in
  let ok_lo := Leibniz.eqb (decimal_to_float false lo t) x in
  let ok_hi := Leibniz.eqb (decimal_to_float false (lo + 1) t) x in
  let hi := if lo + 1 =? 10 ^ k then (10 ^ (k - 1), n + 1) else (lo + 1, n) in
  match ok_lo, ok_hi with
  | true, true =>
      if 2 * r <? den then Some (lo, n)
      else if den <? 2 * r then Some hi
      else if Z.even lo then Some (lo, n) else Some hi
  | true, false => Some (lo, n)
  | false, true => Some hi
  | false, false => None
  end.

Fixpoint shortest_digits (fuel : nat) (x : float) (p q n k : Z) : Z * Z * Z :=
  match fuel with
  | O => (0, n, k)
  | S fuel' =>
      match shortest_candidate x p q n k with
      | Some (s, n') => (s, n', k)
      | None => shortest_digits fuel' x p q n (k + 1)
      end
  end.

(** [Number.prototype.toString()] of a positive finite number whose exact
    value is [p / q]. *)
Definition positive_toString (x : float) (p q : Z) : string :=
  let a := Z.log2 p - Z.log2 q in
  let n := decimal_position 8 p q (((a - 1) * 30103) / 100000 - 1) in
  let '(s, n, k) := shortest_digits 17 x p q n 1 in
  let ds := string_of_nonneg s in
  if (k <=? n) && (n <=? 21) then String.append ds (zeros (Z.to_nat (n - k)))
  else if (0 <? n) && (n <=? 21) then
    String.append (String.substring 0 (Z.to_nat n) ds)
      (String "." (drop (Z.to_nat n) ds))
  else if (-6 <? n) && (n <=? 0) then
    String.append "0." (String.append (zeros (Z.to_nat (- n))) ds)
  else
    let e := n - 1 in
    let es := String.append (if 0 <=? e then "e+" else "e-") (string_of_nonneg (Z.abs e)) in
    if k =? 1 then String.append ds es
    else String.append (String.substring 0 1 ds) (String "." (String.append (drop 1 ds) es)).

(** [String(x)] for a number [x]. *)
Definition Number_toString (x : float) : string :=
  match Prim2SF x with
  | S754_zero _ => "0"
  | S754_infinity false => "Infinity"
  | S754_infinity true => "-Infinity"
  | S754_nan => "NaN"
  | S754_finite sgn m e =>
      let p := if 0 <=? e then Zpos m * 2 ^ e else Zpos m in
      let q := if 0 <=? e then 1 else 2 ^ (- e) in
      String.append (if sgn then "-" else "") (positive_toString (abs x) p q)
  end.

Definition hex_val (c : ascii) : option Z :=
  let n := nat_of_ascii c in
  if ((48 <=? n) && (n <=? 57))%nat then Some (Z.of_nat n - 48)
  else if ((97 <=? n) && (n <=? 102))%nat then Some (Z.of_nat n - 87)
  else if ((65 <=? n) && (n <=? 70))%nat then Some (Z.of_nat n - 55)
  else None.

(** Digits in base [base] up to the end of the string; [None] on any other
    code unit or on no digit at all. *)
Fixpoint radix_value (base : Z) (acc : Z) (seen : bool) (s : string) : option Z :=
  match s with
  | EmptyString => if seen then Some acc else None
  | String c r =>
      match hex_val c with
      | Some d => if d <? base then radix_value base (base * acc + d) true r else None
      | None => None
      end
  end.

Definition integer_to_float (z : Z) : float :=
  if z =? 0 then 0%float else decimal_to_float false z 0.

(** An unsigned [StrDecimalLiteral] that must span the whole string. *)
Definition unsigned_decimal (s : string) : option float :=
  if String.eqb s "Infinity" then Some infinity
  else
    let '(ip, ic, s1) := scan_digits 0 0 s in
    match scan_fraction false ip s1 with
    | None => None
    | Some (mant, fc, s2) =>
        if (ic =? 0) && (fc =? 0) then None
        else match scan_exponent s2 with
             | Some (ex, EmptyString) => Some (decimal_to_float false mant (ex - fc))
             | _ => None
             end
    end.

(** [Number(s)] for a string [s] ([StringToNumber]). *)
Definition StringToNumber (s : string) : float :=
  match trim s with
  | EmptyString => 0%float
  | String "0" (String c r) as t =>
      let radix :=
        if Ascii.eqb c "x" || Ascii.eqb c "X" then Some 16
        else if Ascii.eqb c "o" || Ascii.eqb c "O" then Some 8
        else if Ascii.eqb c "b" || Ascii.eqb c "B" then Some 2
        else None in
      match radix with
      | Some b => match radix_value b 0 false r with
                  | Some z => integer_to_float z
                  | None => nan
                  end
      | None => match unsigned_decimal t with Some x => x | None => nan end
      end
  | String "-" r => match unsigned_decimal r with Some x => (- x)%float | None => nan end
  | String "+" r => match unsigned_decimal r with Some x => x | None => nan end
  | t => match unsigned_decimal t with Some x => x | None => nan end
  end.

Definition two52 : float := 4503599627370496%float.

(** The integer nearest to [x] (ties to even), for [|x| < 2^52]. *)
Definition nearest_even (x : float) : float :=
  if (0 <=? x)%float then ((x + two52) - two52)%float else ((x - two52) + two52)%float.

(** [Math.floor(x)] for a finite [x]. *)
Definition Math_floor (x : float) : float :=
  if (two52 <=? abs x)%float then x
  else let r := nearest_even x in if (x <? r)%float then (r - 1)%float else r.

(** [Math.round(x)]: the integer nearest to [x], a tie going up; [NaN],
    the infinities, the zeros and the integers are returned as they are, and
    a result of zero takes the sign of [x]. *)
Definition Math_round (x : float) : float :=
  if negb (x =? x)%float then x
  else if (x =? 0)%float then x
  else if (two52 <=? abs x)%float then x
  else
    let f := Math_floor x in
    let r := if (0.5 <=? x - f)%float then (f + 1)%float else f in
    if (r =? 0)%float then (if (x <? 0)%float then (-0)%float else 0%float) else r.

(** *** Values of [JSON.parse]

    An object is the list of its own properties in enumeration order. An
    array carries, besides its elements, the named properties that were
    assigned to it later (none after [JSON.parse]). *)

Inductive json : Type :=
| JNull
| JBool (b : bool)
| JNum (x : float)
| JStr (s : string)
| JArr (elems : list json) (own : list (string * json))
| JObj (props : list (string * json)).

(** A key that is an array index (a canonical integer below 2^32 - 1)
    enumerates before the other keys, in increasing order. *)
Definition array_index (k : string) : option Z :=
  match k with
  | EmptyString => None
  | String c r =>
      if is_digit c && (negb (Ascii.eqb c "0") || String.eqb r EmptyString) then
        match radix_value 10 0 false k with
        | Some z => if z <? 2 ^ 32 - 1 then Some z else None
        | None => None
        end
      else None
  end.

Fixpoint lookup (k : string) (props : list (string * json)) : option json :=
  match props with
  | [] => None
  | (k', v) :: rest => if String.eqb k' k then Some v else lookup k rest
  end.

Fixpoint replace_prop (k : string) (v : json) (props : list (string * json)) : list (string * json) :=
  match props with
  | [] => []
  | (k', v') :: rest =>
      if String.eqb k' k then (k', v) :: rest else (k', v') :: replace_prop k v rest
  end.

Fixpoint insert_index (i : Z) (k : string) (v : json) (props : list (string * json)) : list (string * json) :=
  match props with
  | [] => [(k, v)]
  | (k', v') :: rest =>
      match array_index k' with
      | Some j => if j <? i then (k', v') :: insert_index i k v rest else (k, v) :: props
      | None => (k, v) :: props
      end
  end.

(** Defines or overwrites the own property [k]: an existing key keeps its
    place, a new one goes to the end (or among the index keys). *)
Definition set_prop (k : string) (v : json) (props : list (string * json)) : list (string * json) :=
  match lookup k props with
  | Some _ => replace_prop k v props
  | None =>
      match array_index k with
      | Some i => insert_index i k v props
      | None => props ++ [(k, v)]
      end
  end.

Definition own_props (v : json) : list (string * json) :=
  match v with
  | JObj ps => ps
  | JArr _ ps => ps
  | _ => []
  end.

(** [v.k] for a value [v] that is neither [null] nor [undefined] and a name
    [k] that no prototype defines and that is no index: the own property,
    or [undefined]. Every property the program reads by name is of this
    kind. *)
Definition get (v : json) (k : string) : option json := lookup k (own_props v).

(** [target.k = v] in strict code (both sources are modules): a property
    cannot be created on a primitive, which throws a [TypeError]. *)
Definition assign (target : json) (k : string) (v : json) : option json :=
  match target with
  | JObj ps => Some (JObj (set_prop k v ps))
  | JArr es ps => Some (JArr es (set_prop k v ps))
  | _ => None
  end.

(** *** [JSON.parse] *)

Definition is_json_space (c : ascii) : bool :=
  match nat_of_ascii c with
  | 9 | 10 | 13 | 32 => true
  | _ => false
  end%nat.

Fixpoint skip_ws (s : string) : string :=
  match s with
  | EmptyString => EmptyString
  | String c s' => if is_json_space c then skip_ws s' else s
  end.

Definition unescape (e : ascii) : option ascii :=
  match nat_of_ascii e with
  | 34 => Some dquote
  | 92 => Some backslash
  | 47 => Some "/"%char
  | 98 => Some "008"%char
  | 102 => Some "012"%char
  | 110 => Some "010"%char
  | 114 => Some "013"%char
  | 116 => Some "009"%char
  | _ => None
  end%nat.

Definition hex4 (h1 h2 h3 h4 : ascii) : option Z :=
  match hex_val h1, hex_val h2, hex_val h3, hex_val h4 with
  | Some a, Some b, Some c, Some d => Some (((a * 16 + b) * 16 + c) * 16 + d)
  | _, _, _, _ => None
  end.

(** The characters of a string literal after its opening quote, up to the
    closing quote. An escape [\uXXXX] of a code unit above 255 denotes no
    string of the embedding and is not accepted. *)
Fixpoint parse_string_body (s : string) : option (string * string) :=
  match s with
  | EmptyString => None
  | String c r =>
      if Ascii.eqb c dquote then Some (EmptyString, r)
      else if Ascii.eqb c backslash then
        match r with
        | EmptyString => None
        | String e r1 =>
            match unescape e with
            | Some ch =>
                match parse_string_body r1 with
                | Some (t, rest) => Some (String ch t, rest)
                | None => None
                end
            | None =>
                if Ascii.eqb e "u" then
                  match r1 with
                  | String h1 (String h2 (String h3 (String h4 r2))) =>
                      match hex4 h1 h2 h3 h4 with
                      | Some code =>
                          if code <? 256 then
                            match parse_string_body r2 with
                            | Some (t, rest) => Some (String (ascii_of_nat (Z.to_nat code)) t, rest)
                            | None => None
                            end
                          else None
                      | None => None
                      end
                  | _ => None
                  end
                else None
            end
        end
      else if (nat_of_ascii c <? 32)%nat then None
      else
        match parse_string_body r with
        | Some (t, rest) => Some (String c t, rest)
        | None => None
        end
  end.

(** The object whose members were defined in the order [ms]. *)
Definition object_of (ms : list (string * json)) : json :=
  JObj (fold_left (fun acc kv => set_prop (fst kv) (snd kv) acc) ms []).

Fixpoint parse_value (fuel : nat) (s : string) : option (json * string) :=
  match fuel with
  | O => None
  | S f =>
      match skip_ws s with
      | EmptyString => None
      | String c r as t =>
          if Ascii.eqb c "{" then
            match skip_ws r with
            | EmptyString => None
            | String c2 r2 as t2 =>
                if Ascii.eqb c2 "}" then Some (JObj [], r2)
                else match parse_members f t2 with
                     | Some (ms, rest) => Some (object_of ms, rest)
                     | None => None
                     end
            end
          else if Ascii.eqb c "[" then
            match skip_ws r with
            | EmptyString => None
            | String c2 r2 as t2 =>
                if Ascii.eqb c2 "]" then Some (JArr [] [], r2)
                else match parse_elements f t2 with
                     | Some (es, rest) => Some (JArr es [], rest)
                     | None => None
                     end
            end
          else if Ascii.eqb c dquote then
            match parse_string_body r with
            | Some (str, rest) => Some (JStr str, rest)
            | None => None
            end
          else if String.prefix "true" t then Some (JBool true, drop 4 t)
          else if String.prefix "false" t then Some (JBool false, drop 5 t)
          else if String.prefix "null" t then Some (JNull, drop 4 t)
          else match parse_number t with
               | Some (x, rest) => Some (JNum x, rest)
               | None => None
               end
      end
  end
with parse_members (fuel : nat) (s : string) : option (list (string * json) * string) :=
  match fuel with
  | O => None
  | S f =>
      match skip_ws s with
      | EmptyString => None
      | String c r =>
          if Ascii.eqb c dquote then
            match parse_string_body r with
            | None => None
            | Some (k, r1) =>
                match skip_ws r1 with
                | EmptyString => None
                | String c1 r2 =>
                    if Ascii.eqb c1 ":" then
                      match parse_value f r2 with
                      | None => None
                      | Some (v, r3) =>
                          match skip_ws r3 with
                          | EmptyString => None
                          | String c3 r4 =>
                              if Ascii.eqb c3 "," then
                                match parse_members f r4 with
                                | Some (ms, r5) => Some ((k, v) :: ms, r5)
                                | None => None
                                end
                              else if Ascii.eqb c3 "}" then Some ([(k, v)], r4)
                              else None
                          end
                      end
                    else None
                end
            end
          else None
      end
  end
with parse_elements (fuel : nat) (s : string) : option (list json * string) :=
  match fuel with
  | O => None
  | S f =>
      match parse_value f s with
      | None => None
      | Some (v, r1) =>
          match skip_ws r1 with
          | EmptyString => None
          | String c r2 =>
              if Ascii.eqb c "," then
                match parse_elements f r2 with
                | Some (es, r3) => Some (v :: es, r3)
                | None => None
                end
              else if Ascii.eqb c "]" then Some ([v], r2)
              else None
          end
      end
  end.

(** [JSON.parse(s)]; [None] is the [SyntaxError]. Every nested call has
    consumed a character, so the length of the text bounds the nesting. *)
Definition JSON_parse (s : string) : option json :=
  match parse_value (S (String.length s)) s with
  | Some (v, rest) =>
      match skip_ws rest with
      | EmptyString => Some v
      | _ => None
      end
  | None => None
  end.

(** *** [JSON.stringify] *)

Definition hex_digit (n : nat) : ascii :=
  if (n <? 10)%nat then ascii_of_nat (48 + n) else ascii_of_nat (87 + n).

Definition escape_char (c : ascii) : string :=
  match nat_of_ascii c with
  | 34 => String backslash (String dquote EmptyString)
  | 92 => String backslash (String backslash EmptyString)
  | 8 => String backslash "b"
  | 12 => String backslash "f"
  | 10 => String backslash "n"
  | 13 => String backslash "r"
  | 9 => String backslash "t"
  | n =>
      if (n <? 32)%nat then
        String backslash (String.append "u00" (String (hex_digit (n / 16)) (String (hex_digit (n mod 16)) EmptyString)))
      else String c EmptyString
  end%nat.

Fixpoint escape (s : string) : string :=
  match s with
  | EmptyString => EmptyString
  | String c r => String.append (escape_char c) (escape r)
  end.

Definition quote (s : string) : string :=
  String dquote (String.append (escape s) (String dquote EmptyString)).

(** [JSON.stringify(v)] without indentation. *)
Fixpoint JSON_stringify (v : json) : string :=
  match v with
  | JNull => "null"
  | JBool true => "true"
  | JBool false => "false"
  | JNum x => if is_finite x then Number_toString x else "null"
  | JStr s => quote s
  | JArr es _ =>
      String.append "[" (String.append (join "," (map JSON_stringify es)) "]")
  | JObj ps =>
      String.append "{"
        (String.append
           (join "," (map (fun kv => String.append (quote (fst kv))
                                        (String ":" (JSON_stringify (snd kv)))) ps))
           "}")
  end.

(** *** Coercions *)

(** [ToBoolean] *)
Definition truthy (v : json) : bool :=
  match v with
  | JNull => false
  | JBool b => b
  | JNum x => negb ((x =? 0)%float || is_nan x)
  | JStr s => negb (String.eqb s EmptyString)
  | JArr _ _ => true
  | JObj _ => true
  end.

Definition truthy_opt (o : option json) : bool :=
  match o with
  | Some v => truthy v
  | None => false
  end.

(** [String(v)] *)
Fixpoint ToString (v : json) : string :=
  match v with
  | JNull => "null"
  | JBool true => "true"
  | JBool false => "false"
  | JNum x => Number_toString x
  | JStr s => s
  | JArr es _ =>
      join "," (map (fun e => match e with JNull => EmptyString | _ => ToString e end) es)
  | JObj _ => "[object Object]"
  end.

(** The key of [table[v]] *)
Definition ToPropertyKey (o : option json) : string :=
  match o with
  | Some v => ToString v
  | None => "undefined"
  end.

(** [Number(v)] *)
Definition ToNumber (v : json) : float :=
  match v with
  | JNull => 0%float
  | JBool true => 1%float
  | JBool false => 0%float
  | JNum x => x
  | JStr s => StringToNumber s
  | JArr _ _ => StringToNumber (ToString v)
  | JObj _ => nan
  end.

(** The names every object literal inherits from [Object.prototype]. *)
Definition Object_prototype_names : list string :=
  [ "constructor"; "__defineGetter__"; "__defineSetter__"; "hasOwnProperty";
    "__lookupGetter__"; "__lookupSetter__"; "isPrototypeOf";
    "propertyIsEnumerable"; "toString"; "valueOf"; "__proto__";
    "toLocaleString" ].

(** [s[i] === c], false when [s[i]] is [undefined]. *)
Definition option_eqb_char (o : option ascii) (c : ascii) : bool :=
  match o with
  | Some d => Ascii.eqb d c
  | None => false
  end.

(** Text with a straight quote written as an apostrophe, to spell JSON
    documents in examples. *)
Fixpoint dq (s : string) : string :=
  match s with
  | EmptyString => EmptyString
  | String c r => String (if Ascii.eqb c "'" then dquote else c) (dq r)
  end.

End Js.

Import Js.

(** ** The priority calculator

    [calculateOverallPriority] has the same text in [src/api/triage.js]
    (lines 448-473) and in [src/unnamed/part_001] (lines 608-633). *)

(** What [effortScores[key]] evaluates to: an entry of the table, a member
    inherited from [Object.prototype] (a function or an object, truthy, whose
    number is [NaN]), or [undefined]. *)
Inductive table_entry :=
| Entry (x : float)
| Inherited
| Absent.

Definition effortScores (key : string) : table_entry :=
  if String.eqb key "XS" then Entry 100
  else if String.eqb key "S" then Entry 80
  else if String.eqb key "M" then Entry 60
  else if String.eqb key "L" then Entry 40
  else if String.eqb key "XL" then Entry 20
  else if existsb (String.eqb key) Object_prototype_names then Inherited
  else Absent.

(** The number of [field || 0]. *)
Definition or_zero (o : option json) : float :=
  match o with
  | Some v => if truthy v then ToNumber v else 0%float
  | None => 0%float
  end.

(** The number of [scores.effort_score || effortScores[scores.effort_size] || 50]. *)
Definition effortScore (scores : json) : float :=
  if truthy_opt (get scores "effort_score") then or_zero (get scores "effort_score")
  else match effortScores (ToPropertyKey (get scores "effort_size")) with
       | Entry x => x
       | Inherited => nan
       | Absent => 50%float
       end.

Definition businessWeight : float := 0.35.
Definition strategicWeight : float := 0.25.
Definition crossClientWeight : float := 0.25.
Definition effortWeight : float := 0.15.

Definition calculateOverallPriority (scores : json) : float :=
  let overall :=
    (or_zero (get scores "business_impact") * businessWeight +
     or_zero (get scores "strategic_fit") * strategicWeight +
     or_zero (get scores "cross_client_value") * crossClientWeight +
     effortScore scores * effortWeight)%float in
  Math_round overall.

(** ** The response parser *)

(** The fenced block of the response: [text.split(open)[1].split('```')[0]].
    A missing piece is [undefined], on which [split] throws. *)
Definition fenced (open text : string) : option string :=
  match nth_error (split open text) 1 with
  | Some piece => nth_error (split "```" piece) 0
  | None => None
  end.

Definition extract (text : string) : option string :=
  if includes "```json" text then fenced "```json" text
  else if includes "```" text then fenced "```" text
  else Some text.

(** The end of both versions: validation of the required fields and
    injection of a missing overall priority. [None] is the [null] result,
    returned by the validation or by the [catch] clause. *)
Definition validate (parsed : json) : option json :=
  match parsed with
  | JNull => None
  | _ =>
      if negb (truthy_opt (get parsed "scores"))
         || negb (truthy_opt (get parsed "priority_recommendation"))
      then None
      else
        match get parsed "scores" with
        | None => None
        | Some scores =>
            if negb (truthy_opt (get scores "overall_priority")) then
              match assign scores "overall_priority" (JNum (calculateOverallPriority scores)) with
              | Some scores' => assign parsed "scores" scores'
              | None => None
              end
            else Some parsed
        end
  end.

(** [src/api/triage.js] *)
Module TriageJs.

(** The value of [parsed]; [None] when a statement before it throws. *)
Definition extracted_json (text : string) : option json :=
  match extract text with
  | None => None
  | Some jsonStr => JSON_parse (trim jsonStr)
  end.

Definition parseAIResponse (text : string) : option json :=
  match extracted_json text with
  | None => None
  | Some parsed => validate parsed
  end.

End TriageJs.

(** [src/unnamed/part_001] *)
Module Part001.

(** The loop [for (let i = lastCompleteIndex - 1; i >= 0; i--)], entered
    with [n = i + 1]: does the count of unmatched closing braces reach 0? *)
Fixpoint matching_brace (jsonStr : string) (n : nat) (braceCount : Z) : bool :=
  match n with
  | O => false
  | Datatypes.S i =>
      let c := String.get i jsonStr in
      let braceCount := if option_eqb_char c "}" then braceCount + 1 else braceCount in
      let braceCount := if option_eqb_char c "{" then braceCount - 1 else braceCount in
      if braceCount =? 0 then true else matching_brace jsonStr i braceCount
  end.

(** The completion of a response that was cut short. *)
Definition repair (jsonStr : string) : string :=
  let openBraces := count_char "{" jsonStr in
  let closeBraces := count_char "}" jsonStr in
  if closeBraces <? openBraces then
    let lastCompleteIndex := lastIndexOf "}" jsonStr in
    if 0 <? lastCompleteIndex then
      if matching_brace jsonStr (Z.to_nat lastCompleteIndex) 1
      then substring0 (lastCompleteIndex + 1) jsonStr
      else jsonStr
    else jsonStr
  else jsonStr.

(** The value of [parsed]; [None] when a statement before it throws. *)
Definition extracted_json (text : string) : option json :=
  match extract text with
  | None => None
  | Some jsonStr => JSON_parse (repair (trim jsonStr))
  end.

Definition parseAIResponse (text : string) : option json :=
  match extracted_json text with
  | None => None
  | Some parsed => validate parsed
  end.

(** *** Tickets *)

(** The fields of the webhook's issue that the program reads. A component is
    represented by its name. *)
Record ticket_fields := {
  summary : option string;
  description : option string;
  components : option (list string);
  labels : option (list string)
}.

Record issue := {
  key : option string;
  fields : option ticket_fields
}.

(** [issue.fields?.f] *)
Definition field {A : Type} (f : ticket_fields -> option A) (i : issue) : option A :=
  match fields i with
  | Some fs => f fs
  | None => None
  end.

(** [s || ''] *)
Definition text_of (o : option string) : string :=
  match o with
  | Some s => s
  | None => EmptyString
  end.

(** [l || []] *)
Definition list_of {A : Type} (o : option (list A)) : list A :=
  match o with
  | Some l => l
  | None => []
  end.

(** *** Effort estimation *)

Inductive bucket := B_XS | B_S | B_M | B_L | B_XL.

Record indicators := {
  keywords : list string;
  patterns : list regex;
  score : Z
}.

Definition indicators_of (b : bucket) : indicators :=
  match b with
  | B_XS =>
      {| keywords := ["config"; "setting"; "toggle"; "button"; "styling"; "color";
                      "text"; "minor"; "small"; "simple"];
         patterns := [DotStar "fix" "button"; DotStar "change" "color";
                      DotStar "update" "text"; DotStar "add" "toggle"];
         score := 100 |}
  | B_S =>
      {| keywords := ["widget"; "component"; "api"; "endpoint"; "integration";
                      "moderate"; "medium"];
         patterns := [DotStar "add" "widget"; DotStar "new" "api";
                      DotStar "create" "component"; DotStar "integrate" "service"];
         score := 80 |}
  | B_M =>
      {| keywords := ["dashboard"; "report"; "workflow"; "complex"; "multiple"; "major"];
         patterns := [DotStar "new" "dashboard"; DotStar "create" "workflow";
                      DotStar "build" "report"; DotStar "multiple" "services"];
         score := 60 |}
  | B_L =>
      {| keywords := ["architecture"; "migration"; "platform"; "infrastructure"; "large"];
         patterns := [DotStar "architectural" "change"; DotStar "platform" "migration";
                      DotStar "infrastructure" "update"];
         score := 40 |}
  | B_XL =>
      {| keywords := ["rewrite"; "overhaul"; "new product"; "major platform"; "enterprise"];
         patterns := [DotStar "rewrite" "system"; DotStar "new" "product";
                      DotStar "major" "overhaul"; DotStar "enterprise" "feature"];
         score := 20 |}
  end.

(** [Object.entries(effortIndicators)], in the order of the literal. *)
Definition effortIndicators : list (bucket * indicators) :=
  map (fun b => (b, indicators_of b)) [B_XS; B_S; B_M; B_L; B_XL].

Definition keywordMatches (summary description : string) (ind : indicators) : list string :=
  filter (fun keyword => includes keyword summary || includes keyword description) (keywords ind).

Definition patternMatches (summary description : string) (ind : indicators) : list regex :=
  filter (fun pattern => regex_test pattern summary || regex_test pattern description) (patterns ind).

Definition componentMatches (comps : list string) (ind : indicators) : list string :=
  filter (fun comp => existsb (fun keyword => includes keyword comp) (keywords ind)) comps.

(** The [score] of one iteration of the loop over the buckets. *)
Definition bucket_score (summary description : string) (comps : list string) (ind : indicators) : Z :=
  0 + Z.of_nat (List.length (keywordMatches summary description ind)) * 10
    + Z.of_nat (List.length (patternMatches summary description ind)) * 15
    + Z.of_nat (List.length (componentMatches comps ind)) * 5.

(** One iteration: the state is [(maxScore, estimatedEffort)]. *)
Definition consider (summary description : string) (comps : list string)
    (st : Z * bucket) (entry : bucket * indicators) : Z * bucket :=
  let s := bucket_score summary description comps (snd entry) in
  if fst st <? s then (s, fst entry) else st.

Definition inferred (summary description : string) (comps : list string) : Z * bucket :=
  fold_left (consider summary description comps) effortIndicators (0, B_M).

(** The two override rules that follow the loop. *)
Definition override (summary : string) (estimatedEffort : bucket) : bucket :=
  let e1 :=
    if includes "bug" summary || includes "fix" summary then
      if includes "minor" summary || includes "small" summary then B_XS
      else if includes "critical" summary || includes "major" summary then B_M
      else estimatedEffort
    else estimatedEffort in
  if includes "security" summary || includes "compliance" summary then B_S else e1.

Record effort := {
  effort_size : bucket;
  effort_score : Z
}.

(** The explanatory texts of the estimate ([reasoning], [description]) only
    feed the prompt and are left out. *)
Definition estimateEffort (i : issue) : effort :=
  let summary := toLowerCase (text_of (field summary i)) in
  let description := toLowerCase (text_of (field description i)) in
  let comps := map toLowerCase (list_of (field components i)) in
  let estimatedEffort := override summary (snd (inferred summary description comps)) in
  {| effort_size := estimatedEffort; effort_score := score (indicators_of estimatedEffort) |}.

(** *** Backends and the trace of a request *)

Inductive provider := Gemini | Claude.

Inductive agent := ThemeAgent | PriorityAgent.

Inductive event :=
| Log (action : string)
| Call (p : provider) (a : agent).

(** What a request to a backend does inside its [try] block: it throws (a
    network failure, a rejected request, a response without text), or it
    delivers the text of the response. *)
Inductive reply :=
| Throws
| Returns (text : string).

(** The environment of one request: which clients were initialised (an API
    key was set), and what each backend does if it is called by each agent.
    The prompt is left out: the replies range over all texts. *)
Record backends := {
  genAI : bool;
  anthropic : bool;
  gemini_theme : reply;
  claude_theme : reply;
  gemini_priority : reply;
  claude_priority : reply
}.

(** A computation that appends to the trace. *)
Definition traced (A : Type) : Type := A * list event.

Definition ret {A : Type} (a : A) : traced A := (a, []).

Definition bind {A B : Type} (m : traced A) (k : A -> traced B) : traced B :=
  let r := k (fst m) in (fst r, snd m ++ snd r).

Definition logAction (action : string) : traced unit := (tt, [Log action]).

Definition request (p : provider) (a : agent) (r : reply) : traced reply := (r, [Call p a]).

Notation "x <- m ;; k" := (bind m (fun x => k))
  (at level 61, m at next level, right associativity).
Notation "m ;;; k" := (bind m (fun _ => k))
  (at level 61, right associativity).

(** [parsed && parsed.scores] *)
Definition has_scores (parsed : option json) : bool :=
  match parsed with
  | Some v => truthy_opt (get v "scores")
  | None => false
  end.

(** *** Agent 1: theme classification *)

Record theme_result := {
  theme : string;
  theme_modelUsed : string
}.

Definition classifyTheme_claude (env : backends) : traced theme_result :=
  if anthropic env then
    r <- request Claude ThemeAgent (claude_theme env) ;;
    match r with
    | Returns text =>
        logAction "THEME_CLASSIFICATION_SUCCESS" ;;;
        ret {| theme := trim text; theme_modelUsed := "Claude Sonnet 3.5" |}
    | Throws =>
        logAction "THEME_CLAUDE_FAILED" ;;;
        logAction "THEME_CLASSIFICATION_BOTH_FAILED" ;;;
        ret {| theme := "THEME NOT IDENTIFIED"; theme_modelUsed := "None - Both models failed" |}
    end
  else
    logAction "THEME_CLASSIFICATION_BOTH_FAILED" ;;;
    ret {| theme := "THEME NOT IDENTIFIED"; theme_modelUsed := "None - Both models failed" |}.

Definition classifyTheme (i : issue) (env : backends) : traced theme_result :=
  if genAI env then
    r <- request Gemini ThemeAgent (gemini_theme env) ;;
    match r with
    | Returns text =>
        logAction "THEME_CLASSIFICATION_SUCCESS" ;;;
        ret {| theme := trim text; theme_modelUsed := "Gemini Flash 2.0" |}
    | Throws =>
        logAction "THEME_GEMINI_FAILED" ;;;
        classifyTheme_claude env
    end
  else classifyTheme_claude env.

(** *** Agent 2: priority analysis *)

Record priority_result := {
  analysis : option json;
  modelUsed : string
}.

Definition analyzePriority_claude (env : backends) : traced priority_result :=
  let both_failed :=
    logAction "PRIORITY_ANALYSIS_BOTH_FAILED" ;;;
    ret {| analysis := None; modelUsed := "None - Both models failed" |} in
  if anthropic env then
    logAction "PRIORITY_CLAUDE_ATTEMPT" ;;;
    r <- request Claude PriorityAgent (claude_priority env) ;;
    match r with
    | Returns text =>
        logAction "PRIORITY_CLAUDE_RESPONSE" ;;;
        let parsed := parseAIResponse text in
        logAction "PRIORITY_CLAUDE_PARSE_RESULT" ;;;
        if has_scores parsed then
          logAction "PRIORITY_ANALYSIS_SUCCESS" ;;;
          ret {| analysis := parsed; modelUsed := "Claude Sonnet 3.5" |}
        else
          logAction "PRIORITY_CLAUDE_PARSE_FAILED" ;;;
          both_failed
    | Throws =>
        logAction "PRIORITY_CLAUDE_FAILED" ;;;
        both_failed
    end
  else both_failed.

Definition analyzePriority (i : issue) (env : backends) : traced priority_result :=
  let effortEstimation := estimateEffort i in
  logAction "EFFORT_ESTIMATION" ;;;
  logAction "PRIORITY_PROMPT_BUILT" ;;;
  if genAI env then
    r <- request Gemini PriorityAgent (gemini_priority env) ;;
    match r with
    | Returns text =>
        let parsed := parseAIResponse text in
        if has_scores parsed then
          logAction "PRIORITY_ANALYSIS_SUCCESS" ;;;
          ret {| analysis := parsed; modelUsed := "Gemini Flash 2.0" |}
        else analyzePriority_claude env
    | Throws =>
        logAction "PRIORITY_GEMINI_FAILED" ;;;
        analyzePriority_claude env
    end
  else analyzePriority_claude env.

(** *** The orchestrator *)

Record triage_result := {
  result_analysis : option json;
  result_theme : string;
  themeModel : string;
  priorityModel : string
}.

Definition processTicketWithFullTriage (i : issue) (env : backends) : traced triage_result :=
  logAction "PROCESSING_START" ;;;
  logAction "USING_PROVIDED_DATA" ;;;
  logAction "ISSUE_DATA_READY" ;;;
  logAction "THEME_CLASSIFICATION_START" ;;;
  themeResult <- classifyTheme i env ;;
  logAction "THEME_CLASSIFICATION_COMPLETE" ;;;
  logAction "PRIORITY_ANALYSIS_START" ;;;
  analysisResult <- analyzePriority i env ;;
  if has_scores (analysis analysisResult) then
    logAction "PRIORITY_ANALYSIS_SUCCESS" ;;;
    ret {| result_analysis := analysis analysisResult;
           result_theme := theme themeResult;
           themeModel := theme_modelUsed themeResult;
           priorityModel := modelUsed analysisResult |}
  else
    logAction "PRIORITY_ANALYSIS_FAILED" ;;;
    ret {| result_analysis := None;
           result_theme := theme themeResult;
           themeModel := theme_modelUsed themeResult;
           priorityModel := "Failed" |}.

Definition count_hits {A : Type} (hit : A -> bool) (l : list A) : Z :=
  Z.of_nat (List.length (filter hit l)).

Definition classifyBugOrFeature (i : issue) : string :=
  let summary := toLowerCase (text_of (field summary i)) in
  let description := toLowerCase (text_of (field description i)) in
  let labels := map toLowerCase (list_of (field labels i)) in
  let bugKeywords := ["bug"; "fix"; "error"; "broken"; "issue"; "problem"; "crash";
                      "fail"; "not working"; "broken"] in
  let bugPatterns := [DotStar "fix" ""; DotStar "broken" ""; DotStar "not" "working";
                      DotStar "error" ""; DotStar "bug" ""] in
  let featureKeywords := ["add"; "new"; "implement"; "create"; "build"; "enhance";
                          "improve"; "upgrade"; "feature"] in
  let featurePatterns := [DotStar "add" ""; DotStar "new" ""; DotStar "implement" "";
                          DotStar "create" ""; DotStar "build" ""] in
  let in_text := fun keyword => includes keyword summary || includes keyword description in
  let matches := fun pattern => regex_test pattern summary || regex_test pattern description in
  let has_label := fun l => existsb (String.eqb l) labels in
  let bugScore :=
    count_hits in_text bugKeywords * 2 + count_hits matches bugPatterns * 1
    + (if has_label "bug" || has_label "defect" then 3 else 0) in
  let featureScore :=
    count_hits in_text featureKeywords * 2 + count_hits matches featurePatterns * 1
    + (if has_label "enhancement" || has_label "feature" then 3 else 0) in
  if featureScore <? bugScore then "Bug" else "Feature".

(** [ToInt32] *)
Definition to_int32 (z : Z) : Z := (z + 2 ^ 31) mod 2 ^ 32 - 2 ^ 31.

(** [((a << 5) - a + b.charCodeAt(0)) & 0xFFFFFFFF] *)
Definition hash_step (a : Z) (b : ascii) : Z :=
  to_int32 (to_int32 (a * 32) - a + Z.of_nat (nat_of_ascii b)).

Fixpoint hash_from (a : Z) (s : string) : Z :=
  match s with
  | EmptyString => a
  | String b s' => hash_from (hash_step a b) s'
  end.

Definition padStart3 (s : string) : string :=
  String.append (zeros (3 - String.length s)) s.

(** [None] is the [TypeError] of [substring] on a value that is no string;
    [Some None] is the [null] result. *)
Definition generateSimilarityGroup (a : option json) (theme : string) : option (option string) :=
  match a with
  | None => Some None
  | Some v =>
      if truthy_opt (get v "similar_features") then
        match get v "similar_features" with
        | Some (JStr similar_features) =>
            let base := if String.eqb theme EmptyString then "unknown" else theme in
            let similar := String.substring 0 20 similar_features in
            let hash := hash_from 0 (String.append base similar) in
            Some (Some (String.append "SIM-" (padStart3 (string_of_nonneg (Z.abs hash)))))
        | _ => None
        end
      else Some None
  end.

(** The members of the 200 response that the properties below concern. *)
Record outcome := {
  recommendation : json;
  classification : string;
  themes : list string;
  similarity_group : option string;
  importance : json;
  confidence : float;
  notes : json;
  outcome_analysis : option json
}.

Inductive response :=
| Status200 (o : outcome)
| Status500.

(** [o || d] *)
Definition or_default (o : option json) (d : json) : json :=
  match o with
  | Some v => if truthy v then v else d
  | None => d
  end.

(** [o ?? d] *)
Definition nullish (o : option json) (d : json) : json :=
  match o with
  | Some JNull => d
  | Some v => v
  | None => d
  end.

(** [result.analysis?.k] *)
Definition analysis_field (a : option json) (k : string) : option json :=
  match a with
  | Some v => get v k
  | None => None
  end.

(** [req.body]: there is none ([undefined]), or there is one, with its
    [issue] member if it has one. *)
Inductive request_body :=
| NoBody
| Body (body_issue : option issue).

(** The handler of a POST request that passed the rate limit. Without a
    body, [JSON.stringify(req.body).length] throws before anything is
    logged; a body without an issue, or an issue without a key, makes the
    handler throw after the first log entry. *)
Definition handler (body : request_body) (env : backends) : traced response :=
  match body with
  | NoBody =>
      logAction "ERROR" ;;;
      ret Status500
  | Body body_issue =>
      logAction "WEBHOOK_RECEIVED" ;;;
      match body_issue with
      | Some i =>
          if negb (String.eqb (text_of (key i)) EmptyString) then
            logAction "WEBHOOK_PARSED" ;;;
            result <- processTicketWithFullTriage i env ;;
            logAction "PROCESSING_COMPLETE" ;;;
            let a := result_analysis result in
            match generateSimilarityGroup a (result_theme result) with
            | Some group =>
                ret (Status200
                       {| recommendation :=
                            or_default (analysis_field a "priority_recommendation")
                              (JStr "On Hold");
                          importance :=
                            nullish (analysis_field (analysis_field a "scores")
                                       "overall_priority") (JNum 0);
                          classification := classifyBugOrFeature i;
                          themes :=
                            if String.eqb (result_theme result) EmptyString then []
                            else [result_theme result];
                          similarity_group := group;
                          confidence := match a with Some _ => 0.75%float | None => 0%float end;
                          notes :=
                            or_default (analysis_field a "executive_summary") (JStr EmptyString);
                          outcome_analysis := a |})
            | None =>
                logAction "ERROR" ;;;
                ret Status500
            end
          else
            logAction "ERROR" ;;;
            ret Status500
      | None =>
          logAction "ERROR" ;;;
          ret Status500
      end
  end.

(** *** Rate limiting

    [requestCounts] is a [Map] from the client address to the times of its
    requests: a list of entries in the order of insertion. A time is the
    integer of [Date.now()]. *)

Definition RATE_LIMIT : Z := 10.
Definition RATE_WINDOW : Z := 60000.

Definition request_map : Type := list (string * list Z).

Fixpoint Map_get (k : string) (m : request_map) : option (list Z) :=
  match m with
  | [] => None
  | (k', v) :: m' => if String.eqb k' k then Some v else Map_get k m'
  end.

Definition Map_has (k : string) (m : request_map) : bool :=
  match Map_get k m with
  | Some _ => true
  | None => false
  end.

Fixpoint Map_set (k : string) (v : list Z) (m : request_map) : request_map :=
  match m with
  | [] => [(k, v)]
  | (k', v') :: m' => if String.eqb k' k then (k, v) :: m' else (k', v') :: Map_set k v m'
  end.

(** The result and the map after the call. *)
Definition checkRateLimit (ip : string) (now : Z) (requestCounts : request_map)
  : bool * request_map :=
  let windowStart := now - RATE_WINDOW in
  let requestCounts :=
    if negb (Map_has ip requestCounts) then Map_set ip [] requestCounts else requestCounts in
  let requests := list_of (Map_get ip requestCounts) in
  let recentRequests := filter (fun time => windowStart <? time) requests in
  if RATE_LIMIT <=? Z.of_nat (List.length recentRequests) then (false, requestCounts)
  else (true, Map_set ip (recentRequests ++ [now]) requestCounts).

(** *** Request identifiers *)

(** [v.toString(16)] of an integer. *)
Definition toString16 (v : Z) : string :=
  match v with
  | Z0 => "0"
  | Zpos p => HexadecimalString.NilZero.string_of_uint (N.to_hex_uint (Npos p))
  | Zneg p => String "-" (HexadecimalString.NilZero.string_of_uint (N.to_hex_uint (Npos p)))
  end.

(** [template.replace(/[xy]/g, callback)]: the placeholders are replaced from
    left to right; [random k] is the value of [Math.random() * 16 | 0] in
    the [k]-th call of the callback. *)
Fixpoint replace_xy (random : nat -> Z) (k : nat) (template : string) : string :=
  match template with
  | EmptyString => EmptyString
  | String c rest =>
      if Ascii.eqb c "x" || Ascii.eqb c "y" then
        let r := random k in
        let v := if Ascii.eqb c "x" then r else Z.lor (Z.land r 3) 8 in
        String.append (toString16 v) (replace_xy random (S k) rest)
      else String c (replace_xy random k rest)
  end.

Definition generateUUID (random : nat -> Z) : string :=
  replace_xy random 0 "xxxxxxxx-xxxx-4xxx-yxxx-xxxxxxxxxxxx".

(** *** Product context *)

Record product_details := {
  overview : string;
  corePillars : list string;
  keyCapabilities : list string;
  relevantFeatures : list string;
  businessContext : string;
  technicalContext : string
}.

(** [if (summary.includes(k) || description.includes(k)) features.push(f)] *)
Definition feature_if (summary description keyword feature : string) : list string :=
  if includes keyword summary || includes keyword description then [feature] else [].

Definition getRelevantAuroraFeatures (summary description : string) : list string :=
  let features :=
    feature_if summary description "moderation"
      "AI-powered contextual moderation with automated flagging and escalation queues"
    ++ feature_if summary description "search"
      "Smart search with intent-aware results and content discovery"
    ++ feature_if summary description "knowledge"
      "Knowledge base integration with AI-powered routing and recommendations"
    ++ feature_if summary description "gamification"
      "Over 80 out-of-the-box triggers for badges, ranks, and rewards"
    ++ feature_if summary description "theme"
      "Multi-theme support with Theme Studio for low-code customization"
    ++ feature_if summary description "api"
      "Open APIs and webhooks for integration with external systems"
    ++ feature_if summary description "sdk"
      "Developer SDK for building custom components and extensions"
    ++ feature_if summary description "workflow"
      "Content Workflow (CWA) for approval and governance flows"
    ++ feature_if summary description "sso"
      "Multi-auth SSO options including OpenID Connect/OAuth2 and JWT" in
  match features with
  | [] => ["Core community engagement and knowledge management features"]
  | _ => features
  end.

Definition getRelevantCareFeatures (summary description : string) : list string :=
  let features :=
    feature_if summary description "routing"
      "Smart routing with AI-powered ticket assignment"
    ++ feature_if summary description "workflow"
      "Workflow automation for process optimization"
    ++ feature_if summary description "ai"
      "AI assistance for intelligent responses and automation"
    ++ feature_if summary description "integration"
      "Multi-channel integration for unified customer experience" in
  match features with
  | [] => ["Core customer care and support features"]
  | _ => features
  end.

Definition getRelevantSocialFeatures (summary description : string) : list string :=
  let features :=
    feature_if summary description "publishing"
      "Multi-platform social media publishing and scheduling"
    ++ feature_if summary description "campaign"
      "Campaign management and execution tools"
    ++ feature_if summary description "analytics"
      "Comprehensive social media analytics and reporting"
    ++ feature_if summary description "listening"
      "Social listening and brand monitoring" in
  match features with
  | [] => ["Core social media management features"]
  | _ => features
  end.

Definition getProductDetails (productName : string) (i : issue) : product_details :=
  let summary := toLowerCase (text_of (field summary i)) in
  let description := toLowerCase (text_of (field description i)) in
  if String.eqb productName "Khoros Aurora Community" then
    {| overview := "Khoros Aurora is a unified platform for digital engagement, focusing on Community & Knowledge Management (CKM) for enterprise buyers. It represents a strategic shift from siloed tools to an integrated engagement ecosystem.";
       corePillars :=
         ["Community Engagement: Peer-to-peer support, product feedback, gamification, loyalty programs";
          "Digital Care: Unified agent workspace with smart routing and AI assistance";
          "Social Media Management: Publishing, moderation, campaign execution, analytics"];
       keyCapabilities :=
         ["Unified Platform: Integrates community content, curated knowledge, and agent workflows";
          "Enterprise Architecture: Multi-brand management, role-based access, compliance (SOC 2, GDPR, CCPA)";
          "Aurora AI: Contextual moderation, smart search, knowledge routing, intelligent content surfacing";
          "Community Features: Advanced moderation, structured ideation, gamification, reputation systems";
          "Knowledge Integration: Peer-to-agent escalation, CRM integration, case deflection";
          "Customization: Flexible theming, developer SDK, open APIs, embeddable widgets"];
       relevantFeatures := getRelevantAuroraFeatures summary description;
       businessContext := "Enterprise B2B SaaS platform serving Fortune 500 companies, government agencies, and major brands. Focuses on reducing support costs through community-driven self-service and knowledge management.";
       technicalContext := "Built on modern architecture with AI integration, multi-tenant support, and extensive customization options through SDK and APIs." |}
  else if String.eqb productName "Khoros Care" then
    {| overview := "Khoros Care provides unified customer care across messaging, social, and owned channels with AI-powered assistance and workflow automation.";
       corePillars :=
         ["Agent Productivity: Unified workspace, smart routing, workflow automation";
          "AI Assistance: Intelligent responses, automated workflows, predictive analytics";
          "Multi-Channel Support: Messaging, social media, email, chat integration"];
       keyCapabilities :=
         ["Unified Agent Workspace: Single interface for all customer interactions";
          "Smart Routing: AI-powered ticket assignment and escalation";
          "Workflow Automation: Automated responses and process optimization";
          "AI Assistance: Intelligent suggestions and automated workflows"];
       relevantFeatures := getRelevantCareFeatures summary description;
       businessContext := "Enterprise customer care platform focused on reducing response times and improving customer satisfaction through AI and automation.";
       technicalContext := "Modern cloud platform with AI integration, extensive API support, and enterprise-grade security." |}
  else if String.eqb productName "Khoros Social Media & Marketing" then
    {| overview := "Khoros Social Media & Marketing platform provides comprehensive social media management, campaign execution, and analytics across global social footprints.";
       corePillars :=
         ["Social Publishing: Multi-platform content creation and scheduling";
          "Campaign Management: Campaign execution, monitoring, and optimization";
          "Analytics & Reporting: Performance metrics and ROI measurement"];
       keyCapabilities :=
         ["Multi-Platform Publishing: Support for major social media platforms";
          "Campaign Execution: End-to-end campaign management and optimization";
          "Social Listening: Brand monitoring and crisis response";
          "Analytics: Comprehensive reporting and performance metrics"];
       relevantFeatures := getRelevantSocialFeatures summary description;
       businessContext := "Enterprise social media management platform for brands and agencies managing global social presence.";
       technicalContext := "Cloud-based platform with real-time monitoring, extensive API integration, and enterprise security." |}
  else
    {| overview := "Khoros is a B2B SaaS platform serving enterprise customers in social media management, community engagement, and customer care.";
       corePillars :=
         ["Community & Knowledge Management";
          "Customer Care & Support";
          "Social Media Management"];
       keyCapabilities :=
         ["Enterprise-grade platform with AI integration";
          "Multi-product ecosystem with unified data";
          "Extensive customization and integration options"];
       relevantFeatures := ["Core platform features and capabilities"];
       businessContext := "Enterprise B2B SaaS platform serving Fortune 500 companies and major brands.";
       technicalContext := "Modern cloud architecture with AI capabilities and enterprise security." |}.

Record product_context := {
  product : string;
  product_confidence : string;
  indicator_summary : string;
  indicator_components : list string;
  indicator_labels : list string;
  details : product_details
}.

Definition getProductContext (i : issue) : product_context :=
  let summary := toLowerCase (text_of (field summary i)) in
  let description := toLowerCase (text_of (field description i)) in
  let components := map toLowerCase (list_of (field components i)) in
  let labels := map toLowerCase (list_of (field labels i)) in
  let mentions := fun word =>
    includes word summary || includes word description
    || existsb (fun c => includes word c) components
    || existsb (fun l => includes word l) labels in
  let detected :=
    if mentions "community" then
      if mentions "aurora" then ("Khoros Aurora Community", "High")
      else if mentions "classic" then ("Khoros Classic Community", "High")
      else ("Khoros Community Platform", "Medium")
    else if mentions "care" then ("Khoros Care", "High")
    else if includes "social" summary || includes "social" description
            || includes "marketing" summary || includes "marketing" description
            || existsb (fun c => includes "social" c || includes "marketing" c) components
            || existsb (fun l => includes "social" l || includes "marketing" l) labels
    then ("Khoros Social Media & Marketing", "High")
    else ("Unknown", "Low") in
  {| product := fst detected;
     product_confidence := snd detected;
     indicator_summary := substring0 100 summary;
     indicator_components := components;
     indicator_labels := labels;
     details := getProductDetails (fst detected) i |}.

(** *** The entry of the handler

    What [handler] does before the body of the request is looked at: the
    preflight, the method check and the rate limit. *)

Record http_request := {
  method : string;
  x_forwarded_for : option string;
  x_real_ip : option string;
  req_body : request_body
}.

Inductive http_response :=
| Preflight
| MethodNotAllowed
| RateLimitExceeded
| Answer (r : response).

(** [req.headers['x-forwarded-for'] || req.headers['x-real-ip'] || 'unknown'] *)
Definition clientIP (req : http_request) : string :=
  if negb (String.eqb (text_of (x_forwarded_for req)) EmptyString)
  then text_of (x_forwarded_for req)
  else if negb (String.eqb (text_of (x_real_ip req)) EmptyString)
  then text_of (x_real_ip req)
  else "unknown".

(** [handler] from its first statement, at the time [now] of the clock. *)
Definition handler_entry (req : http_request) (now : Z) (env : backends)
    (requestCounts : request_map) : traced http_response * request_map :=
  if String.eqb (method req) "OPTIONS" then (ret Preflight, requestCounts)
  else if negb (String.eqb (method req) "POST") then (ret MethodNotAllowed, requestCounts)
  else
    let limit := checkRateLimit (clientIP req) now requestCounts in
    if negb (fst limit) then (ret RateLimitExceeded, snd limit)
    else (res <- handler (req_body req) env ;; ret (Answer res), snd limit).

End Part001.

(** [src/api/triage.js]: the handler and the orchestrator of the earlier
    version, which has one analysis step and no rate limit. *)
Module TriageJsService.

Import Part001.

(** What a backend does when it is called: the call throws; a response
    arrives without content; a response arrives whose content cannot be read
    (reading it throws); a response arrives with a text. *)
Inductive answer :=
| Fails
| NoContent
| Unreadable
| Text (text : string).

(** [messages_api] tells whether [anthropic.messages] is there. The client
    of Gemini is constructed without a check. *)
Record services := {
  messages_api : bool;
  gemini : answer;
  claude : answer
}.

Definition call (p : provider) (a : answer) : traced answer := (a, [Call p PriorityAgent]).

Definition callGeminiWithTriage (env : services) : traced (option json) :=
  r <- call Gemini (gemini env) ;;
  match r with
  | Fails => logAction "GEMINI_ERROR" ;;; ret None
  | NoContent =>
      logAction "GEMINI_RESPONSE" ;;;
      logAction "GEMINI_FAILED" ;;;
      ret None
  | Unreadable =>
      logAction "GEMINI_RESPONSE" ;;;
      logAction "GEMINI_ERROR" ;;;
      ret None
  | Text text =>
      logAction "GEMINI_RESPONSE" ;;;
      let parsed := TriageJs.parseAIResponse text in
      if has_scores parsed then
        logAction "GEMINI_PARSE_SUCCESS" ;;;
        ret parsed
      else
        logAction "GEMINI_FAILED" ;;;
        ret None
  end.

Definition callClaudeWithTriage (env : services) : traced (option json) :=
  if negb (messages_api env) then
    logAction "CLAUDE_IMPORT_ERROR" ;;;
    ret None
  else
    r <- call Claude (claude env) ;;
    match r with
    | Fails => logAction "CLAUDE_ERROR" ;;; ret None
    | NoContent =>
        logAction "CLAUDE_RESPONSE" ;;;
        logAction "CLAUDE_FAILED" ;;;
        ret None
    | Unreadable =>
        logAction "CLAUDE_RESPONSE" ;;;
        logAction "CLAUDE_ERROR" ;;;
        ret None
    | Text text =>
        logAction "CLAUDE_RESPONSE" ;;;
        if String.eqb text EmptyString then
          logAction "CLAUDE_FAILED" ;;;
          ret None
        else
          let parsed := TriageJs.parseAIResponse text in
          if has_scores parsed then
            logAction "CLAUDE_PARSE_SUCCESS" ;;;
            ret parsed
          else
            logAction "CLAUDE_FAILED" ;;;
            ret None
    end.

Record triage_result := {
  result_modelUsed : option string;
  result_analysis : option json;
  actions : list string
}.

Definition processTicketWithFullTriage (i : issue) (env : services) : traced triage_result :=
  logAction "PROCESSING_START" ;;;
  logAction "USING_PROVIDED_DATA" ;;;
  logAction "ISSUE_DATA_READY" ;;;
  logAction "PROMPT_BUILT" ;;;
  logAction "TRYING_GEMINI" ;;;
  analysis <- callGeminiWithTriage env ;;
  chosen <-
    (if has_scores analysis then
       logAction "GEMINI_SUCCESS" ;;;
       ret (Some "Gemini Flash 2.0", analysis)
     else
       logAction "GEMINI_FAILED_TRYING_CLAUDE" ;;;
       analysis <- callClaudeWithTriage env ;;
       if has_scores analysis then
         logAction "CLAUDE_SUCCESS" ;;;
         ret (Some "Claude Sonnet", analysis)
       else
         logAction "BOTH_MODELS_FAILED" ;;;
         ret (None, analysis)) ;;
  if has_scores (snd chosen) then
    logAction "ANALYSIS_COMPLETE" ;;;
    ret {| result_modelUsed := fst chosen; result_analysis := snd chosen;
           actions := ["Started processing"; "Analysis completed successfully"] |}
  else
    logAction "ANALYSIS_FAILED" ;;;
    ret {| result_modelUsed := fst chosen; result_analysis := snd chosen;
           actions := ["Started processing"; "Analysis failed - manual review needed"] |}.

Inductive response :=
| Preflight
| MethodNotAllowed
| Success (result : triage_result)
| Error500.

(** [request_issue] is the [issue] member of the request body. *)
Definition handler (method : string) (request_issue : option issue) (env : services)
  : traced response :=
  if String.eqb method "OPTIONS" then ret Preflight
  else if negb (String.eqb method "POST") then ret MethodNotAllowed
  else
    logAction "WEBHOOK_RECEIVED" ;;;
    match request_issue with
    | Some i =>
        if negb (String.eqb (text_of (key i)) EmptyString) then
          logAction "WEBHOOK_PARSED" ;;;
          result <- processTicketWithFullTriage i env ;;
          logAction "PROCESSING_COMPLETE" ;;;
          ret (Success result)
        else
          logAction "ERROR" ;;;
          ret Error500
    | None =>
        logAction "ERROR" ;;;
        ret Error500
    end.

End TriageJsService.

(** ** Definitions used by the statements *)

(** The scoring law in the words of the specification: exact arithmetic on
    integer scores, effort from [effort_score] when present, else from the
    table keyed by [effort_size], else 50, and the result rounded half up. *)
Module Spec.

Definition effort_table (size : option string) : Z :=
  match size with
  | Some k =>
      if String.eqb k "XS" then 100
      else if String.eqb k "S" then 80
      else if String.eqb k "M" then 60
      else if String.eqb k "L" then 40
      else if String.eqb k "XL" then 20
      else 50
  | None => 50
  end.

Definition effort (effort_score : option Z) (size : option string) : Z :=
  match effort_score with
  | Some e => e
  | None => effort_table size
  end.

Definition default0 (o : option Z) : Z :=
  match o with
  | Some z => z
  | None => 0
  end.

(** A hundred times the weighted sum. *)
Definition weighted100 (bi sf cc : option Z) (e : Z) : Z :=
  35 * default0 bi + 25 * default0 sf + 25 * default0 cc + 15 * e.

Definition round_half_up100 (n : Z) : Z := (n + 50) / 100.

Definition computeOverall (bi sf cc es : option Z) (size : option string) : Z :=
  round_half_up100 (weighted100 bi sf cc (effort es size)).

End Spec.

(** The JSON number of the integer [z]. *)
Definition num (z : Z) : json := JNum (float_of_Z z).

(** The property [k] of [scores] is missing ([None]) or the integer given. *)
Definition reads (scores : json) (k : string) (o : option Z) : Prop :=
  get scores k = option_map num o.

Definition in_range (o : option Z) : Prop :=
  match o with
  | Some z => 0 <= z <= 100
  | None => True
  end.

(** The effort the code uses: an [effort_score] of 0 counts as missing. *)
Definition code_effort (es : option Z) (size : option string) : Z :=
  match es with
  | Some 0 => Spec.effort_table size
  | _ => Spec.effort es size
  end.

Definition inherited_name (size : option string) : bool :=
  match size with
  | Some k => existsb (String.eqb k) Object_prototype_names
  | None => false
  end.

(** The body of [calculateOverallPriority] on four numbers. *)
Definition weighted (b s c e : float) : float :=
  Math_round (b * businessWeight + s * strategicWeight + c * crossClientWeight + e * effortWeight)%float.

(** Exhaustive comparison over the integer scores, on machine integers. *)
Definition grid : list (int * float) :=
  map (fun k => let i := Uint63.of_Z (Z.of_nat k) in (i, of_uint63 i)) (seq 0 101).

Definition table_grid : list (int * float) :=
  filter (fun p => existsb (Uint63.eqb (fst p)) [20; 40; 50; 60; 80; 100]%uint63) grid.

Definition weighted100_int (b k e : int) : int :=
  (35 * b + 25 * k + 15 * e)%uint63.

Definition cell (z : Z) : int * float := (Uint63.of_Z z, of_uint63 (Uint63.of_Z z)).

(** The comparison at one effort score, given the partial sums of the other
    three: the float sum as the code forms it and the exact sum in
    hundredths. [ties] allows the code to round an exact half down. *)
Definition check_e (ties : bool) (t2 : float) (n2 : int) (e : int * float) : bool :=
  let r := Math_round (t2 + snd e * effortWeight)%float in
  let n := (n2 + 15 * fst e)%uint63 in
  Leibniz.eqb r (of_uint63 ((n + 50) / 100)%uint63)
  || (ties && Uint63.eqb (n mod 100)%uint63 50%uint63 && Leibniz.eqb r (of_uint63 (n / 100)%uint63)).

(** The sums of two scores of equal weight, 0 to 200. *)
Definition grid2 : list (int * float) :=
  map (fun k => let i := Uint63.of_Z (Z.of_nat k) in (i, of_uint63 i)) (seq 0 201).

(** The two scores of weight 0.25 can be added first: the float sum of the
    code is the one with their sum [fst s + fst c] as a single score. *)
Definition merged (b s c : int * float) : bool :=
  Leibniz.eqb
    (snd b * businessWeight + snd s * strategicWeight + snd c * crossClientWeight)%float
    (snd b * businessWeight + of_uint63 (fst s + fst c) * strategicWeight)%float.

Definition check_merged (bs ss cs : list (int * float)) : bool :=
  forallb (fun b => forallb (fun s => forallb (merged b s) cs) ss) bs.

(** The comparison over all business scores [b], sums [k] of the two
    quarter-weighted scores, and effort scores of [es]. *)
Definition check_k (ties : bool) (es : list (int * float)) (b k : int * float) : bool :=
  let t2 := (snd b * businessWeight + snd k * strategicWeight)%float in
  let n2 := (35 * fst b + 25 * fst k)%uint63 in
  forallb (check_e ties t2 n2) es.

Definition check_all (ties : bool) (es : list (int * float)) : bool :=
  forallb (fun b => forallb (check_k ties es b) grid2) grid.


(** What the validation promises of the result, given the parsed value:
    [null] when a required field is missing; otherwise both fields, with the
    calculator's value for an overall priority that was missing. *)
Definition required_fields (parsed : json) (result : option json) : Prop :=
  (get parsed "scores" = None \/ get parsed "priority_recommendation" = None -> result = None)
  /\ (forall a, result = Some a ->
      exists scores rec,
        get a "scores" = Some scores /\ get a "priority_recommendation" = Some rec
        /\ (forall scores0,
               get parsed "scores" = Some scores0 -> get scores0 "overall_priority" = None ->
               get scores "overall_priority" = Some (JNum (calculateOverallPriority scores0)))).


Definition event_is_call (p : Part001.provider) (a : Part001.agent) (e : Part001.event) : bool :=
  match e, p, a with
  | Part001.Call Part001.Gemini Part001.ThemeAgent, Part001.Gemini, Part001.ThemeAgent => true
  | Part001.Call Part001.Gemini Part001.PriorityAgent, Part001.Gemini, Part001.PriorityAgent => true
  | Part001.Call Part001.Claude Part001.ThemeAgent, Part001.Claude, Part001.ThemeAgent => true
  | Part001.Call Part001.Claude Part001.PriorityAgent, Part001.Claude, Part001.PriorityAgent => true
  | _, _, _ => false
  end.

(** The number of requests sent to backend [p] by agent [a]. *)
Definition calls (p : Part001.provider) (a : Part001.agent) (t : list Part001.event) : nat :=
  List.length (filter (event_is_call p a) t).

Definition logged (action : string) (t : list Part001.event) : Prop :=
  In (Part001.Log action) t.

(** A priority request fails when it throws or when its text does not parse
    to a response with scores. *)
Definition priority_failed (r : Part001.reply) : Prop :=
  match r with
  | Part001.Throws => True
  | Part001.Returns text => Part001.has_scores (Part001.parseAIResponse text) = false
  end.


Definition is_string (v : json) : Prop := exists s, v = JStr s.

Definition has_key (i : Part001.issue) : Prop :=
  exists k, Part001.key i = Some k /\ k <> EmptyString.

(** Tickets and backends of the examples. *)
Definition ticket_1 : Part001.issue :=
  {| Part001.key := Some "PROJ-124";
     Part001.fields :=
       Some {| Part001.summary := Some "Add dark mode toggle to user preferences";
               Part001.description := None; Part001.components := None;
               Part001.labels := None |} |}.

Definition backends_1 (text : string) : Part001.backends :=
  {| Part001.genAI := true; Part001.anthropic := true;
     Part001.gemini_theme := Part001.Returns "USER EXPERIENCE & INTERFACE - Visual Design";
     Part001.claude_theme := Part001.Throws;
     Part001.gemini_priority := Part001.Returns text;
     Part001.claude_priority := Part001.Throws |}.

Definition ticket_without_text : Part001.issue :=
  {| Part001.key := Some "PROJ-1";
     Part001.fields :=
       Some {| Part001.summary := Some "Untitled"; Part001.description := None;
               Part001.components := None; Part001.labels := None |} |}.

Definition backends_down : Part001.backends :=
  {| Part001.genAI := true; Part001.anthropic := true;
     Part001.gemini_theme := Part001.Throws; Part001.claude_theme := Part001.Throws;
     Part001.gemini_priority := Part001.Throws; Part001.claude_priority := Part001.Throws |}.

(** The place of a bucket in the order of the loop. *)
Definition bucket_rank (b : Part001.bucket) : nat :=
  match b with
  | Part001.B_XS => 0
  | Part001.B_S => 1
  | Part001.B_M => 2
  | Part001.B_L => 3
  | Part001.B_XL => 4
  end%nat.

(** The ticket "Simple UI Enhancement" of the repository's local tests. *)
Definition ticket_dark_mode : Part001.issue :=
  {| Part001.key := Some "PROJ-124";
     Part001.fields :=
       Some {| Part001.summary := Some "Add dark mode toggle to user preferences";
               Part001.description :=
                 Some "Users have requested a dark mode option for better visibility in low-light environments. This would be a simple UI enhancement.";
               Part001.components := Some ["User Interface"];
               Part001.labels := Some ["ui"; "user-request"; "enhancement"] |} |}.

Definition newline : string := String "010"%char EmptyString.

(** The serialization [body] in a fenced block tagged json, between prose. *)
Definition fenced_json (pre body post : string) : string :=
  String.append pre
    (String.append "```json"
       (String.append newline
          (String.append body (String.append newline (String.append "```" post))))).

(** [sep] starts at no position of [x] in the text [x ++ r]. *)
Fixpoint absent_before (sep x r : string) : Prop :=
  match x with
  | EmptyString => True
  | String _ x' => String.prefix sep (String.append x r) = false /\ absent_before sep x' r
  end.

(** An analysis that passes the validation with nothing to fill in. *)
Definition complete_analysis (v : json) : Prop :=
  truthy_opt (get v "scores") = true
  /\ truthy_opt (get v "priority_recommendation") = true
  /\ (forall scores, get v "scores" = Some scores ->
        truthy_opt (get scores "overall_priority") = true).

(** The response of the local test, and the same with a priority of 0. *)
Definition analysis_1 : json :=
  JObj [("scores", JObj [("business_impact", num 90); ("effort_size", JStr "S");
                         ("effort_score", num 80); ("strategic_fit", num 85);
                         ("cross_client_value", num 70); ("overall_priority", num 82)]);
        ("priority_recommendation", JStr "Fast Track");
        ("key_insights", JArr [JStr "Critical business need"] []);
        ("risks", JArr [JStr "None identified"] []);
        ("opportunities", JArr [JStr "Market advantage"] []);
        ("similar_features", JStr "None");
        ("recommended_next_steps", JArr [JStr "Immediate development"] []);
        ("executive_summary", JStr "High priority feature.")].

Definition analysis_0 : json :=
  JObj [("scores", JObj [("business_impact", num 90); ("effort_size", JStr "S");
                         ("effort_score", num 80); ("strategic_fit", num 85);
                         ("cross_client_value", num 70); ("overall_priority", num 0)]);
        ("priority_recommendation", JStr "Fast Track")].

Definition overall_priority_is_zero (result : option json) : bool :=
  match result with
  | Some v =>
      match get v "scores" with
      | Some scores =>
          match get scores "overall_priority" with
          | Some (JNum x) => (x =? 0)%float
          | _ => false
          end
      | None => false
      end
  | None => false
  end.

(** *** Effort estimation: what a hit is *)

(** [word] occurs in [text]. *)
Definition occurs (word text : string) : Prop :=
  exists pre post, text = String.append pre (String.append word post).

(** No character of [s] ends a line. *)
Definition within_line (s : string) : Prop :=
  forall c, In c (list_ascii_of_string s) -> c <> "010"%char /\ c <> "013"%char.

(** The pattern [a.*b] is found in [text]: [a], then characters of one
    line, then [b]. *)
Definition pattern_found (p : regex) (text : string) : Prop :=
  exists pre mid post,
    text = String.append pre
             (String.append (lit_before p)
                (String.append mid (String.append (lit_after p) post)))
    /\ within_line mid.

(** [n] of the items of [l] have the property [P], each item counting
    once. *)
Inductive hits {A : Type} (P : A -> Prop) : list A -> Z -> Prop :=
| hits_nil : hits P [] 0
| hits_hit (x : A) (l : list A) (n : Z) : P x -> hits P l n -> hits P (x :: l) (n + 1)
| hits_miss (x : A) (l : list A) (n : Z) : ~ P x -> hits P l n -> hits P (x :: l) n.

(** The title of the specification's example, with a description that
    names a large migration. *)
Definition ticket_dark_mode_large : Part001.issue :=
  {| Part001.key := Some "PROJ-125";
     Part001.fields :=
       Some {| Part001.summary := Some "Add dark mode toggle to user preferences";
               Part001.description :=
                 Some "Part of the large migration of the platform architecture.";
               Part001.components := None; Part001.labels := None |} |}.

(** *** Parts of the parser

    Sub-expressions of [parse_number], [scan_exponent] and [parse_value],
    named for the lemmas about them. *)

(** The sign of an exponent. *)
Definition exponent_sign (r : string) : bool * string :=
  match r with
  | String "-" r' => (true, r')
  | String "+" r' => (false, r')
  | _ => (false, r)
  end.

(** The sign of a number. *)
Definition number_sign (s : string) : bool * string :=
  match s with
  | String "-" r => (true, r)
  | _ => (false, s)
  end.


(** The values that are neither objects, arrays nor strings. *)
Definition scalar (t : string) : option (json * string) :=
  if String.prefix "true" t then Some (JBool true, drop 4 t)
  else if String.prefix "false" t then Some (JBool false, drop 5 t)
  else if String.prefix "null" t then Some (JNull, drop 4 t)
  else match parse_number t with
       | Some (x, rest) => Some (JNum x, rest)
       | None => None
       end.

(** [typeof v === "number"] *)
Definition is_num (v : json) : bool :=
  match v with
  | JNum _ => true
  | _ => false
  end.

(** *** Braces *)

(** What a character adds to the count of unmatched closing braces. *)
Definition brace_step (c : option ascii) : Z :=
  (if option_eqb_char c "}" then 1 else 0) - (if option_eqb_char c "{" then 1 else 0).

(** The closing braces minus the opening braces among the [len] characters
    of [s] from index [i] on. *)
Fixpoint brace_excess (s : string) (i len : nat) : Z :=
  match len with
  | O => 0
  | S len' => brace_step (String.get i s) + brace_excess s (S i) len'
  end.



(** *** Rate limiting *)

(** The times on record for an address, none for an unknown one. *)
Definition recorded (ip : string) (m : Part001.request_map) : list Z :=
  Part001.list_of (Part001.Map_get ip m).

(** Calls of the limiter in sequence: the address and the clock of each. *)
Fixpoint checkRateLimit_all (calls : list (string * Z)) (m : Part001.request_map)
  : list bool * Part001.request_map :=
  match calls with
  | [] => ([], m)
  | (ip, now) :: rest =>
      let r := Part001.checkRateLimit ip now m in
      let rs := checkRateLimit_all rest (snd r) in
      (fst r :: fst rs, snd rs)
  end.

(** The clock does not go back. *)
Fixpoint clock_from (t : Z) (calls : list (string * Z)) : Prop :=
  match calls with
  | [] => True
  | (_, now) :: rest => t <= now /\ clock_from now rest
  end.

(** The accepted calls of [ip] in [history] that are later than [t]. *)
Definition accepted_since (ip : string) (t : Z) (history : list (string * Z)) : Z :=
  Z.of_nat (List.length (filter (fun c => String.eqb (fst c) ip && (t <? snd c)) history)).

(** The sliding window over the full history of accepted calls (latest
    first), nothing forgotten. *)
Fixpoint sliding_window (history calls : list (string * Z)) : list bool :=
  match calls with
  | [] => []
  | (ip, now) :: rest =>
      let ok := accepted_since ip (now - Part001.RATE_WINDOW) history <? Part001.RATE_LIMIT in
      ok :: sliding_window (if ok then (ip, now) :: history else history) rest
  end.

(** What the map records agrees with the full history on every window that
    starts at [t0] or later. *)
Definition agrees_from (t0 : Z) (m : Part001.request_map) (history : list (string * Z))
  : Prop :=
  forall ip t, t0 <= t ->
    Z.of_nat (List.length (filter (fun time => t <? time) (recorded ip m)))
    = accepted_since ip t history.

(** Eleven calls of one address within ten seconds, a call of another
    address, and two later calls. *)
Definition calls_1 : list (string * Z) :=
  map (fun k => ("10.0.0.1", 1000 * Z.of_nat k)) (seq 0 11)
  ++ [("10.0.0.2", 10500); ("10.0.0.1", 60000); ("10.0.0.1", 60001)].

(** The record of an address that has used up its window. *)
Definition requests_full : Part001.request_map := [("10.0.0.1", map Z.of_nat (seq 1 10))].

(** *** The entry of the handler *)

(** The requests that an instance receives, each with the clock and the
    behaviour of the backends at the time, and its responses. *)
Fixpoint handler_all (reqs : list (Part001.http_request * Z * Part001.backends))
    (m : Part001.request_map) : list (Part001.traced Part001.http_response) :=
  match reqs with
  | [] => []
  | (req, now, env) :: rest =>
      let r := Part001.handler_entry req now env m in
      fst r :: handler_all rest (snd r)
  end.

Fixpoint request_clock (t : Z) (reqs : list (Part001.http_request * Z * Part001.backends)) : Prop :=
  match reqs with
  | [] => True
  | (_, now, _) :: rest => t <= now /\ request_clock now rest
  end.

(** The responses by the sliding window over the accepted POST requests. *)
Fixpoint entry_law (history : list (string * Z))
    (reqs : list (Part001.http_request * Z * Part001.backends)) : list (Part001.traced Part001.http_response) :=
  match reqs with
  | [] => []
  | (req, now, env) :: rest =>
      if String.eqb (Part001.method req) "OPTIONS" then
        Part001.ret Part001.Preflight :: entry_law history rest
      else if negb (String.eqb (Part001.method req) "POST") then
        Part001.ret Part001.MethodNotAllowed :: entry_law history rest
      else if accepted_since (Part001.clientIP req) (now - Part001.RATE_WINDOW) history
              <? Part001.RATE_LIMIT then
        Part001.bind (Part001.handler (Part001.req_body req) env)
          (fun res => Part001.ret (Part001.Answer res))
          :: entry_law ((Part001.clientIP req, now) :: history) rest
      else Part001.ret Part001.RateLimitExceeded :: entry_law history rest
  end.

Definition post (ip : option string) (i : option Part001.issue) : Part001.http_request :=
  {| Part001.method := "POST"; Part001.x_forwarded_for := ip; Part001.x_real_ip := None;
     Part001.req_body := Part001.Body i |}.

(** *** Tickets and their classification *)

(** A word occurs in the lower-cased title or description, or in a
    lower-cased component or label of the ticket. *)
Definition mentions (i : Part001.issue) (word : string) : bool :=
  let summary := toLowerCase (Part001.text_of (Part001.field Part001.summary i)) in
  let description := toLowerCase (Part001.text_of (Part001.field Part001.description i)) in
  let components := map toLowerCase (Part001.list_of (Part001.field Part001.components i)) in
  let labels := map toLowerCase (Part001.list_of (Part001.field Part001.labels i)) in
  includes word summary || includes word description
  || existsb (fun c => includes word c) components
  || existsb (fun l => includes word l) labels.

(** The ticket with its texts in lower case. *)
Definition lower_ticket (i : Part001.issue) : Part001.issue :=
  {| Part001.key := Part001.key i;
     Part001.fields :=
       option_map
         (fun fs =>
            {| Part001.summary := option_map toLowerCase (Part001.summary fs);
               Part001.description := option_map toLowerCase (Part001.description fs);
               Part001.components := option_map (map toLowerCase) (Part001.components fs);
               Part001.labels := option_map (map toLowerCase) (Part001.labels fs) |})
         (Part001.fields i) |}.

Definition ticket_classic : Part001.issue :=
  {| Part001.key := Some "PROJ-7";
     Part001.fields :=
       Some {| Part001.summary := Some "Search broken in Classic Community";
               Part001.description := None; Part001.components := None;
               Part001.labels := None |} |}.

(** A word occurs in the lower-cased title or description of the ticket. *)
Definition in_text (i : Part001.issue) (word : string) : bool :=
  includes word (toLowerCase (Part001.text_of (Part001.field Part001.summary i)))
  || includes word (toLowerCase (Part001.text_of (Part001.field Part001.description i))).

(** A label of the ticket is [name] in lower case. *)
Definition labelled (i : Part001.issue) (name : string) : bool :=
  existsb (String.eqb name) (map toLowerCase (Part001.list_of (Part001.field Part001.labels i))).

(** *** Identifiers *)

Definition is_hex (c : ascii) : bool :=
  is_digit c || existsb (Ascii.eqb c) ["a"; "b"; "c"; "d"; "e"; "f"]%char.

(** [u] has the form of [template]: a hexadecimal digit in lower case for an
    [x], one of 8, 9, a, b for a [y], the character of the template
    elsewhere. *)
Fixpoint has_form (template u : string) : Prop :=
  match template, u with
  | EmptyString, EmptyString => True
  | String c template', String d u' =>
      (if Ascii.eqb c "x" then is_hex d = true
       else if Ascii.eqb c "y" then existsb (Ascii.eqb d) ["8"; "9"; "a"; "b"]%char = true
       else d = c)
      /\ has_form template' u'
  | _, _ => False
  end.

Definition digits_only (s : string) : bool := forallb is_digit (list_ascii_of_string s).

(** *** Answers of the backends *)

(** The analysis that a reply of a backend yields: the parsed text. *)
Definition usable_reply (r : Part001.reply) : option json :=
  match r with
  | Part001.Returns text => Part001.parseAIResponse text
  | Part001.Throws => None
  end.

(** [text] is the reply from which the priority agent takes its analysis:
    that of Gemini when its client is there; that of Claude when its client
    is there and that of Gemini is not, or the reply of Gemini gave no
    response with scores. *)
Definition taken_reply (env : Part001.backends) (text : string) : Prop :=
  (Part001.genAI env = true /\ Part001.gemini_priority env = Part001.Returns text)
  \/ ((Part001.genAI env = false
       \/ Part001.has_scores (usable_reply (Part001.gemini_priority env)) = false)
      /\ Part001.anthropic env = true
      /\ Part001.claude_priority env = Part001.Returns text).


(** A ticket without a key. *)
Definition ticket_without_key : Part001.issue :=
  {| Part001.key := None;
     Part001.fields :=
       Some {| Part001.summary := Some "Untitled"; Part001.description := None;
               Part001.components := None; Part001.labels := None |} |}.

(** The text of a reply, trimmed. *)
Definition answered (r : Part001.reply) : option string :=
  match r with
  | Part001.Returns text => Some (trim text)
  | Part001.Throws => None
  end.

(** The analysis that an answer of a backend yields in the earlier version:
    the parsed text, if it parses to a response with scores. *)
Definition usable (a : TriageJsService.answer) : option json :=
  match a with
  | TriageJsService.Text text => TriageJs.parseAIResponse text
  | _ => None
  end.

Definition services_down : TriageJsService.services :=
  {| TriageJsService.messages_api := true;
     TriageJsService.gemini := TriageJsService.Fails;
     TriageJsService.claude := TriageJsService.NoContent |}.

(** *** Ends of a text *)

(** [r] is an end of [s]. *)
Definition suffix (r s : string) : Prop := exists u, s = String.append u r.

Definition is_object (v : json) : bool :=
  match v with
  | JObj _ => true
  | _ => false
  end.

(** A complete response followed by the beginning of another object. *)
Definition response_then_fragment : string :=
  dq "{'scores':{'overall_priority':82},'priority_recommendation':'Fast Track'} {'note':".

(** * Properties *)

(** ** The priority calculator *)

Lemma grid_complete (z : Z) : 0 <= z <= 100 -> In (cell z) grid.
Proof.
  intros Hz. unfold grid, cell.
  apply in_map_iff. exists (Z.to_nat z). split.
  - rewrite Z2Nat.id by lia. reflexivity.
  - apply in_seq. lia.
Qed.

Lemma float_of_Z_nonneg (z : Z) : 0 <= z -> float_of_Z z = of_uint63 (Uint63.of_Z z).
Proof.
  intros Hz. destruct z as [|p|p]; try lia; reflexivity.
Qed.

Lemma to_Z_of_Z_small (z : Z) : 0 <= z < 100000 -> Uint63.to_Z (Uint63.of_Z z) = z.
Proof.
  intros Hz. rewrite Uint63.of_Z_spec. apply Z.mod_small.
  change wB with 9223372036854775808. lia.
Qed.

Lemma to_Z_add_small (x y : int) :
  Uint63.to_Z x + Uint63.to_Z y < 100000 -> Uint63.to_Z (x + y) = Uint63.to_Z x + Uint63.to_Z y.
Proof.
  intros H. rewrite Uint63.add_spec. apply Z.mod_small.
  pose proof (Uint63.to_Z_bounded x). pose proof (Uint63.to_Z_bounded y).
  change wB with 9223372036854775808 in *. lia.
Qed.

Lemma to_Z_mul_small (k : int) (z : Z) :
  0 <= Uint63.to_Z k <= 100 -> 0 <= z <= 200 ->
  Uint63.to_Z (k * Uint63.of_Z z) = Uint63.to_Z k * z.
Proof.
  intros Hk Hz. rewrite Uint63.mul_spec, to_Z_of_Z_small by lia. apply Z.mod_small.
  change wB with 9223372036854775808. nia.
Qed.

Lemma weighted100_int_spec (b k e : Z) :
  0 <= b <= 100 -> 0 <= k <= 200 -> 0 <= e <= 100 ->
  Uint63.to_Z (weighted100_int (Uint63.of_Z b) (Uint63.of_Z k) (Uint63.of_Z e))
  = 35 * b + 25 * k + 15 * e.
Proof.
  intros Hb Hk He. unfold weighted100_int.
  assert (H35 : Uint63.to_Z (35 * Uint63.of_Z b) = 35 * b) by (apply (to_Z_mul_small 35); [vm_compute; split; discriminate | lia]).
  assert (H25 : Uint63.to_Z (25 * Uint63.of_Z k) = 25 * k) by (apply (to_Z_mul_small 25); [vm_compute; split; discriminate | lia]).
  assert (H15 : Uint63.to_Z (15 * Uint63.of_Z e) = 15 * e) by (apply (to_Z_mul_small 15); [vm_compute; split; discriminate | lia]).
  rewrite to_Z_add_small; rewrite to_Z_add_small; lia.
Qed.

Lemma of_Z_injective_on (x : int) (z : Z) : Uint63.to_Z x = z -> x = Uint63.of_Z z.
Proof. intros <-. symmetry. apply Uint63.of_to_Z. Qed.

Lemma round_int_spec (n : int) (z : Z) :
  Uint63.to_Z n = z -> 0 <= z <= 10000 ->
  of_uint63 ((n + 50) / 100)%uint63 = float_of_Z (Spec.round_half_up100 z).
Proof.
  intros Hn Hz. unfold Spec.round_half_up100.
  rewrite float_of_Z_nonneg by (apply Z.div_pos; lia).
  f_equal. apply of_Z_injective_on.
  rewrite Uint63.div_spec, to_Z_add_small; rewrite Hn; change (Uint63.to_Z 50) with 50; change (Uint63.to_Z 100) with 100; lia.
Qed.

Lemma floor_int_spec (n : int) (z : Z) :
  Uint63.to_Z n = z -> 0 <= z <= 10000 ->
  of_uint63 (n / 100)%uint63 = float_of_Z (z / 100).
Proof.
  intros Hn Hz.
  rewrite float_of_Z_nonneg by (apply Z.div_pos; lia).
  f_equal. apply of_Z_injective_on.
  rewrite Uint63.div_spec, Hn. reflexivity.
Qed.


Lemma of_Z_add_small (x y : Z) :
  0 <= x <= 100 -> 0 <= y <= 100 -> (Uint63.of_Z x + Uint63.of_Z y)%uint63 = Uint63.of_Z (x + y).
Proof.
  intros Hx Hy. apply of_Z_injective_on.
  rewrite to_Z_add_small; rewrite !to_Z_of_Z_small; lia.
Qed.

Lemma sums_merge : check_merged grid grid grid = true.
Proof. vm_compute. reflexivity. Qed.

Lemma agrees_or_tie_down_everywhere : check_all true (tl grid) = true.
Proof. vm_compute. reflexivity. Qed.

Lemma agrees_on_table : check_all false table_grid = true.
Proof. vm_compute. reflexivity. Qed.

Lemma grid2_complete (z : Z) : 0 <= z <= 200 -> In (cell z) grid2.
Proof.
  intros Hz. unfold grid2, cell.
  apply in_map_iff. exists (Z.to_nat z). split.
  - rewrite Z2Nat.id by lia. reflexivity.
  - apply in_seq. lia.
Qed.

Lemma check_merged_spec (bs ss cs : list (int * float)) (b s c : int * float) :
  check_merged bs ss cs = true -> In b bs -> In s ss -> In c cs ->
  (snd b * businessWeight + snd s * strategicWeight + snd c * crossClientWeight)%float
  = (snd b * businessWeight + of_uint63 (fst s + fst c) * strategicWeight)%float.
Proof.
  unfold check_merged. intros H Hb Hs Hc.
  rewrite forallb_forall in H. specialize (H b Hb).
  rewrite forallb_forall in H. specialize (H s Hs).
  rewrite forallb_forall in H. specialize (H c Hc).
  apply Leibniz.eqb_spec in H. exact H.
Qed.

Lemma check_all_spec (ties : bool) (es : list (int * float)) :
  check_all ties es = true ->
  forall b k e, In b grid -> In k grid2 -> In e es ->
  check_e ties (snd b * businessWeight + snd k * strategicWeight)%float
          (35 * fst b + 25 * fst k)%uint63 e = true.
Proof.
  unfold check_all. intros H b k e Hb Hk He.
  rewrite forallb_forall in H. specialize (H b Hb).
  rewrite forallb_forall in H. specialize (H k Hk). unfold check_k in H.
  rewrite forallb_forall in H. exact (H e He).
Qed.

Lemma grid_tail (z : Z) : 1 <= z <= 100 -> In (cell z) (tl grid).
Proof.
  intros Hz. change (tl grid) with (map (fun k => let i := Uint63.of_Z (Z.of_nat k) in (i, of_uint63 i)) (seq 1 100)).
  apply in_map_iff. exists (Z.to_nat z). split.
  - rewrite Z2Nat.id by lia. reflexivity.
  - apply in_seq. lia.
Qed.

Lemma grid_table (z : Z) : In z [20; 40; 50; 60; 80; 100] -> In (cell z) table_grid.
Proof.
  intros Hz. unfold table_grid. apply filter_In. split.
  - apply grid_complete. simpl in Hz. lia.
  - simpl in Hz. repeat (destruct Hz as [<- | Hz]; [reflexivity |]). contradiction.
Qed.

(** What a successful check of one cell says about the integers. *)
Lemma check_e_integers (ties : bool) (es : list (int * float)) (b s c e : Z) :
  check_all ties es = true ->
  0 <= b <= 100 -> 0 <= s <= 100 -> 0 <= c <= 100 -> 0 <= e <= 100 -> In (cell e) es ->
  let n := 35 * b + 25 * s + 25 * c + 15 * e in
  let r := weighted (float_of_Z b) (float_of_Z s) (float_of_Z c) (float_of_Z e) in
  r = float_of_Z (Spec.round_half_up100 n)
  \/ (ties = true /\ n mod 100 = 50 /\ r = float_of_Z (n / 100)).
Proof.
  intros Hall Hb Hs Hc He Hin n r.
  pose proof (check_all_spec _ _ Hall (cell b) (cell (s + c)) (cell e)
                (grid_complete b Hb) (grid2_complete (s + c) ltac:(lia)) Hin) as H.
  pose proof (check_merged_spec grid grid grid (cell b) (cell s) (cell c) sums_merge
                (grid_complete b Hb) (grid_complete s Hs) (grid_complete c Hc)) as Hm.
  unfold cell in Hm. cbn [fst snd] in Hm. rewrite (of_Z_add_small s c Hs Hc) in Hm.
  unfold check_e, cell in H. cbn [fst snd] in H. rewrite <- Hm in H.
  subst r.
  rewrite (float_of_Z_nonneg b), (float_of_Z_nonneg s), (float_of_Z_nonneg c), (float_of_Z_nonneg e) by lia.
  fold (weighted (of_uint63 (Uint63.of_Z b)) (of_uint63 (Uint63.of_Z s)) (of_uint63 (Uint63.of_Z c)) (of_uint63 (Uint63.of_Z e))) in H.
  assert (Hn : Uint63.to_Z (weighted100_int (Uint63.of_Z b) (Uint63.of_Z (s + c)) (Uint63.of_Z e)) = n)
    by (rewrite weighted100_int_spec; subst n; lia).
  unfold weighted100_int in Hn.
  apply orb_true_iff in H. destruct H as [H | H].
  - left. apply Leibniz.eqb_spec in H. rewrite H.
    apply round_int_spec; [exact Hn | subst n; lia].
  - right. apply andb_true_iff in H. destruct H as [Ht H].
    apply andb_true_iff in Ht. destruct Ht as [Hties Ht].
    apply Leibniz.eqb_spec in H. apply Uint63.eqb_spec in Ht.
    split; [exact Hties | split].
    + apply (f_equal Uint63.to_Z) in Ht. rewrite Uint63.mod_spec, Hn in Ht. exact Ht.
    + rewrite H. apply floor_int_spec; [exact Hn | subst n; lia].
Qed.

Lemma unit_interval_div (n k : Z) : 0 <= n <= 10000 -> 0 <= k <= 50 -> 0 <= (n + k) / 100 <= 100.
Proof.
  intros Hn Hk. split.
  - apply Z.div_pos; lia.
  - apply Z.lt_succ_r. apply Z.div_lt_upper_bound; lia.
Qed.

Lemma or_zero_num (z : Z) : 0 <= z <= 100 -> or_zero (Some (num z)) = float_of_Z z.
Proof.
  intros Hz.
  assert (H : forallb (fun p => Leibniz.eqb (or_zero (Some (JNum (snd p)))) (snd p)) grid = true)
    by (vm_compute; reflexivity).
  rewrite forallb_forall in H. specialize (H _ (grid_complete z Hz)).
  apply Leibniz.eqb_spec in H. unfold cell in H. cbn [snd] in H.
  unfold num. rewrite float_of_Z_nonneg by lia. exact H.
Qed.

Lemma truthy_num (z : Z) : 1 <= z <= 100 -> truthy (num z) = true.
Proof.
  intros Hz.
  assert (H : forallb (fun p => truthy (JNum (snd p))) (tl grid) = true)
    by (vm_compute; reflexivity).
  rewrite forallb_forall in H. specialize (H _ (grid_tail z Hz)).
  unfold cell in H. cbn [snd] in H.
  unfold num. rewrite float_of_Z_nonneg by lia. exact H.
Qed.

Lemma or_zero_reads (scores : json) (k : string) (o : option Z) :
  reads scores k o -> in_range o -> or_zero (get scores k) = float_of_Z (Spec.default0 o).
Proof.
  unfold reads. intros -> Hr. destruct o as [z|]; simpl in *.
  - apply or_zero_num. exact Hr.
  - reflexivity.
Qed.

Lemma effort_table_values (size : option string) :
  In (Spec.effort_table size) [20; 40; 50; 60; 80; 100].
Proof.
  unfold Spec.effort_table. destruct size as [k|]; [|simpl; tauto].
  repeat (match goal with |- context [if ?b then _ else _] => destruct b end; [simpl; tauto|]).
  simpl; tauto.
Qed.

Lemma effortScores_table (size : option string) :
  inherited_name size = false ->
  match effortScores (ToPropertyKey (option_map JStr size)) with
  | Entry x => x
  | Inherited => nan
  | Absent => 50%float
  end = float_of_Z (Spec.effort_table size).
Proof.
  intros Hi. destruct size as [k|]; [|reflexivity].
  unfold inherited_name in Hi. cbn [ToPropertyKey option_map ToString].
  unfold effortScores, Spec.effort_table.
  repeat (match goal with |- context [String.eqb k ?s] => destruct (String.eqb k s) end; [reflexivity|]).
  rewrite Hi. reflexivity.
Qed.

Lemma effortScore_reads (scores : json) (es : option Z) (size : option string) :
  reads scores "effort_score" es -> get scores "effort_size" = option_map JStr size ->
  in_range es -> inherited_name size = false ->
  effortScore scores = float_of_Z (code_effort es size).
Proof.
  unfold reads, effortScore. intros -> -> Hr Hi.
  destruct es as [z|]; cbn [option_map truthy_opt in_range] in Hr |- *.
  - destruct (Z.eq_dec z 0) as [-> | Hz].
    + change (truthy (num 0)) with false. cbv iota. apply (effortScores_table size Hi).
    + rewrite truthy_num by lia. rewrite or_zero_num by lia.
      unfold code_effort. destruct z; try reflexivity. lia.
  - cbv iota. apply (effortScores_table size Hi).
Qed.

Lemma calculateOverallPriority_weighted (scores : json) :
  calculateOverallPriority scores
  = weighted (or_zero (get scores "business_impact")) (or_zero (get scores "strategic_fit"))
             (or_zero (get scores "cross_client_value")) (effortScore scores).
Proof. reflexivity. Qed.

(** C1 (amended): on integer scores in [0,100] (a missing one counts as 0;
    the effort is [effort_score] unless it is missing or 0, then the table
    entry of [effort_size], then 50) the result is an integer in [0,100]. It
    is the exact weighted sum rounded half up, except that with an explicit
    [effort_score] an exact half may be rounded down, the sum being formed
    in binary64. The two inputs of the specification yield 85 and 35. *)
Theorem calculateOverallPriority_integer_scores :
  (forall (scores : json) (bi sf cc es : option Z) (size : option string),
      reads scores "business_impact" bi -> reads scores "strategic_fit" sf ->
      reads scores "cross_client_value" cc -> reads scores "effort_score" es ->
      get scores "effort_size" = option_map JStr size ->
      in_range bi -> in_range sf -> in_range cc -> in_range es ->
      inherited_name size = false ->
      let n := Spec.weighted100 bi sf cc (code_effort es size) in
      exists r : Z,
        calculateOverallPriority scores = float_of_Z r /\ 0 <= r <= 100 /\
        (r = Spec.round_half_up100 n \/ (n mod 100 = 50 /\ r = n / 100)) /\
        ((es = None \/ es = Some 0) -> r = Spec.round_half_up100 n))
  /\ calculateOverallPriority
       (JObj [("business_impact", num 90); ("strategic_fit", num 85);
              ("cross_client_value", num 80); ("effort_size", JStr "S")]) = float_of_Z 85
  /\ calculateOverallPriority
       (JObj [("business_impact", num 30); ("strategic_fit", num 40);
              ("cross_client_value", num 35); ("effort_size", JStr "L")]) = float_of_Z 35.
Proof.
  split; [|split; vm_compute; reflexivity].
  intros scores bi sf cc es size Hbi Hsf Hcc Hes Hsize Rbi Rsf Rcc Res Hinh n.
  rewrite calculateOverallPriority_weighted.
  rewrite (or_zero_reads _ _ _ Hbi Rbi), (or_zero_reads _ _ _ Hsf Rsf), (or_zero_reads _ _ _ Hcc Rcc).
  rewrite (effortScore_reads _ _ _ Hes Hsize Res Hinh).
  assert (Bbi : 0 <= Spec.default0 bi <= 100) by (destruct bi; simpl in *; lia).
  assert (Bsf : 0 <= Spec.default0 sf <= 100) by (destruct sf; simpl in *; lia).
  assert (Bcc : 0 <= Spec.default0 cc <= 100) by (destruct cc; simpl in *; lia).
  pose proof (effort_table_values size) as Ht.
  assert (Htr : 1 <= Spec.effort_table size <= 100) by (simpl in Ht; lia).
  assert (Hcases : (es = None \/ es = Some 0) /\ code_effort es size = Spec.effort_table size
                   \/ exists e, es = Some e /\ 1 <= e <= 100 /\ code_effort es size = e).
  { destruct es as [e|]; [|left; split; [left|]; reflexivity].
    destruct (Z.eq_dec e 0) as [-> | He].
    - left. split; [right|]; reflexivity.
    - right. exists e. simpl in Res. repeat split; try lia. destruct e; try reflexivity; lia. }
  fold n. unfold Spec.weighted100 in n.
  destruct Hcases as [[Hes0 He] | [e [-> [He1 He]]]].
  - subst n. rewrite He.
    destruct (check_e_integers false table_grid (Spec.default0 bi) (Spec.default0 sf)
                (Spec.default0 cc) (Spec.effort_table size)
                agrees_on_table Bbi Bsf Bcc ltac:(lia) (grid_table _ Ht)) as [H | [H _]];
      [|discriminate].
    exists (Spec.round_half_up100
              (35 * Spec.default0 bi + 25 * Spec.default0 sf + 25 * Spec.default0 cc
               + 15 * Spec.effort_table size)).
    split; [exact H|]. unfold Spec.round_half_up100.
    split; [apply unit_interval_div; lia |].
    split; [left; reflexivity | intros _; reflexivity].
  - subst n. rewrite He.
    destruct (check_e_integers true (tl grid) (Spec.default0 bi) (Spec.default0 sf)
                (Spec.default0 cc) e
                agrees_or_tie_down_everywhere Bbi Bsf Bcc ltac:(lia) (grid_tail _ He1)) as [H | [_ [Hm H]]].
    + exists (Spec.round_half_up100
              (35 * Spec.default0 bi + 25 * Spec.default0 sf + 25 * Spec.default0 cc + 15 * e)).
      split; [exact H|]. unfold Spec.round_half_up100.
      split; [apply unit_interval_div; lia |].
      split; [left; reflexivity |].
      intros [Hn | Hn]; [discriminate | injection Hn as ->; lia].
    + exists ((35 * Spec.default0 bi + 25 * Spec.default0 sf + 25 * Spec.default0 cc + 15 * e) / 100).
      split; [exact H|].
      split; [rewrite <- (Z.add_0_r (_ + 15 * e)); apply unit_interval_div; lia |].
      split; [right; split; [exact Hm | reflexivity] |].
      intros [Hn | Hn]; [discriminate | injection Hn as ->; lia].
Qed.

Lemma calculateOverallPriority_integer_scores_witness :
  exists r : Z,
    calculateOverallPriority
      (JObj [("business_impact", num 90); ("strategic_fit", num 85);
             ("cross_client_value", num 80); ("effort_size", JStr "S")]) = float_of_Z r
    /\ 0 <= r <= 100
    /\ (r = Spec.round_half_up100 8475 \/ (8475 mod 100 = 50 /\ r = 8475 / 100))
    /\ ((@None Z = None \/ @None Z = Some 0) -> r = Spec.round_half_up100 8475).
Proof.
  apply (proj1 calculateOverallPriority_integer_scores
           (JObj [("business_impact", num 90); ("strategic_fit", num 85);
                  ("cross_client_value", num 80); ("effort_size", JStr "S")])
           (Some 90) (Some 85) (Some 80) None (Some "S"));
    try reflexivity; simpl; lia.
Defined.

Lemma float_8_not_0 : float_of_Z 8 <> float_of_Z 0.
Proof.
  intros H. apply (f_equal (fun x => (x =? 0)%float)) in H. vm_compute in H. discriminate.
Qed.

(** C1 as stated fails: with an [effort_score] of 0 the code falls back to
    the default effort 50 and returns 8, where the stated law gives 0. *)
Lemma calculateOverallPriority_effort_score_zero :
  ~ (forall (scores : json) (bi sf cc es : option Z) (size : option string),
        reads scores "business_impact" bi -> reads scores "strategic_fit" sf ->
        reads scores "cross_client_value" cc -> reads scores "effort_score" es ->
        get scores "effort_size" = option_map JStr size ->
        in_range bi -> in_range sf -> in_range cc -> in_range es ->
        calculateOverallPriority scores = float_of_Z (Spec.computeOverall bi sf cc es size)).
Proof.
  intros H.
  assert (E : calculateOverallPriority
                (JObj [("business_impact", num 0); ("strategic_fit", num 0);
                       ("cross_client_value", num 0); ("effort_score", num 0)])
              = float_of_Z (Spec.computeOverall (Some 0) (Some 0) (Some 0) (Some 0) None))
    by (apply H; try reflexivity; simpl; lia).
  vm_compute in E. exact (float_8_not_0 E).
Qed.

(** The other way in which the stated law fails: 0.35 + 41 * 0.15 is 6.5,
    which rounds half up to 7, but its binary64 sum is below 6.5. *)
Example calculateOverallPriority_tie_rounds_down :
  calculateOverallPriority (JObj [("business_impact", num 1); ("effort_score", num 41)])
    = float_of_Z 6
  /\ Spec.computeOverall (Some 1) None None (Some 41) None = 7.
Proof. split; vm_compute; reflexivity. Qed.




(** ** Properties of objects *)

Lemma lookup_replace_same (k : string) (v : json) (ps : list (string * json)) :
  lookup k ps <> None -> lookup k (replace_prop k v ps) = Some v.
Proof.
  induction ps as [|[k' v'] ps IH]; simpl; intros H.
  - contradiction.
  - destruct (String.eqb k' k) eqn:E; simpl; rewrite E; auto.
Qed.

Lemma lookup_replace_other (k k' : string) (v : json) (ps : list (string * json)) :
  k' <> k -> lookup k' (replace_prop k v ps) = lookup k' ps.
Proof.
  intros Hk. induction ps as [|[k0 v0] ps IH]; simpl; [reflexivity|].
  destruct (String.eqb k0 k) eqn:E; simpl.
  - apply String.eqb_eq in E. subst k0.
    assert (E' : String.eqb k k' = false) by (apply String.eqb_neq; congruence).
    rewrite E'. reflexivity.
  - rewrite IH. reflexivity.
Qed.

Lemma lookup_insert_index_same (i : Z) (k : string) (v : json) (ps : list (string * json)) :
  lookup k ps = None -> lookup k (insert_index i k v ps) = Some v.
Proof.
  induction ps as [|[k' v'] ps IH]; simpl; intros H.
  - rewrite String.eqb_refl. reflexivity.
  - destruct (String.eqb k' k) eqn:E; [discriminate|].
    destruct (array_index k') as [j|]; [destruct (j <? i)|]; simpl;
      rewrite ?E, ?String.eqb_refl; auto.
Qed.

Lemma lookup_insert_index_other (i : Z) (k k' : string) (v : json) (ps : list (string * json)) :
  k' <> k -> lookup k' (insert_index i k v ps) = lookup k' ps.
Proof.
  intros Hk. apply String.eqb_neq in Hk. rewrite String.eqb_sym in Hk.
  induction ps as [|[k0 v0] ps IH]; simpl.
  - rewrite Hk. reflexivity.
  - destruct (array_index k0) as [j|]; [destruct (j <? i)|]; simpl; rewrite ?Hk, ?IH; reflexivity.
Qed.

Lemma lookup_app_same (k : string) (v : json) (ps : list (string * json)) :
  lookup k ps = None -> lookup k (ps ++ [(k, v)]) = Some v.
Proof.
  induction ps as [|[k' v'] ps IH]; simpl; intros H.
  - rewrite String.eqb_refl. reflexivity.
  - destruct (String.eqb k' k); [discriminate | auto].
Qed.

Lemma lookup_app_other (k k' : string) (v : json) (ps : list (string * json)) :
  k' <> k -> lookup k' (ps ++ [(k, v)]) = lookup k' ps.
Proof.
  intros Hk. apply String.eqb_neq in Hk. rewrite String.eqb_sym in Hk.
  induction ps as [|[k0 v0] ps IH]; simpl.
  - rewrite Hk. reflexivity.
  - rewrite IH. reflexivity.
Qed.

Lemma lookup_set_prop_same (k : string) (v : json) (ps : list (string * json)) :
  lookup k (set_prop k v ps) = Some v.
Proof.
  unfold set_prop. destruct (lookup k ps) eqn:E.
  - apply lookup_replace_same. congruence.
  - destruct (array_index k).
    + apply lookup_insert_index_same, E.
    + apply lookup_app_same, E.
Qed.

Lemma lookup_set_prop_other (k k' : string) (v : json) (ps : list (string * json)) :
  k' <> k -> lookup k' (set_prop k v ps) = lookup k' ps.
Proof.
  intros Hk. unfold set_prop. destruct (lookup k ps).
  - apply lookup_replace_other, Hk.
  - destruct (array_index k).
    + apply lookup_insert_index_other, Hk.
    + apply lookup_app_other, Hk.
Qed.

Lemma get_assign_same (target : json) (k : string) (v : json) (target' : json) :
  assign target k v = Some target' -> get target' k = Some v.
Proof.
  destruct target; simpl; intros H; try discriminate; injection H as <-;
    unfold get; simpl; apply lookup_set_prop_same.
Qed.

Lemma get_assign_other (target : json) (k k' : string) (v : json) (target' : json) :
  assign target k v = Some target' -> k' <> k -> get target' k' = get target k'.
Proof.
  destruct target; simpl; intros H Hk; try discriminate; injection H as <-;
    unfold get; simpl; apply lookup_set_prop_other, Hk.
Qed.

Lemma truthy_assigned (target : json) (k : string) (v : json) (target' : json) :
  assign target k v = Some target' -> truthy target' = true.
Proof.
  destruct target; simpl; intros H; try discriminate; injection H as <-; reflexivity.
Qed.


(** ** The validation of the parsed response *)

Lemma truthy_opt_true (o : option json) :
  truthy_opt o = true -> exists v, o = Some v /\ truthy v = true.
Proof. destruct o; simpl; intros H; [eauto | discriminate]. Qed.

(** What [validate] returns, in terms of the parsed value. *)
Lemma validate_some (parsed a : json) :
  validate parsed = Some a ->
  exists scores,
    get parsed "scores" = Some scores /\ truthy scores = true
    /\ truthy_opt (get parsed "priority_recommendation") = true
    /\ ((truthy_opt (get scores "overall_priority") = true /\ a = parsed)
        \/ (truthy_opt (get scores "overall_priority") = false
            /\ exists scores',
                 assign scores "overall_priority" (JNum (calculateOverallPriority scores)) = Some scores'
                 /\ assign parsed "scores" scores' = Some a)).
Proof.
  unfold validate. intros H.
  assert (H' : (if negb (truthy_opt (get parsed "scores"))
                   || negb (truthy_opt (get parsed "priority_recommendation"))
                then None
                else match get parsed "scores" with
                     | None => None
                     | Some scores =>
                         if negb (truthy_opt (get scores "overall_priority")) then
                           match assign scores "overall_priority" (JNum (calculateOverallPriority scores)) with
                           | Some scores' => assign parsed "scores" scores'
                           | None => None
                           end
                         else Some parsed
                     end) = Some a) by (destruct parsed; [discriminate | exact H ..]).
  clear H.
  destruct (truthy_opt (get parsed "scores")) eqn:Es; [|discriminate].
  destruct (truthy_opt (get parsed "priority_recommendation")) eqn:Er; [|discriminate].
  simpl in H'.
  destruct (truthy_opt_true _ Es) as [scores [Hs Ht]]. rewrite Hs in H'.
  exists scores. repeat split; auto.
  destruct (truthy_opt (get scores "overall_priority")) eqn:Eo; simpl in H'.
  - left. split; congruence.
  - right. split; [reflexivity|].
    destruct (assign scores "overall_priority" (JNum (calculateOverallPriority scores))) as [scores'|];
      [|discriminate].
    eauto.
Qed.

Lemma validate_none (parsed : json) :
  truthy_opt (get parsed "scores") = false \/ truthy_opt (get parsed "priority_recommendation") = false ->
  validate parsed = None.
Proof.
  intros H. unfold validate.
  assert (E : negb (truthy_opt (get parsed "scores"))
              || negb (truthy_opt (get parsed "priority_recommendation")) = true)
    by (destruct H as [-> | ->]; [reflexivity | apply orb_true_r]).
  rewrite E. destruct parsed; reflexivity.
Qed.

(** The fields of a validated response. *)
Lemma validate_fields (parsed a : json) :
  validate parsed = Some a ->
  exists scores0 scores rec,
    get parsed "scores" = Some scores0
    /\ get a "scores" = Some scores /\ truthy scores = true
    /\ get a "priority_recommendation" = Some rec /\ truthy rec = true
    /\ get parsed "priority_recommendation" = Some rec
    /\ ((truthy_opt (get scores0 "overall_priority") = true /\ a = parsed)
        \/ (truthy_opt (get scores0 "overall_priority") = false
            /\ get scores "overall_priority" = Some (JNum (calculateOverallPriority scores0)))).
Proof.
  intros H. destruct (validate_some _ _ H) as [scores0 [Hs [Ht [Hr Hc]]]].
  destruct (truthy_opt_true _ Hr) as [rec [Hrec Htr]].
  destruct Hc as [[Ho ->] | [Ho [scores' [Ha1 Ha2]]]].
  - exists scores0, scores0, rec. repeat split; auto.
  - exists scores0, scores', rec. repeat split; auto.
    + apply (get_assign_same _ _ _ _ Ha2).
    + apply (truthy_assigned _ _ _ _ Ha1).
    + rewrite (get_assign_other _ _ "priority_recommendation" _ _ Ha2); [exact Hrec | discriminate].
    + right. split; [exact Ho|]. apply (get_assign_same _ _ _ _ Ha1).
Qed.

(** ** The response parser: validation *)

Lemma required_fields_validate (parsed : json) : required_fields parsed (validate parsed).
Proof.
  split.
  - intros H. apply validate_none. destruct H as [-> | ->]; [left | right]; reflexivity.
  - intros a H. destruct (validate_fields _ _ H) as [scores0 [scores [rec [H0 [Hs [_ [Hr [_ [_ Hc]]]]]]]]].
    exists scores, rec. repeat split; auto.
    intros scores1 H1 Ho. assert (scores1 = scores0) by congruence. subst scores1.
    destruct Hc as [[Hc _] | [_ Hc]]; [rewrite Ho in Hc; discriminate | exact Hc].
Qed.

(** C3: the parser returns [null] when the parsed object lacks [scores] or
    [priority_recommendation]; an object it returns has both, and carries
    the calculator's value when [scores.overall_priority] was omitted. Both
    versions. *)
Theorem parseAIResponse_required_fields (text : string) (parsed : json) :
  (TriageJs.extracted_json text = Some parsed ->
   required_fields parsed (TriageJs.parseAIResponse text))
  /\ (Part001.extracted_json text = Some parsed ->
      required_fields parsed (Part001.parseAIResponse text)).
Proof.
  split; intros H.
  - unfold TriageJs.parseAIResponse. rewrite H. apply required_fields_validate.
  - unfold Part001.parseAIResponse. rewrite H. apply required_fields_validate.
Qed.

Lemma parseAIResponse_required_fields_witness :
  required_fields
    (JObj [("scores", JObj [("business_impact", JNum 90)]);
           ("priority_recommendation", JStr "Fast Track")])
    (Part001.parseAIResponse
       (dq "{'scores':{'business_impact':90},'priority_recommendation':'Fast Track'}")).
Proof.
  apply (proj2 (parseAIResponse_required_fields
                  (dq "{'scores':{'business_impact':90},'priority_recommendation':'Fast Track'}")
                  (JObj [("scores", JObj [("business_impact", JNum 90)]);
                         ("priority_recommendation", JStr "Fast Track")]))).
  vm_compute. reflexivity.
Defined.




(** The supplied 0 of the example above comes back as 35. *)
Example parseAIResponse_zero_becomes_35 :
  option_map (fun a => Part001.analysis_field (get a "scores") "overall_priority")
    (Part001.parseAIResponse
       (dq "{'scores':{'business_impact':30,'effort_size':'L','strategic_fit':40,'cross_client_value':35,'overall_priority':0},'priority_recommendation':'Low'}"))
  = Some (Some (JNum 35)).
Proof. vm_compute. reflexivity. Qed.

(** Either version returns [null] or an object with truthy [scores] and
    [priority_recommendation]. *)
Lemma validate_total (parsed : json) :
  validate parsed = None
  \/ exists a scores rec,
       validate parsed = Some a /\ get a "scores" = Some scores /\ truthy scores = true
       /\ get a "priority_recommendation" = Some rec /\ truthy rec = true.
Proof.
  destruct (validate parsed) as [a|] eqn:H; [right | left; reflexivity].
  destruct (validate_fields _ _ H) as [_ [scores [rec [_ [Hs [Ht [Hr [Htr _]]]]]]]].
  exists a, scores, rec. auto.
Qed.

(** C5: on every text the parser returns, and what it returns when a
    statement of its [try] block throws ([split] on a missing piece,
    [JSON.parse] on malformed text) is [null]; so on a text that is no JSON.
    Both versions. *)
Theorem parseAIResponse_never_throws :
  (forall text : string,
      (TriageJs.parseAIResponse text = None
       \/ exists a scores rec,
            TriageJs.parseAIResponse text = Some a /\ get a "scores" = Some scores
            /\ truthy scores = true
            /\ get a "priority_recommendation" = Some rec /\ truthy rec = true)
      /\ (extract text = None -> TriageJs.parseAIResponse text = None)
      /\ (forall jsonStr, extract text = Some jsonStr -> JSON_parse (trim jsonStr) = None ->
          TriageJs.parseAIResponse text = None))
  /\ (forall text : string,
      (Part001.parseAIResponse text = None
       \/ exists a scores rec,
            Part001.parseAIResponse text = Some a /\ get a "scores" = Some scores
            /\ truthy scores = true
            /\ get a "priority_recommendation" = Some rec /\ truthy rec = true)
      /\ (extract text = None -> Part001.parseAIResponse text = None)
      /\ (forall jsonStr, extract text = Some jsonStr ->
          JSON_parse (Part001.repair (trim jsonStr)) = None ->
          Part001.parseAIResponse text = None))
  /\ TriageJs.parseAIResponse "Sorry, I couldn't analyze this" = None
  /\ Part001.parseAIResponse "Sorry, I couldn't analyze this" = None.
Proof.
  split; [|split; [|split; vm_compute; reflexivity]]; intros text; split; [|split| |split].
  - unfold TriageJs.parseAIResponse. destruct (TriageJs.extracted_json text); [apply validate_total | left; reflexivity].
  - intros H. unfold TriageJs.parseAIResponse, TriageJs.extracted_json. rewrite H. reflexivity.
  - intros jsonStr H1 H2. unfold TriageJs.parseAIResponse, TriageJs.extracted_json. rewrite H1, H2. reflexivity.
  - unfold Part001.parseAIResponse. destruct (Part001.extracted_json text); [apply validate_total | left; reflexivity].
  - intros H. unfold Part001.parseAIResponse, Part001.extracted_json. rewrite H. reflexivity.
  - intros jsonStr H1 H2. unfold Part001.parseAIResponse, Part001.extracted_json. rewrite H1, H2. reflexivity.
Qed.

Lemma parseAIResponse_never_throws_witness :
  Part001.parseAIResponse "{" = None.
Proof.
  apply (proj2 (proj2 (proj1 (proj2 parseAIResponse_never_throws) "{")) "{");
    vm_compute; reflexivity.
Defined.

(** ** The two agents *)

Import Part001.

Ltac run_agents :=
  unfold analyzePriority, analyzePriority_claude, classifyTheme, classifyTheme_claude,
    bind, ret, logAction, request; cbn [fst snd].

Ltac in_trace := unfold logged; cbn [app In]; tauto.

Ltac count_calls := unfold calls; cbn [app filter event_is_call List.length]; lia.

(** The fallback of the priority agent, from the point where the secondary
    backend is considered. *)
Lemma analyzePriority_claude_dispatch (env : backends) :
  let p := analyzePriority_claude env in
  calls Gemini PriorityAgent (snd p) = 0%nat
  /\ calls Claude PriorityAgent (snd p) = (if anthropic env then 1 else 0)%nat
  /\ ((anthropic env = false \/ priority_failed (claude_priority env)) ->
      analysis (fst p) = None /\ modelUsed (fst p) = "None - Both models failed"
      /\ logged "PRIORITY_ANALYSIS_BOTH_FAILED" (snd p)).
Proof.
  cbv zeta. unfold priority_failed, analyzePriority_claude, bind, ret, logAction, request.
  cbn [fst snd].
  destruct (anthropic env); [destruct (claude_priority env) as [|tc];
    [|destruct (has_scores (parseAIResponse tc)) eqn:Hc] |];
    cbn [fst snd analysis modelUsed];
    (split; [count_calls |]); (split; [count_calls |]);
    intros [H | H]; try discriminate;
    (split; [reflexivity | split; [reflexivity | in_trace]]).
Qed.

Lemma analyzePriority_dispatch (i : issue) (env : backends) :
  let p := analyzePriority i env in
  calls Gemini PriorityAgent (snd p) = (if genAI env then 1 else 0)%nat
  /\ (calls Claude PriorityAgent (snd p) <= 1)%nat
  /\ (genAI env = true -> priority_failed (gemini_priority env) ->
      calls Claude PriorityAgent (snd p) = (if anthropic env then 1 else 0)%nat)
  /\ ((genAI env = false \/ priority_failed (gemini_priority env)) ->
      (anthropic env = false \/ priority_failed (claude_priority env)) ->
      analysis (fst p) = None /\ modelUsed (fst p) = "None - Both models failed"
      /\ logged "PRIORITY_ANALYSIS_BOTH_FAILED" (snd p)).
Proof.
  cbv zeta.
  destruct (analyzePriority_claude_dispatch env) as [Cg [Cc Cf]].
  unfold analyzePriority, bind, ret, logAction, request. cbn [fst snd].
  remember (analyzePriority_claude env) as q eqn:Eq. clear Eq.
  unfold priority_failed at 1 2.
  destruct (genAI env); [destruct (gemini_priority env) as [|tg];
    [|destruct (has_scores (parseAIResponse tg)) eqn:Hg] |];
    cbn [fst snd analysis modelUsed];
    rewrite ?calls_app_cons_log, ?calls_app;
    repeat split.
  all: try (intros; discriminate).
  all: try (unfold calls in *; cbn [app filter event_is_call List.length] in *;
            rewrite ?filter_app, ?length_app in *; cbn [app filter event_is_call List.length] in *;
            destruct (anthropic env); lia).
  all: match goal with
       | H0 : anthropic _ = false \/ _ |- _ => destruct (Cf H0) as [F1 [F2 F3]]
       end; auto.
  all: unfold logged in *; repeat (apply in_or_app; right); exact F3.
Qed.

Lemma classifyTheme_dispatch (i : issue) (env : backends) :
  let t := classifyTheme i env in
  calls Gemini ThemeAgent (snd t) = (if genAI env then 1 else 0)%nat
  /\ (calls Claude ThemeAgent (snd t) <= 1)%nat
  /\ (genAI env = true -> gemini_theme env = Throws ->
      calls Claude ThemeAgent (snd t) = (if anthropic env then 1 else 0)%nat)
  /\ ((genAI env = false \/ gemini_theme env = Throws) ->
      (anthropic env = false \/ claude_theme env = Throws) ->
      theme (fst t) = "THEME NOT IDENTIFIED"
      /\ theme_modelUsed (fst t) = "None - Both models failed"
      /\ logged "THEME_CLASSIFICATION_BOTH_FAILED" (snd t)).
Proof.
  cbv zeta. run_agents.
  destruct (genAI env), (anthropic env);
    destruct (gemini_theme env) as [|sg], (claude_theme env) as [|sc];
    cbn [fst snd app theme theme_modelUsed];
    (split; [count_calls |]);
    (split; [count_calls |]);
    (split; [intros; try discriminate; count_calls |]);
    intros [H1 | H1] [H2 | H2]; try discriminate;
    (split; [reflexivity | split; [reflexivity | in_trace]]).
Qed.

(** C7 (amended): in each dispatch every backend is called at most once, the
    primary one exactly when its client is initialised; when the primary
    call fails, the secondary backend is called exactly once if its client
    is initialised and not at all otherwise; when no backend succeeds, the
    priority dispatch returns no analysis, the theme dispatch returns the
    sentinel with a failure marker as model, and the failure is logged. *)
Theorem dispatch_single_fallback (i : issue) (env : backends) :
  let p := analyzePriority i env in
  let t := classifyTheme i env in
  (calls Gemini PriorityAgent (snd p) = (if genAI env then 1 else 0)%nat
   /\ (calls Claude PriorityAgent (snd p) <= 1)%nat
   /\ (genAI env = true -> priority_failed (gemini_priority env) ->
       calls Claude PriorityAgent (snd p) = (if anthropic env then 1 else 0)%nat)
   /\ ((genAI env = false \/ priority_failed (gemini_priority env)) ->
       (anthropic env = false \/ priority_failed (claude_priority env)) ->
       analysis (fst p) = None /\ modelUsed (fst p) = "None - Both models failed"
       /\ logged "PRIORITY_ANALYSIS_BOTH_FAILED" (snd p)))
  /\ (calls Gemini ThemeAgent (snd t) = (if genAI env then 1 else 0)%nat
      /\ (calls Claude ThemeAgent (snd t) <= 1)%nat
      /\ (genAI env = true -> gemini_theme env = Throws ->
          calls Claude ThemeAgent (snd t) = (if anthropic env then 1 else 0)%nat)
      /\ ((genAI env = false \/ gemini_theme env = Throws) ->
          (anthropic env = false \/ claude_theme env = Throws) ->
          theme (fst t) = "THEME NOT IDENTIFIED"
          /\ theme_modelUsed (fst t) = "None - Both models failed"
          /\ logged "THEME_CLASSIFICATION_BOTH_FAILED" (snd t))).
Proof.
  split; [apply analyzePriority_dispatch | apply classifyTheme_dispatch].
Qed.

Lemma dispatch_single_fallback_witness :
  calls Claude PriorityAgent (snd (analyzePriority ticket_without_text backends_down)) = 1%nat.
Proof.
  apply (proj1 (proj2 (proj2 (proj1 (dispatch_single_fallback ticket_without_text backends_down)))));
    simpl; auto.
Defined.

(** C7 as stated fails: when the client of the secondary backend was not
    initialised (no API key), a failure of the primary call is followed by
    no second attempt. *)
Lemma dispatch_secondary_not_configured :
  ~ (forall (i : issue) (env : backends),
        genAI env = true -> gemini_priority env = Throws ->
        calls Claude PriorityAgent (snd (analyzePriority i env)) = 1%nat).
Proof.
  intros H.
  specialize (H ticket_without_text
                {| genAI := true; anthropic := false; gemini_theme := Throws; claude_theme := Throws;
                   gemini_priority := Throws; claude_priority := Throws |} eq_refl eq_refl).
  vm_compute in H. discriminate.
Qed.
(** ** The orchestrator *)

Lemma processTicket_analysis (i : issue) (env : backends) :
  result_analysis (fst (processTicketWithFullTriage i env))
  = if has_scores (analysis (fst (analyzePriority i env)))
    then analysis (fst (analyzePriority i env)) else None.
Proof.
  unfold processTicketWithFullTriage, bind, ret, logAction. cbn [fst snd].
  destruct (has_scores (analysis (fst (analyzePriority i env)))); reflexivity.
Qed.

(** The response to a request whose issue has a key. *)
Lemma handler_response (i : issue) (env : backends) :
  has_key i ->
  let result := fst (processTicketWithFullTriage i env) in
  let a := result_analysis result in
  fst (handler (Body (Some i)) env)
  = match generateSimilarityGroup a (result_theme result) with
    | Some group =>
        Status200
          {| recommendation := or_default (analysis_field a "priority_recommendation") (JStr "On Hold");
             importance := nullish (analysis_field (analysis_field a "scores") "overall_priority") (JNum 0);
             classification := classifyBugOrFeature i;
             themes := if String.eqb (result_theme result) EmptyString then [] else [result_theme result];
             similarity_group := group;
             confidence := match a with Some _ => 0.75%float | None => 0%float end;
             notes := or_default (analysis_field a "executive_summary") (JStr EmptyString);
             outcome_analysis := a |}
    | None => Status500
    end.
Proof.
  intros [k [Hk Hne]]. cbv zeta.
  unfold handler, bind, ret, logAction. cbn [fst snd].
  rewrite Hk. cbn [text_of].
  apply String.eqb_neq in Hne. rewrite Hne. cbn [negb fst snd].
  destruct (generateSimilarityGroup _ _); reflexivity.
Qed.

Lemma handler_no_key (body : request_body) (env : backends) (o : outcome) :
  fst (handler body env) = Status200 o -> exists i, body = Body (Some i) /\ has_key i.
Proof.
  unfold handler, bind, ret, logAction.
  destruct body as [|[i|]]; cbn [fst snd]; [discriminate| |discriminate].
  destruct (key i) as [k|] eqn:Hk; cbn [text_of].
  - destruct (String.eqb k EmptyString) eqn:E; cbn [negb fst snd]; [discriminate|].
    intros _. exists i. split; [reflexivity|]. exists k. split; [exact Hk|].
    apply String.eqb_neq, E.
  - cbn [String.eqb negb fst snd]. discriminate.
Qed.

(** An analysis that the priority agent returns is the parser's result on
    the reply that the agent takes. *)
Lemma analyzePriority_taken (i : issue) (env : backends) (a : json) :
  analysis (fst (analyzePriority i env)) = Some a ->
  exists text, taken_reply env text /\ parseAIResponse text = Some a.
Proof.
  unfold taken_reply, usable_reply. run_agents.
  destruct (genAI env) eqn:Eg; cbn [fst snd].
  - destruct (gemini_priority env) as [|text] eqn:Ep; cbn [fst snd].
    + destruct (anthropic env) eqn:Ea; cbn [fst snd analysis]; [|discriminate].
      destruct (claude_priority env) as [|text] eqn:Ec; cbn [fst snd analysis]; [discriminate|].
      destruct (has_scores (parseAIResponse text)) eqn:Eh; cbn [fst snd analysis]; [|discriminate].
      intros H. exists text. split; [right|exact H]. auto.
    + destruct (has_scores (parseAIResponse text)) eqn:Eh; cbn [fst snd analysis].
      * intros H. exists text. split; [left|exact H]. auto.
      * destruct (anthropic env) eqn:Ea; cbn [fst snd analysis]; [|discriminate].
        destruct (claude_priority env) as [|text'] eqn:Ec; cbn [fst snd analysis]; [discriminate|].
        destruct (has_scores (parseAIResponse text')) eqn:Eh'; cbn [fst snd analysis]; [|discriminate].
        intros H. exists text'. split; [right|exact H]. auto.
  - destruct (anthropic env) eqn:Ea; cbn [fst snd analysis]; [|discriminate].
    destruct (claude_priority env) as [|text] eqn:Ec; cbn [fst snd analysis]; [discriminate|].
    destruct (has_scores (parseAIResponse text)) eqn:Eh; cbn [fst snd analysis]; [|discriminate].
    intros H. exists text. split; [right|exact H]. auto.
Qed.

(** The analysis of an outcome is the parser's result on the reply that the
    priority agent takes, that is the validation of the value parsed from
    it. *)
Lemma outcome_analysis_origin (body : request_body) (env : backends) (o : outcome) (a : json) :
  fst (handler body env) = Status200 o -> outcome_analysis o = Some a ->
  exists text parsed,
    taken_reply env text /\ extracted_json text = Some parsed /\ validate parsed = Some a
    /\ importance o = nullish (analysis_field (get a "scores") "overall_priority") (JNum 0).
Proof.
  intros H Ha. destruct (handler_no_key _ _ _ H) as [i [-> Hk]].
  rewrite (handler_response i env Hk) in H. cbv zeta in H.
  pose proof (processTicket_analysis i env) as Hr.
  remember (fst (processTicketWithFullTriage i env)) as result eqn:Er. clear Er.
  destruct (generateSimilarityGroup _ _); [|discriminate].
  injection H as <-. cbn [outcome_analysis importance] in *.
  rewrite Ha in *. cbn [analysis_field].
  destruct (has_scores (analysis (fst (analyzePriority i env)))); [|discriminate].
  symmetry in Hr. destruct (analyzePriority_taken _ _ _ Hr) as [text [Ht Hp]].
  unfold parseAIResponse in Hp.
  destruct (extracted_json text) as [parsed|] eqn:Ex; [|discriminate].
  exists text, parsed. auto.
Qed.

(** Where the importance of an outcome with an analysis comes from. *)
Lemma outcome_importance_origin
    (body : request_body) (env : backends) (o : outcome) (a : json) :
  fst (handler body env) = Status200 o -> outcome_analysis o = Some a ->
  exists text parsed scores0 scores v,
    taken_reply env text
    /\ extracted_json text = Some parsed
    /\ validate parsed = Some a
    /\ get parsed "scores" = Some scores0
    /\ get a "scores" = Some scores
    /\ get scores "overall_priority" = Some v
    /\ importance o = v
    /\ ((get scores0 "overall_priority" = Some v /\ truthy v = true)
        \/ (truthy_opt (get scores0 "overall_priority") = false
            /\ v = JNum (calculateOverallPriority scores0))).
Proof.
  intros H Ha. destruct (outcome_analysis_origin _ _ _ _ H Ha) as [text [parsed [Ht [Hx [Hv Hi]]]]].
  destruct (validate_fields _ _ Hv) as [scores0 [scores [rec [H0 [Hs [_ [_ [_ [_ Hc]]]]]]]]].
  rewrite Hs in Hi. cbn [analysis_field] in Hi.
  destruct Hc as [[Ho ->] | [Ho Hc]].
  - destruct (truthy_opt_true _ Ho) as [v [Hg Htv]].
    assert (scores = scores0) by congruence. subst scores.
    exists text, parsed, scores0, scores0, v. rewrite Hg in Hi.
    repeat split; auto.
    rewrite Hi. destruct v; try reflexivity. discriminate.
  - exists text, parsed, scores0, scores, (JNum (calculateOverallPriority scores0)).
    rewrite Hc in Hi. repeat split; auto.
Qed.

(** C2 (amended): in every outcome that carries an analysis,
    [scores.overall_priority] is present and is the reported importance. With
    [parsed] the value that [JSON.parse] reads from the reply that the
    priority agent took, it is the [scores.overall_priority] of [parsed], as
    the backend supplied it, when that value is truthy, and the calculator's
    value on the supplied scores otherwise. *)
Theorem outcome_overall_priority_present
    (body : request_body) (env : backends) (o : outcome) (a : json) :
  fst (handler body env) = Status200 o -> outcome_analysis o = Some a ->
  exists text parsed scores0 scores v,
    taken_reply env text
    /\ extracted_json text = Some parsed
    /\ validate parsed = Some a
    /\ get parsed "scores" = Some scores0
    /\ get a "scores" = Some scores
    /\ get scores "overall_priority" = Some v
    /\ importance o = v
    /\ ((get scores0 "overall_priority" = Some v /\ truthy v = true)
        \/ (truthy_opt (get scores0 "overall_priority") = false
            /\ v = JNum (calculateOverallPriority scores0))).
Proof. apply outcome_importance_origin. Qed.

Lemma outcome_overall_priority_present_witness :
  exists o a text parsed scores0 scores v,
    fst (handler (Body (Some ticket_1))
           (backends_1 (dq "{'scores':{'business_impact':90,'effort_size':'S','strategic_fit':85,'cross_client_value':80},'priority_recommendation':'Fast Track'}")))
    = Status200 o
    /\ outcome_analysis o = Some a
    /\ taken_reply
         (backends_1 (dq "{'scores':{'business_impact':90,'effort_size':'S','strategic_fit':85,'cross_client_value':80},'priority_recommendation':'Fast Track'}"))
         text
    /\ extracted_json text = Some parsed
    /\ validate parsed = Some a
    /\ get parsed "scores" = Some scores0
    /\ get a "scores" = Some scores
    /\ get scores "overall_priority" = Some v
    /\ importance o = v
    /\ ((get scores0 "overall_priority" = Some v /\ truthy v = true)
        \/ (truthy_opt (get scores0 "overall_priority") = false
            /\ v = JNum (calculateOverallPriority scores0))).
Proof.
  assert (H : exists o a,
             fst (handler (Body (Some ticket_1))
                    (backends_1 (dq "{'scores':{'business_impact':90,'effort_size':'S','strategic_fit':85,'cross_client_value':80},'priority_recommendation':'Fast Track'}")))
             = Status200 o /\ outcome_analysis o = Some a)
    by (vm_compute; eexists; eexists; split; reflexivity).
  destruct H as [o [a [H1 H2]]].
  destruct (outcome_overall_priority_present _ _ o a H1 H2)
    as [text [parsed [scores0 [scores [v H]]]]].
  exists o, a, text, parsed, scores0, scores, v. tauto.
Defined.

Lemma num_not_150 (z : Z) : 0 <= z <= 100 -> num z <> JNum 150.
Proof.
  intros Hz H.
  assert (C : forallb (fun p => negb (Leibniz.eqb (snd p) 150)) grid = true)
    by (vm_compute; reflexivity).
  rewrite forallb_forall in C. specialize (C _ (grid_complete z Hz)).
  unfold cell in C. cbn [snd] in C.
  unfold num in H. rewrite float_of_Z_nonneg in H by lia. injection H as H.
  apply Leibniz.eqb_spec in H. rewrite H in C. discriminate.
Qed.

(** C2 as stated fails: an overall priority of 150 supplied by the backend
    is returned as it is. *)
Lemma outcome_overall_priority_out_of_range :
  ~ (forall (body : request_body) (env : backends) (o : outcome) (a : json),
        fst (handler body env) = Status200 o -> outcome_analysis o = Some a ->
        exists scores z,
          get a "scores" = Some scores
          /\ get scores "overall_priority" = Some (num z) /\ 0 <= z <= 100).
Proof.
  intros C.
  assert (H : exists o a scores,
             fst (handler (Body (Some ticket_1))
                    (backends_1 (dq "{'scores':{'business_impact':90,'overall_priority':150},'priority_recommendation':'Fast Track'}")))
             = Status200 o /\ outcome_analysis o = Some a
             /\ get a "scores" = Some scores
             /\ get scores "overall_priority" = Some (JNum 150))
    by (vm_compute; eexists; eexists; eexists; repeat split; reflexivity).
  destruct H as [o [a [scores [H1 [H2 [H3 H4]]]]]].
  destruct (C _ _ o a H1 H2) as [scores' [z [H3' [H4' Hz]]]].
  assert (scores' = scores) by congruence. subst scores'.
  apply (num_not_150 z Hz). congruence.
Qed.




(** The calculator's value need not be a finite number: when the backend
    supplies no overall priority and a score that is text, the importance
    of the outcome is NaN, which the JSON response carries as [null]. *)
Lemma handler_importance_nan :
  exists o x,
    fst (handler (Body (Some ticket_1))
           (backends_1 (dq "{'scores':{'business_impact':'high'},'priority_recommendation':'Fast Track'}")))
    = Status200 o
    /\ importance o = JNum x /\ PrimFloat.is_nan x = true.
Proof. vm_compute. eexists. eexists. repeat split; reflexivity. Qed.


(** ** Effort estimation *)

(** A loop that keeps the first bucket of highest score, and "M" when no
    score is positive. *)
Lemma first_highest (f : bucket -> Z) :
  let best :=
    snd (fold_left (fun st b => if fst st <? f b then (f b, b) else st)
           [B_XS; B_S; B_M; B_L; B_XL] (0, B_M)) in
  ((forall b, f b <= 0) -> best = B_M)
  /\ ((exists b, 0 < f b) ->
      (forall b, f b <= f best)
      /\ (forall b, (bucket_rank b < bucket_rank best)%nat -> f b < f best)).
Proof.
  cbv zeta. cbn [fold_left fst snd].
  destruct (Z.ltb_spec 0 (f B_XS)); cbn [fst snd].
  all: match goal with |- context [?a <? ?g B_S] => destruct (Z.ltb_spec a (g B_S)) end;
    cbn [fst snd].
  all: match goal with |- context [?a <? ?g B_M] => destruct (Z.ltb_spec a (g B_M)) end;
    cbn [fst snd].
  all: match goal with |- context [?a <? ?g B_L] => destruct (Z.ltb_spec a (g B_L)) end;
    cbn [fst snd].
  all: match goal with |- context [?a <? ?g B_XL] => destruct (Z.ltb_spec a (g B_XL)) end;
    cbn [fst snd].
  all: split;
    [ intros Hall; pose proof (Hall B_XS); pose proof (Hall B_S); pose proof (Hall B_M);
      pose proof (Hall B_L); pose proof (Hall B_XL); try reflexivity; lia
    | intros [b0 Hpos]; split; intros b; destruct b; cbn [bucket_rank]; intros;
      try lia; destruct b0; lia ].
Qed.

Lemma inferred_fold (summary description : string) (comps : list string) :
  inferred summary description comps
  = fold_left (fun st b =>
                 if fst st <? bucket_score summary description comps (indicators_of b)
                 then (bucket_score summary description comps (indicators_of b), b) else st)
      [B_XS; B_S; B_M; B_L; B_XL] (0, B_M).
Proof. unfold inferred, effortIndicators, consider. cbn [map fold_left fst snd]. reflexivity. Qed.

Lemma prefix_occurs (w s : string) :
  String.prefix w s = true <-> exists post, s = String.append w post.
Proof.
  revert s. induction w as [|c w IH]; intros s.
  - split; [intros _; exists s; reflexivity | intros _; destruct s; reflexivity].
  - destruct s as [|d s]; cbn [String.prefix String.append].
    + split; [discriminate | intros [post H]; discriminate].
    + destruct (ascii_dec c d) as [-> | Hn].
      * rewrite IH. split; intros [post H]; exists post; [rewrite H; reflexivity|].
        injection H as H. exact H.
      * split; [discriminate | intros [post H]; injection H as H _; congruence].
Qed.

Ltac absurd_prefix E H post :=
  exfalso; apply Bool.diff_false_true; rewrite <- E; apply prefix_occurs; exists post;
  exact H.

Lemma includes_occurs (w s : string) : includes w s = true <-> occurs w s.
Proof.
  unfold occurs. induction s as [|d s IH]; cbn [includes].
  - destruct (String.prefix w EmptyString) eqn:E.
    + split; [intros _|reflexivity]. apply prefix_occurs in E. destruct E as [post E].
      exists EmptyString, post. exact E.
    + split; [discriminate|]. intros [pre [post H]]. destruct pre as [|c pre]; [|discriminate].
      cbn [String.append] in H. absurd_prefix E H post.
  - destruct (String.prefix w (String d s)) eqn:E.
    + split; [intros _|reflexivity]. apply prefix_occurs in E. destruct E as [post E].
      exists EmptyString, post. exact E.
    + rewrite IH. split.
      * intros [pre [post H]]. exists (String d pre), post. rewrite H. reflexivity.
      * intros [pre [post H]]. destruct pre as [|c pre].
        -- cbn [String.append] in H. absurd_prefix E H post.
        -- injection H as _ H. exists pre, post. exact H.
Qed.

Lemma is_line_terminator_spec (c : ascii) :
  is_line_terminator c = false <-> c <> "010"%char /\ c <> "013"%char.
Proof.
  destruct c as [[] [] [] [] [] [] [] []]; vm_compute; split;
    try discriminate; try reflexivity; try (intros [H1 H2]; congruence);
    intros _; split; discriminate.
Qed.

Lemma dot_star_then_found (b s : string) :
  dot_star_then b s = true
  <-> exists mid post, s = String.append mid (String.append b post) /\ within_line mid.
Proof.
  induction s as [|d s IH]; cbn [dot_star_then].
  - destruct (String.prefix b EmptyString) eqn:E.
    + split; [intros _|reflexivity]. apply prefix_occurs in E. destruct E as [post E].
      exists EmptyString, post. split; [exact E | intros c []].
    + split; [discriminate|]. intros [mid [post [H _]]]. destruct mid; [|discriminate].
      absurd_prefix E H post.
  - destruct (String.prefix b (String d s)) eqn:E.
    + split; [intros _|reflexivity]. apply prefix_occurs in E. destruct E as [post E].
      exists EmptyString, post. split; [exact E | intros c []].
    + destruct (is_line_terminator d) eqn:Ed.
      * split; [discriminate|]. intros [mid [post [H Hm]]]. destruct mid as [|c mid].
        -- absurd_prefix E H post.
        -- injection H as <- H. 
           assert (Hc : is_line_terminator d = false)
             by (apply is_line_terminator_spec, Hm; left; reflexivity).
           congruence.
      * rewrite IH. split.
        -- intros [mid [post [H Hm]]]. exists (String d mid), post. split; [rewrite H; reflexivity|].
           intros c [<- | Hc]; [apply is_line_terminator_spec, Ed | apply Hm, Hc].
        -- intros [mid [post [H Hm]]]. destruct mid as [|c mid].
           ++ absurd_prefix E H post.
           ++ injection H as _ H. exists mid, post. split; [exact H|].
              intros c' Hc'. apply Hm. right. exact Hc'.
Qed.

Lemma drop_length_append (p r : string) : drop (String.length p) (String.append p r) = r.
Proof. induction p as [|c p IH]; [destruct r; reflexivity | exact IH]. Qed.

Lemma regex_head_found (p : regex) (s : string) :
  (if String.prefix (lit_before p) s
   then dot_star_then (lit_after p) (drop (String.length (lit_before p)) s)
   else false) = true
  <-> exists mid post,
        s = String.append (lit_before p) (String.append mid (String.append (lit_after p) post))
        /\ within_line mid.
Proof.
  split.
  - destruct (String.prefix (lit_before p) s) eqn:E; [|discriminate].
    apply prefix_occurs in E. destruct E as [r ->]. rewrite drop_length_append.
    intros H. apply dot_star_then_found in H. destruct H as [mid [post [-> Hm]]].
    exists mid, post. split; [reflexivity | exact Hm].
  - intros [mid [post [-> Hm]]].
    rewrite (proj2 (prefix_occurs _ _) (ex_intro _ _ eq_refl)), drop_length_append.
    apply dot_star_then_found. exists mid, post. split; [reflexivity | exact Hm].
Qed.

Lemma regex_test_found (p : regex) (s : string) : regex_test p s = true <-> pattern_found p s.
Proof.
  unfold pattern_found. induction s as [|d s IH]; cbn [regex_test]; rewrite orb_true_iff, regex_head_found.
  - split.
    + intros [[mid [post [H Hm]]] | H]; [|discriminate].
      exists EmptyString, mid, post. split; [exact H | exact Hm].
    + intros [pre [mid [post [H Hm]]]]. left. destruct pre; [|discriminate].
      exists mid, post. split; [exact H | exact Hm].
  - rewrite IH. split.
    + intros [[mid [post [H Hm]]] | [pre [mid [post [H Hm]]]]].
      * exists EmptyString, mid, post. split; [exact H | exact Hm].
      * exists (String d pre), mid, post. split; [rewrite H; reflexivity | exact Hm].
    + intros [pre [mid [post [H Hm]]]]. destruct pre as [|c pre].
      * left. exists mid, post. split; [exact H | exact Hm].
      * right. injection H as _ H. exists pre, mid, post. split; [exact H | exact Hm].
Qed.

Lemma hits_filter {A : Type} (P : A -> Prop) (f : A -> bool) (l : list A) :
  (forall x, f x = true <-> P x) -> hits P l (Z.of_nat (List.length (filter f l))).
Proof.
  intros H. induction l as [|x l IH]; cbn [filter]; [constructor|].
  destruct (f x) eqn:E.
  - cbn [List.length]. rewrite Nat2Z.inj_succ, <- Z.add_1_r.
    apply hits_hit; [apply H, E | exact IH].
  - apply hits_miss; [|exact IH]. intros HP. apply H in HP. congruence.
Qed.

(** The count is determined by the property. *)
Lemma hits_unique {A : Type} (P : A -> Prop) (l : list A) (n m : Z) :
  hits P l n -> hits P l m -> n = m.
Proof.
  intros Hn. revert m. induction Hn as [|x l n Hx Hn IH|x l n Hx Hn IH]; intros m Hm;
    inversion Hm; subst; try contradiction; try reflexivity.
  - rewrite (IH _ H3). reflexivity.
  - exact (IH _ H3).
Qed.

Lemma bucket_score_hits (title body : string) (comps : list string) (b : bucket) :
  exists k p c,
    hits (fun word => occurs word title \/ occurs word body) (keywords (indicators_of b)) k
    /\ hits (fun pattern => pattern_found pattern title \/ pattern_found pattern body)
         (patterns (indicators_of b)) p
    /\ hits (fun comp => exists word, In word (keywords (indicators_of b)) /\ occurs word comp)
         comps c
    /\ bucket_score title body comps (indicators_of b) = 10 * k + 15 * p + 5 * c.
Proof.
  exists (Z.of_nat (List.length (keywordMatches title body (indicators_of b)))),
    (Z.of_nat (List.length (patternMatches title body (indicators_of b)))),
    (Z.of_nat (List.length (componentMatches comps (indicators_of b)))).
  split; [|split; [|split]].
  - apply hits_filter. intros word. rewrite orb_true_iff, !includes_occurs. reflexivity.
  - apply hits_filter. intros pattern. rewrite orb_true_iff, !regex_test_found. reflexivity.
  - apply hits_filter. intros comp. rewrite existsb_exists.
    split; intros [word [Hin H]]; exists word; (split; [exact Hin|]); apply includes_occurs, H.
  - unfold bucket_score. lia.
Qed.

Lemma override_occurs (title : string) (b : bucket) :
  let security := occurs "security" title \/ occurs "compliance" title in
  let repair := occurs "bug" title \/ occurs "fix" title in
  let minor := occurs "minor" title \/ occurs "small" title in
  let critical := occurs "critical" title \/ occurs "major" title in
  (security -> override title b = B_S)
  /\ (~ security -> repair -> minor -> override title b = B_XS)
  /\ (~ security -> repair -> ~ minor -> critical -> override title b = B_M)
  /\ (~ security -> ~ (repair /\ (minor \/ critical)) -> override title b = b).
Proof.
  cbv zeta. rewrite <- !includes_occurs, <- !orb_true_iff. unfold override.
  destruct (includes "security" title || includes "compliance" title),
    (includes "bug" title || includes "fix" title),
    (includes "minor" title || includes "small" title),
    (includes "critical" title || includes "major" title);
    repeat split; intros; try reflexivity; try discriminate; try tauto;
    exfalso; intuition discriminate.
Qed.

Lemma filter_hit {A : Type} (f : A -> bool) (x : A) (l : list A) :
  In x l -> f x = true -> 1 <= Z.of_nat (List.length (filter f l)).
Proof.
  intros Hin Hx. assert (H : In x (filter f l)) by (apply filter_In; auto).
  destruct (filter f l); [contradiction | cbn [List.length]; lia].
Qed.

Lemma override_dark_mode (b : bucket) :
  override "add dark mode toggle to user preferences" b = b.
Proof. vm_compute. reflexivity. Qed.

(** With a positive score of the first bucket, one of the first two is
    selected exactly when no bucket scores more than both. *)
Lemma first_two_highest (f : bucket -> Z) :
  0 < f B_XS ->
  let best :=
    snd (fold_left (fun st b => if fst st <? f b then (f b, b) else st)
           [B_XS; B_S; B_M; B_L; B_XL] (0, B_M)) in
  best = B_XS \/ best = B_S <-> forall b, f b <= Z.max (f B_XS) (f B_S).
Proof.
  intros Hpos. destruct (first_highest f) as [_ H]. cbv zeta in *.
  destruct (H (ex_intro _ B_XS Hpos)) as [Hmax Hfirst]. clear H.
  remember (snd (fold_left (fun st b => if fst st <? f b then (f b, b) else st)
                   [B_XS; B_S; B_M; B_L; B_XL] (0, B_M))) as best eqn:Eb.
  clear Eb. split.
  - intros [E | E] b; specialize (Hmax b); rewrite E in Hmax; lia.
  - intros H. pose proof (H best) as Hb.
    destruct best; auto;
      pose proof (Hfirst B_XS ltac:(cbn; lia)); pose proof (Hfirst B_S ltac:(cbn; lia)); lia.
Qed.

(** The title of the specification's example earns the first bucket 25
    points; which bucket is selected depends on the other texts. *)
Lemma dark_mode_title (body : string) (comps : list string) :
  let title := "add dark mode toggle to user preferences" in
  let points := fun b => bucket_score title body comps (indicators_of b) in
  let size := override title (snd (inferred title body comps)) in
  25 <= points B_XS
  /\ (size = B_XS \/ size = B_S <-> forall b, points b <= Z.max (points B_XS) (points B_S)).
Proof.
  cbv zeta.
  assert (H25 : 25 <= bucket_score "add dark mode toggle to user preferences" body comps
                       (indicators_of B_XS)).
  { unfold bucket_score, keywordMatches, patternMatches.
    pose proof (filter_hit
                  (fun keyword => includes keyword "add dark mode toggle to user preferences"
                                  || includes keyword body)
                  "toggle" (keywords (indicators_of B_XS))
                  ltac:(cbn; tauto) eq_refl) as Hk.
    pose proof (filter_hit
                  (fun pattern => regex_test pattern "add dark mode toggle to user preferences"
                                  || regex_test pattern body)
                  (DotStar "add" "toggle") (patterns (indicators_of B_XS))
                  ltac:(cbn; tauto) eq_refl) as Hp.
    lia. }
  split; [exact H25|].
  rewrite override_dark_mode, inferred_fold.
  apply (first_two_highest
           (fun b => bucket_score "add dark mode toggle to user preferences" body comps
                       (indicators_of b))).
  lia.
Qed.

(** C9 (amended): each bucket scores 10 for every keyword of the bucket
    that occurs in the lower-cased title or description, 15 for every
    pattern [a.*b] of the bucket that is found in one of them, and 5 for every
    component whose lower-cased name contains a keyword of the bucket.
    The first bucket of highest score in the order XS, S, M, L, XL is
    selected, "M" when no bucket scores above zero. The override rules, which
    read the title only, then replace it: "S" for security or compliance,
    else "XS" for a minor or small bug or fix, else "M" for a critical or
    major one. The title "Add dark mode toggle to user preferences" earns
    "XS" 25 points and triggers no override: such a ticket is classified "XS"
    or "S" exactly when no bucket scores more than both of them, and "XS"
    when it has neither description nor components. *)
Theorem estimateEffort_buckets (i : issue) :
  let title := toLowerCase (text_of (field summary i)) in
  let body := toLowerCase (text_of (field description i)) in
  let comps := map toLowerCase (list_of (field components i)) in
  let points := fun b => bucket_score title body comps (indicators_of b) in
  let best := snd (inferred title body comps) in
  let size := effort_size (estimateEffort i) in
  let security := occurs "security" title \/ occurs "compliance" title in
  let repair := occurs "bug" title \/ occurs "fix" title in
  let minor := occurs "minor" title \/ occurs "small" title in
  let critical := occurs "critical" title \/ occurs "major" title in
  (forall b, exists k p c,
      hits (fun word => occurs word title \/ occurs word body) (keywords (indicators_of b)) k
      /\ hits (fun pattern => pattern_found pattern title \/ pattern_found pattern body)
           (patterns (indicators_of b)) p
      /\ hits (fun comp => exists word, In word (keywords (indicators_of b)) /\ occurs word comp)
           comps c
      /\ points b = 10 * k + 15 * p + 5 * c)
  /\ ((forall b, points b <= 0) -> best = B_M)
  /\ ((exists b, 0 < points b) ->
      (forall b, points b <= points best)
      /\ (forall b, (bucket_rank b < bucket_rank best)%nat -> points b < points best))
  /\ (security -> size = B_S)
  /\ (~ security -> repair -> minor -> size = B_XS)
  /\ (~ security -> repair -> ~ minor -> critical -> size = B_M)
  /\ (~ security -> ~ (repair /\ (minor \/ critical)) -> size = best)
  /\ effort_score (estimateEffort i)
     = match size with
       | B_XS => 100 | B_S => 80 | B_M => 60 | B_L => 40 | B_XL => 20
       end
  /\ (title = "add dark mode toggle to user preferences" ->
      25 <= points B_XS
      /\ (size = B_XS \/ size = B_S <-> forall b, points b <= Z.max (points B_XS) (points B_S))
      /\ (field description i = None -> field components i = None -> size = B_XS))
  /\ effort_size (estimateEffort ticket_dark_mode) = B_XS.
Proof.
  cbv zeta. unfold estimateEffort. cbn [effort_size effort_score].
  split; [|split; [|split; [|split; [|split; [|split; [|split; [|split; [|split]]]]]]]].
  - intros b. apply bucket_score_hits.
  - rewrite inferred_fold. apply (first_highest (fun b => bucket_score _ _ _ (indicators_of b))).
  - rewrite inferred_fold. apply (first_highest (fun b => bucket_score _ _ _ (indicators_of b))).
  - apply override_occurs.
  - apply override_occurs.
  - apply override_occurs.
  - apply override_occurs.
  - match goal with |- context [override ?t ?b] => destruct (override t b) end; reflexivity.
  - intros Ht. rewrite Ht.
    destruct (dark_mode_title (toLowerCase (text_of (field description i)))
                (map toLowerCase (list_of (field components i)))) as [H25 Hiff].
    cbv zeta in H25, Hiff.
    split; [exact H25 | split; [exact Hiff|]].
    intros Hd Hc. rewrite Hd, Hc. vm_compute. reflexivity.
  - vm_compute. reflexivity.
Qed.

Lemma estimateEffort_buckets_witness :
  let i := ticket_dark_mode_large in
  let title := toLowerCase (text_of (field summary i)) in
  let body := toLowerCase (text_of (field description i)) in
  let comps := map toLowerCase (list_of (field components i)) in
  let points := fun b => bucket_score title body comps (indicators_of b) in
  (forall b, points b <= points (snd (inferred title body comps)))
  /\ (effort_size (estimateEffort i) = B_XS \/ effort_size (estimateEffort i) = B_S
      <-> forall b, points b <= Z.max (points B_XS) (points B_S)).
Proof.
  destruct (estimateEffort_buckets ticket_dark_mode_large)
    as [_ [_ [Hbest [_ [_ [_ [_ [_ [Htitle _]]]]]]]]].
  cbv zeta in *. split.
  - apply Hbest. exists B_L. vm_compute. reflexivity.
  - apply Htitle. vm_compute. reflexivity.
Defined.

(** C9 as stated fails: the title does not decide the bucket. The ticket of
    that title whose description names a large migration of the platform
    architecture is classified "L". *)
Lemma estimateEffort_title_not_decisive :
  ~ (forall i : issue,
        field summary i = Some "Add dark mode toggle to user preferences" ->
        effort_size (estimateEffort i) = B_XS \/ effort_size (estimateEffort i) = B_S).
Proof.
  intros C. destruct (C ticket_dark_mode_large eq_refl) as [H | H];
    vm_compute in H; discriminate H.
Qed.

(** ** The round trip through a fenced block *)

(** ** Strings: first occurrences and trimming *)

Lemma append_assoc (a b c : string) :
  String.append (String.append a b) c = String.append a (String.append b c).
Proof. induction a as [|x a IH]; simpl; [reflexivity | now rewrite IH]. Qed.

Lemma prefix_append (p r : string) : String.prefix p (String.append p r) = true.
Proof.
  induction p as [|c p IH]; simpl; [destruct r; reflexivity|].
  destruct (ascii_dec c c); [exact IH | contradiction].
Qed.

Lemma prefix_nil_r (p : string) : p <> EmptyString -> String.prefix p EmptyString = false.
Proof. destruct p; [contradiction | reflexivity]. Qed.

Lemma drop_append (p r : string) : drop (String.length p) (String.append p r) = r.
Proof. induction p as [|c p IH]; simpl; [destruct r; reflexivity | exact IH]. Qed.

Lemma includes_tail (sub : string) (c : ascii) (s : string) :
  includes sub (String c s) = false ->
  String.prefix sub (String c s) = false /\ includes sub s = false.
Proof.
  cbn [includes]. destruct (String.prefix sub (String c s)); [discriminate | auto].
Qed.

Lemma includes_append (sub a b : string) :
  includes sub (String.append a (String.append sub b)) = true.
Proof.
  induction a as [|c a IH].
  - cbn [String.append]. destruct (String.append sub b) eqn:E; cbn [includes];
      rewrite <- E, prefix_append; reflexivity.
  - cbn [String.append includes]. rewrite IH. destruct (String.prefix _ _); reflexivity.
Qed.

Lemma before_absent (sep x r : string) :
  absent_before sep x (String.append sep r) ->
  before sep (String.append x (String.append sep r)) = x.
Proof.
  induction x as [|c x IH]; cbn [absent_before String.append].
  - intros _. destruct (String.append sep r) eqn:E; cbn [before];
      rewrite <- E, prefix_append; reflexivity.
  - intros [H1 H2]. cbn [before]. cbn [String.append] in H1. rewrite H1, (IH H2). reflexivity.
Qed.

Lemma after_absent (sep x r : string) :
  absent_before sep x (String.append sep r) ->
  after sep (String.append x (String.append sep r)) = Some r.
Proof.
  induction x as [|c x IH]; cbn [absent_before String.append].
  - intros _. destruct (String.append sep r) eqn:E; cbn [after];
      rewrite <- E, prefix_append, drop_append; reflexivity.
  - intros [H1 H2]. cbn [after]. cbn [String.append] in H1. rewrite H1. exact (IH H2).
Qed.

Lemma split_first (sep s : string) : nth_error (split sep s) 0 = Some (before sep s).
Proof. unfold split. destruct (String.length s); reflexivity. Qed.

Lemma split_second (sep s r : string) :
  sep <> EmptyString -> after sep s = Some r ->
  nth_error (split sep s) 1 = Some (before sep r).
Proof.
  intros Hsep H. unfold split. destruct s as [|c s].
  - cbn [after] in H. rewrite (prefix_nil_r sep Hsep) in H. discriminate.
  - cbn [String.length split_pieces]. rewrite H.
    cbn [nth_error]. destruct (String.length s); reflexivity.
Qed.

Ltac split_chars :=
  repeat match goal with
         | H : context [ascii_dec ?a ?b] |- _ => destruct (ascii_dec a b); [subst | idtac]
         | |- context [ascii_dec ?a ?b] => destruct (ascii_dec a b); [subst | idtac]
         end;
  try reflexivity; try discriminate; try congruence;
  try match goal with
      | H : String.prefix EmptyString ?x = false |- _ => destruct x; discriminate
      end.

(** An occurrence of the opening fence cannot begin in the prose and end in
    the fence itself. *)
Lemma no_straddle_json (x r : string) :
  x <> EmptyString -> String.prefix "```json" x = false ->
  String.prefix "```json" (String.append x (String.append "```json" r)) = false.
Proof.
  intros Hx H.
  destruct x as [|c1 [|c2 [|c3 [|c4 [|c5 [|c6 [|c7 x]]]]]]]; [contradiction | ..];
    cbn [String.append String.prefix] in *; split_chars.
Qed.

Lemma absent_before_json (pre r : string) :
  includes "```json" pre = false ->
  absent_before "```json" pre (String.append "```json" r).
Proof.
  induction pre as [|c pre IH]; intros H; cbn [absent_before]; [exact I|].
  destruct (includes_tail _ _ _ H) as [H1 H2]. split; [|exact (IH H2)].
  apply no_straddle_json; [discriminate | exact H1].
Qed.

(** Nor can an occurrence of the closing fence begin in a body that is
    followed by a line break. *)
Lemma no_straddle_fence (x r : string) :
  x <> EmptyString -> String.prefix "```" x = false ->
  String.prefix "```" (String.append x (String.append newline r)) = false.
Proof.
  intros Hx H.
  destruct x as [|c1 [|c2 [|c3 x]]]; [contradiction | ..];
    cbn [String.append String.prefix newline] in *; split_chars.
Qed.

Lemma absent_before_fence (body r : string) :
  includes "```" body = false ->
  absent_before "```" (String.append newline (String.append body newline)) r.
Proof.
  intros H. cbn [newline String.append absent_before]. split; [reflexivity|].
  induction body as [|c body IH]; cbn [absent_before String.append].
  - split; [reflexivity | exact I].
  - destruct (includes_tail _ _ _ H) as [H1 H2]. split; [|exact (IH H2)].
    change (String c (String.append (String.append body newline) r))
      with (String.append (String.append (String c body) newline) r).
    rewrite append_assoc. apply no_straddle_fence; [discriminate | exact H1].
Qed.

Lemma prefix_before (sep p s : string) :
  String.prefix p (before sep s) = true -> String.prefix p s = true.
Proof.
  revert p. induction s as [|c s IH]; intros p.
  - cbn [before]. destruct (String.prefix sep EmptyString); auto.
  - cbn [before]. destruct (String.prefix sep (String c s)).
    + destruct p; [reflexivity | discriminate].
    + destruct p as [|d p]; [reflexivity|]. cbn [String.prefix].
      destruct (ascii_dec d c); [apply IH | auto].
Qed.

Lemma prefix_false_before (sep p s : string) :
  String.prefix p s = false -> String.prefix p (before sep s) = false.
Proof.
  intros H. destruct (String.prefix p (before sep s)) eqn:E; [|reflexivity].
  rewrite (prefix_before _ _ _ E) in H. discriminate.
Qed.

Lemma prefix_fence_of_json (s : string) :
  String.prefix "```" s = false -> String.prefix "```json" s = false.
Proof.
  intros H. destruct s as [|c1 [|c2 [|c3 s]]]; cbn [String.prefix] in *; split_chars.
Qed.

(** The piece before the next opening fence still ends at the closing
    fence, unless that is followed by the rest of an opening fence. *)
Lemma before_fence_before_json (x post : string) :
  absent_before "```" x (String.append "```" post) ->
  String.prefix "`json" post = false -> String.prefix "``json" post = false ->
  before "```" (before "```json" (String.append x (String.append "```" post))) = x.
Proof.
  intros H P1 P2. induction x as [|c x IH]; cbn [absent_before String.append] in *.
  - destruct (String.prefix "```json" (String "`" (String "`" (String "`" post)))) eqn:E.
    + cbn [before]. rewrite E. reflexivity.
    + cbn [before]. rewrite E.
      assert (E1 : String.prefix "```json" (String "`" (String "`" post)) = false).
      { destruct post as [|c1 [|c2 [|c3 [|c4 [|c5 post]]]]];
          cbn [String.prefix] in *; split_chars. }
      assert (E2 : String.prefix "```json" (String "`" post) = false).
      { destruct post as [|c1 [|c2 [|c3 [|c4 [|c5 [|c6 post]]]]]];
          cbn [String.prefix] in *; split_chars. }
      rewrite E1, E2.
      pose proof (prefix_append "```" (before "```json" post)) as E3.
      cbn [String.append] in E3. cbn [before]. rewrite E3. reflexivity.
  - destruct H as [H1 H2].
    pose proof (prefix_false_before "```json" _ _ H1) as E.
    cbn [before] in E |- *. rewrite (prefix_fence_of_json _ H1) in E |- *.
    cbn [before]. rewrite E, (IH H2). reflexivity.
Qed.

(** The method chain of the parser on a fenced serialization. *)
Lemma extract_fenced_json (pre body post : string) :
  includes "```json" pre = false -> includes "```" body = false ->
  String.prefix "`json" post = false -> String.prefix "``json" post = false ->
  extract (fenced_json pre body post)
  = Some (String.append newline (String.append body newline)).
Proof.
  intros Hpre Hbody P1 P2. unfold extract, fenced_json.
  rewrite includes_append. unfold fenced.
  rewrite (split_second "```json" _
             (String.append newline
                (String.append body (String.append newline (String.append "```" post)))));
    [| discriminate | apply after_absent, absent_before_json, Hpre].
  rewrite split_first. f_equal.
  rewrite <- (append_assoc body), <- (append_assoc newline).
  apply before_fence_before_json; [apply absent_before_fence, Hbody | exact P1 | exact P2].
Qed.

Lemma trimEnd_keep (x : string) (d : ascii) :
  is_space d = false ->
  trimEnd (String.append x (String d EmptyString)) = String.append x (String d EmptyString).
Proof.
  intros Hd. induction x as [|c x IH]; cbn [String.append trimEnd].
  - rewrite Hd. reflexivity.
  - rewrite IH. destruct x; reflexivity.
Qed.

Lemma trimEnd_space (x : string) (d : ascii) :
  is_space d = true -> trimEnd (String.append x (String d EmptyString)) = trimEnd x.
Proof.
  intros Hd. induction x as [|c x IH]; cbn [String.append trimEnd].
  - rewrite Hd. reflexivity.
  - rewrite IH. reflexivity.
Qed.

(** A text between an opening and a closing brace is untouched by [trim],
    also when line breaks surround it. *)
Lemma trim_braces (x : string) :
  trim (String.append newline
          (String.append (String "{" (String.append x "}")) newline))
  = String "{" (String.append x "}").
Proof.
  unfold trim, newline. cbn [String.append trimStart].
  change (is_space "010") with true. cbv iota.
  change (is_space "{") with false. cbv iota.
  change (String "{" (String.append (String.append x "}") (String "010" EmptyString)))
    with (String.append (String "{" (String.append x "}")) (String "010" EmptyString)).
  rewrite trimEnd_space by reflexivity.
  change (String "{" (String.append x "}")) with (String.append (String "{" x) "}").
  apply trimEnd_keep. reflexivity.
Qed.

Lemma lastIndexOf_from_last (c : ascii) (y : string) (i found : Z) :
  lastIndexOf_from c i (String.append y (String c EmptyString)) found
  = i + Z.of_nat (String.length y).
Proof.
  revert i found. induction y as [|d y IH]; intros i found;
    cbn [String.append lastIndexOf_from String.length].
  - rewrite Ascii.eqb_refl. lia.
  - rewrite IH. lia.
Qed.

Lemma substring_all (s : string) : String.substring 0 (String.length s) s = s.
Proof. induction s as [|c s IH]; simpl; [reflexivity | rewrite IH; reflexivity]. Qed.

Lemma length_append (a b : string) :
  String.length (String.append a b) = (String.length a + String.length b)%nat.
Proof. induction a as [|c a IH]; simpl; [reflexivity | rewrite IH; reflexivity]. Qed.

(** A text that ends with a closing brace is left as it is: the cut, when
    one is made, falls after its last character. *)
Lemma repair_closed (y : string) :
  repair (String.append y "}") = String.append y "}".
Proof.
  unfold repair.
  destruct (count_char "}" _ <? count_char "{" _); [|reflexivity].
  destruct (0 <? _); [|reflexivity].
  destruct (matching_brace _ _ _); [|reflexivity].
  unfold lastIndexOf, substring0. rewrite lastIndexOf_from_last.
  replace (Z.to_nat (0 + Z.of_nat (String.length y) + 1))
    with (String.length (String.append y "}"))
    by (rewrite length_append; cbn [String.length]; lia).
  apply substring_all.
Qed.

(** Validation returns an object that has all it asks for as it is. *)
Lemma validate_complete (v : json) :
  v <> JNull ->
  truthy_opt (get v "scores") = true ->
  truthy_opt (get v "priority_recommendation") = true ->
  (forall scores, get v "scores" = Some scores ->
     truthy_opt (get scores "overall_priority") = true) ->
  validate v = Some v.
Proof.
  intros Hv Hs Hr Ho. unfold validate. rewrite Hs, Hr. cbn [negb orb].
  destruct (get v "scores") as [scores|] eqn:E; [|discriminate].
  rewrite (Ho scores eq_refl). cbn [negb].
  destruct v; try reflexivity. contradiction.
Qed.

Lemma stringify_braces (ps : list (string * json)) :
  exists y, JSON_stringify (JObj ps) = String "{" (String.append y "}").
Proof. eexists. cbn [JSON_stringify String.append]. reflexivity. Qed.

(** C6 (amended): the round trip holds for an object that [JSON.parse] reads
    back from its serialization, whose [scores], [priority_recommendation]
    and [scores.overall_priority] are truthy, whose serialization contains
    no fence, wrapped between prose that has no opening fence before the
    block and does not continue the closing fence into an opening one. *)
Theorem parseAIResponse_round_trip (ps : list (string * json)) (pre post : string) :
  let v := JObj ps in
  let body := JSON_stringify v in
  JSON_parse body = Some v ->
  complete_analysis v ->
  includes "```" body = false ->
  includes "```json" pre = false ->
  String.prefix "`json" post = false -> String.prefix "``json" post = false ->
  TriageJs.parseAIResponse (fenced_json pre body post) = Some v
  /\ Part001.parseAIResponse (fenced_json pre body post) = Some v.
Proof.
  intros v body Hparse [Hs [Hr Ho]] Hbody Hpre P1 P2.
  assert (Hv : validate v = Some v) by (apply validate_complete; [discriminate | assumption ..]).
  destruct (stringify_braces ps) as [y Hy]. fold v in Hy. fold body in Hy.
  unfold TriageJs.parseAIResponse, TriageJs.extracted_json,
    Part001.parseAIResponse, Part001.extracted_json.
  rewrite (extract_fenced_json pre body post Hpre Hbody P1 P2).
  rewrite Hy, trim_braces.
  change (String "{" (String.append y "}")) with (String.append (String "{" y) "}") at 2.
  rewrite repair_closed. cbn [String.append].
  rewrite <- Hy, Hparse. split; exact Hv.
Qed.

Lemma parseAIResponse_round_trip_witness :
  TriageJs.parseAIResponse
    (fenced_json "Here is the analysis: " (JSON_stringify analysis_1) " Let me know.")
  = Some analysis_1
  /\ Part001.parseAIResponse
       (fenced_json "Here is the analysis: " (JSON_stringify analysis_1) " Let me know.")
     = Some analysis_1.
Proof.
  assert (H1 : JSON_parse (JSON_stringify analysis_1) = Some analysis_1)
    by (vm_compute; reflexivity).
  assert (H2 : complete_analysis analysis_1).
  { split; [reflexivity | split; [reflexivity |]].
    intros scores E. cbv in E. injection E as <-. vm_compute. reflexivity. }
  assert (H3 : includes "```" (JSON_stringify analysis_1) = false) by (vm_compute; reflexivity).
  assert (H4 : includes "```json" "Here is the analysis: " = false) by (vm_compute; reflexivity).
  assert (H5 : String.prefix "`json" " Let me know." = false) by reflexivity.
  assert (H6 : String.prefix "``json" " Let me know." = false) by reflexivity.
  exact (parseAIResponse_round_trip _ _ _ H1 H2 H3 H4 H5 H6).
Defined.

(** C6 as stated fails: an overall priority of 0 that the object contains is
    replaced by the calculator's value, here 82. *)
Lemma parseAIResponse_round_trip_zero_priority :
  ~ (forall (ps : list (string * json)) (pre post : string),
        let v := JObj ps in
        JSON_parse (JSON_stringify v) = Some v ->
        (exists scores p, get v "scores" = Some scores
                          /\ get scores "overall_priority" = Some p) ->
        (exists r, get v "priority_recommendation" = Some r) ->
        TriageJs.parseAIResponse (fenced_json pre (JSON_stringify v) post) = Some v).
Proof.
  intros H.
  assert (E : TriageJs.parseAIResponse
                (fenced_json EmptyString (JSON_stringify analysis_0) EmptyString)
              = Some analysis_0).
  { apply (H _ EmptyString EmptyString).
    - vm_compute. reflexivity.
    - eexists. eexists. split; reflexivity.
    - eexists. reflexivity. }
  apply (f_equal overall_priority_is_zero) in E. vm_compute in E. discriminate.
Qed.

(** ** A text that is cut short *)

Lemma skip_ws_app (s : string) (c : ascii) (r x : string) :
  skip_ws s = String c r -> skip_ws (String.append s x) = String c (String.append r x).
Proof.
  induction s as [|d s IH]; cbn [skip_ws String.append]; [discriminate|].
  destruct (is_json_space d); [exact IH|].
  intros E. injection E as -> ->. reflexivity.
Qed.

Lemma skip_ws_idem (s : string) : skip_ws (skip_ws s) = skip_ws s.
Proof.
  induction s as [|d s IH]; cbn [skip_ws]; [reflexivity|].
  destruct (is_json_space d) eqn:E; [exact IH|]. cbn [skip_ws]. rewrite E. reflexivity.
Qed.

Lemma scan_digits_app (s : string) (acc cnt v k : Z) (r x : string) :
  scan_digits acc cnt s = (v, k, r) -> r <> EmptyString ->
  scan_digits acc cnt (String.append s x) = (v, k, String.append r x).
Proof.
  revert acc cnt. induction s as [|c s IH]; intros acc cnt; cbn [scan_digits String.append].
  - intros E Hr. injection E as _ _ <-. contradiction.
  - destruct (is_digit c); [apply IH|].
    intros E _. injection E as <- <- <-. reflexivity.
Qed.

(** The branches of the scanners that match on one character. *)
Lemma scan_fraction_point (need : bool) (ip : Z) (r : string) :
  scan_fraction need ip (String "." r)
  = let '(fp, fc, r1) := scan_digits 0 0 r in
    if need && (fc =? 0) then None else Some (ip * 10 ^ fc + fp, fc, r1).
Proof. reflexivity. Qed.

Lemma scan_fraction_other (need : bool) (ip : Z) (c : ascii) (r : string) :
  c <> "."%char -> scan_fraction need ip (String c r) = Some (ip, 0, String c r).
Proof.
  intros H. destruct c as [[] [] [] [] [] [] [] []]; try reflexivity. contradiction.
Qed.

Lemma scan_fraction_app (need : bool) (ip : Z) (s : string) (m fc : Z) (r x : string) :
  scan_fraction need ip s = Some (m, fc, r) -> r <> EmptyString ->
  scan_fraction need ip (String.append s x) = Some (m, fc, String.append r x).
Proof.
  destruct s as [|c s].
  - cbn. intros E Hr. injection E as _ _ <-. contradiction.
  - cbn [String.append]. destruct (ascii_dec c ".") as [-> | Hc].
    + rewrite !scan_fraction_point.
      destruct (scan_digits 0 0 s) as [[fp fc'] r1] eqn:E.
      destruct (need && (fc' =? 0)) eqn:En; [discriminate|].
      intros E1 Hr. injection E1 as <- <- <-.
      rewrite (scan_digits_app _ _ _ _ _ _ x E Hr), En. reflexivity.
    + rewrite !scan_fraction_other by exact Hc.
      intros E _. injection E as <- <- <-. reflexivity.
Qed.

Lemma scan_exponent_eq (s : string) :
  scan_exponent s
  = match s with
    | String c r =>
        if Ascii.eqb c "e" || Ascii.eqb c "E" then
          let '(v, cnt, r2) := scan_digits 0 0 (snd (exponent_sign r)) in
          if cnt =? 0 then None
          else Some (if fst (exponent_sign r) then - v else v, r2)
        else Some (0, s)
    | EmptyString => Some (0, s)
    end.
Proof.
  destruct s as [|c r]; [reflexivity|]. unfold scan_exponent, exponent_sign.
  destruct (Ascii.eqb c "e" || Ascii.eqb c "E"); [|reflexivity].
  destruct r as [|[[] [] [] [] [] [] [] []] r']; reflexivity.
Qed.

Lemma exponent_sign_app (r x : string) :
  snd (exponent_sign r) <> EmptyString ->
  exponent_sign (String.append r x)
  = (fst (exponent_sign r), String.append (snd (exponent_sign r)) x).
Proof.
  destruct r as [|[[] [] [] [] [] [] [] []] r']; cbn; try reflexivity.
  intros H. contradiction.
Qed.

Lemma scan_digits_rest_nonempty (s : string) (acc cnt v k : Z) (r : string) :
  scan_digits acc cnt s = (v, k, r) -> r <> EmptyString -> s <> EmptyString.
Proof.
  intros E Hr ->. cbn in E. injection E as _ _ <-. contradiction.
Qed.

Lemma scan_exponent_app (s : string) (e : Z) (r x : string) :
  scan_exponent s = Some (e, r) -> r <> EmptyString ->
  scan_exponent (String.append s x) = Some (e, String.append r x).
Proof.
  rewrite !scan_exponent_eq. destruct s as [|c s].
  - intros E Hr. injection E as _ <-. contradiction.
  - cbn [String.append]. destruct (Ascii.eqb c "e" || Ascii.eqb c "E").
    + destruct (scan_digits 0 0 (snd (exponent_sign s))) as [[v cnt] r2] eqn:E.
      destruct (cnt =? 0) eqn:Ec; [discriminate|].
      intros E1 Hr. injection E1 as <- <-.
      rewrite exponent_sign_app by exact (scan_digits_rest_nonempty _ _ _ _ _ _ E Hr).
      cbn [fst snd]. rewrite (scan_digits_app _ _ _ _ _ _ x E Hr), Ec. reflexivity.
    + intros E _. injection E as <- <-. reflexivity.
Qed.

Lemma parse_number_eq (s : string) :
  parse_number s
  = match snd (number_sign s) with
    | String c r =>
        if is_digit c then
          let '(ip, _, s2) :=
            if Ascii.eqb c "0" then (0, 1, r) else scan_digits 0 0 (snd (number_sign s)) in
          match scan_fraction true ip s2 with
          | None => None
          | Some (mant, fc, s3) =>
              match scan_exponent s3 with
              | None => None
              | Some (ex, s4) =>
                  Some (decimal_to_float (fst (number_sign s)) mant (ex - fc), s4)
              end
          end
        else None
    | EmptyString => None
    end.
Proof.
  destruct s as [|[[] [] [] [] [] [] [] []] r]; reflexivity.
Qed.

Lemma number_sign_other (c : ascii) (r : string) :
  c <> "-"%char -> number_sign (String c r) = (false, String c r).
Proof.
  intros H. destruct c as [[] [] [] [] [] [] [] []]; try reflexivity. contradiction.
Qed.

Lemma number_sign_app (s x : string) :
  snd (number_sign s) <> EmptyString ->
  number_sign (String.append s x)
  = (fst (number_sign s), String.append (snd (number_sign s)) x).
Proof.
  destruct s as [|c r]; [intros H; contradiction|].
  destruct (ascii_dec c "-") as [-> | Hc]; [reflexivity|].
  cbn [String.append]. rewrite !number_sign_other by exact Hc. reflexivity.
Qed.

Lemma scan_fraction_rest_nonempty (need : bool) (ip : Z) (s : string) (m fc : Z) (r : string) :
  scan_fraction need ip s = Some (m, fc, r) -> r <> EmptyString -> s <> EmptyString.
Proof.
  intros E Hr ->. cbn in E. injection E as _ _ <-. contradiction.
Qed.

Lemma scan_exponent_rest_nonempty (s : string) (e : Z) (r : string) :
  scan_exponent s = Some (e, r) -> r <> EmptyString -> s <> EmptyString.
Proof.
  intros E Hr ->. cbn in E. injection E as _ <-. contradiction.
Qed.

(** A number that is followed by a character is read the same whatever
    comes after that character. *)
Lemma parse_number_app (s : string) (v : float) (r x : string) :
  parse_number s = Some (v, r) -> r <> EmptyString ->
  parse_number (String.append s x) = Some (v, String.append r x).
Proof.
  rewrite !parse_number_eq. intros E Hr.
  destruct (snd (number_sign s)) as [|c r0] eqn:Es; [discriminate|].
  rewrite number_sign_app by (rewrite Es; discriminate).
  rewrite Es. cbn [fst snd String.append].
  destruct (is_digit c); [|discriminate].
  destruct (if Ascii.eqb c "0" then (0, 1, r0) else scan_digits 0 0 (String c r0))
    as [[ip n] s2] eqn:Ei.
  destruct (scan_fraction true ip s2) as [[[mant fc] s3]|] eqn:Ef; [|discriminate].
  destruct (scan_exponent s3) as [[ex s4]|] eqn:Ee; [|discriminate].
  injection E as <- <-.
  pose proof (scan_exponent_rest_nonempty _ _ _ Ee Hr) as H3.
  pose proof (scan_fraction_rest_nonempty _ _ _ _ _ _ Ef H3) as H2.
  assert (Ei' : (if Ascii.eqb c "0" then (0, 1, String.append r0 x)
                 else scan_digits 0 0 (String c (String.append r0 x)))
                = (ip, n, String.append s2 x)).
  { destruct (Ascii.eqb c "0").
    - injection Ei as <- <- <-. reflexivity.
    - exact (scan_digits_app (String c r0) _ _ _ _ _ x Ei H2). }
  rewrite Ei'.
  rewrite (scan_fraction_app _ _ _ _ _ _ x Ef H3).
  rewrite (scan_exponent_app _ _ _ x Ee Hr). reflexivity.
Qed.

(** *** Texts that end with a closing brace *)











Lemma parse_number_first (c : ascii) (r : string) (v : float) (rest : string) :
  parse_number (String c r) = Some (v, rest) -> is_digit c = true \/ c = "-"%char.
Proof.
  destruct (ascii_dec c "-") as [-> | Hc]; [right; reflexivity|].
  rewrite parse_number_eq, number_sign_other by exact Hc. cbn [fst snd].
  destruct (is_digit c); [left; reflexivity | discriminate].
Qed.

(** *** The parser on a longer text *)

Lemma parse_string_body_app (s t r x : string) :
  parse_string_body s = Some (t, r) ->
  parse_string_body (String.append s x) = Some (t, String.append r x).
Proof.
  remember (String.length s) as n eqn:Hn.
  assert (Hle : (String.length s <= n)%nat) by lia. clear Hn.
  revert s t r Hle. induction n as [|n IH]; intros s t r Hle.
  - destruct s; [discriminate | cbn in Hle; lia].
  - destruct s as [|c r0]; [discriminate|].
    cbn [String.length] in Hle. cbn [parse_string_body String.append].
    destruct (Ascii.eqb c dquote).
    { intros E. injection E as <- <-. reflexivity. }
    destruct (Ascii.eqb c backslash).
    + destruct r0 as [|e r1]; [discriminate|].
      cbn [String.length] in Hle. cbn [String.append].
      destruct (unescape e).
      * destruct (parse_string_body r1) as [[t' rest]|] eqn:E; [|discriminate].
        intros E1. injection E1 as <- <-.
        rewrite (IH r1 _ _ ltac:(lia) E). reflexivity.
      * destruct (Ascii.eqb e "u"); [|discriminate].
        destruct r1 as [|h1 [|h2 [|h3 [|h4 r2]]]]; try discriminate.
        cbn [String.length] in Hle. cbn [String.append].
        destruct (hex4 h1 h2 h3 h4) as [code|]; [|discriminate].
        destruct (code <? 256); [|discriminate].
        destruct (parse_string_body r2) as [[t' rest]|] eqn:E; [|discriminate].
        intros E1. injection E1 as <- <-.
        rewrite (IH r2 _ _ ltac:(lia) E). reflexivity.
    + destruct (nat_of_ascii c <? 32)%nat; [discriminate|].
      destruct (parse_string_body r0) as [[t' rest]|] eqn:E; [|discriminate].
      intros E1. injection E1 as <- <-.
      rewrite (IH r0 _ _ ltac:(lia) E). reflexivity.
Qed.

Lemma parse_value_eq (f : nat) (s : string) :
  parse_value (S f) s
  = match skip_ws s with
    | EmptyString => None
    | String c r as t =>
        if Ascii.eqb c "{" then
          match skip_ws r with
          | EmptyString => None
          | String c2 r2 as t2 =>
              if Ascii.eqb c2 "}" then Some (JObj [], r2)
              else match parse_members f t2 with
                   | Some (ms, rest) => Some (object_of ms, rest)
                   | None => None
                   end
          end
        else if Ascii.eqb c "[" then
          match skip_ws r with
          | EmptyString => None
          | String c2 r2 as t2 =>
              if Ascii.eqb c2 "]" then Some (JArr [] [], r2)
              else match parse_elements f t2 with
                   | Some (es, rest) => Some (JArr es [], rest)
                   | None => None
                   end
          end
        else if Ascii.eqb c dquote then
          match parse_string_body r with
          | Some (str, rest) => Some (JStr str, rest)
          | None => None
          end
        else scalar t
    end.
Proof. reflexivity. Qed.

Lemma parse_members_eq (f : nat) (s : string) :
  parse_members (S f) s
  = match skip_ws s with
    | EmptyString => None
    | String c r =>
        if Ascii.eqb c dquote then
          match parse_string_body r with
          | None => None
          | Some (k, r1) =>
              match skip_ws r1 with
              | EmptyString => None
              | String c1 r2 =>
                  if Ascii.eqb c1 ":" then
                    match parse_value f r2 with
                    | None => None
                    | Some (v, r3) =>
                        match skip_ws r3 with
                        | EmptyString => None
                        | String c3 r4 =>
                            if Ascii.eqb c3 "," then
                              match parse_members f r4 with
                              | Some (ms, r5) => Some ((k, v) :: ms, r5)
                              | None => None
                              end
                            else if Ascii.eqb c3 "}" then Some ([(k, v)], r4)
                            else None
                        end
                    end
                  else None
              end
          end
        else None
    end.
Proof. reflexivity. Qed.

Lemma parse_elements_eq (f : nat) (s : string) :
  parse_elements (S f) s
  = match parse_value f s with
    | None => None
    | Some (v, r1) =>
        match skip_ws r1 with
        | EmptyString => None
        | String c r2 =>
            if Ascii.eqb c "," then
              match parse_elements f r2 with
              | Some (es, r3) => Some (v :: es, r3)
              | None => None
              end
            else if Ascii.eqb c "]" then Some ([v], r2)
            else None
        end
    end.
Proof. reflexivity. Qed.

Lemma prefix_nil (s : string) : String.prefix EmptyString s = true.
Proof. destruct s; reflexivity. Qed.

Lemma prefix_app (p s x : string) :
  String.prefix p s = true -> String.prefix p (String.append s x) = true.
Proof.
  revert s. induction p as [|a p IH]; intros s; [intros _; apply prefix_nil|].
  destruct s as [|c s]; [discriminate|]. cbn [String.prefix String.append].
  destruct (ascii_dec a c); [apply IH | discriminate].
Qed.

Lemma drop_prefix_app (p s x : string) :
  String.prefix p s = true ->
  drop (String.length p) (String.append s x) = String.append (drop (String.length p) s) x.
Proof.
  revert s. induction p as [|a p IH]; intros s; [reflexivity|].
  destruct s as [|c s]; [discriminate|]. cbn [String.prefix String.append String.length drop].
  destruct (ascii_dec a c); [apply IH | discriminate].
Qed.

Lemma prefix_first (a c : ascii) (p r : string) :
  String.prefix (String a p) (String c r) = true -> c = a.
Proof. cbn [String.prefix]. destruct (ascii_dec a c); [auto | discriminate]. Qed.

Lemma prefix_other (a c : ascii) (p r : string) :
  c <> a -> String.prefix (String a p) (String c r) = false.
Proof.
  intros H. cbn [String.prefix]. destruct (ascii_dec a c); [subst; contradiction | reflexivity].
Qed.

(** The first character of a number is a digit or the sign. *)
Lemma number_first_not (c : ascii) :
  is_digit c = true \/ c = "-"%char -> c <> "t"%char /\ c <> "f"%char /\ c <> "n"%char.
Proof.
  intros [H | ->]; repeat split; try discriminate; intros ->; discriminate H.
Qed.

Lemma scalar_number (c : ascii) (r : string) :
  is_digit c = true \/ c = "-"%char ->
  scalar (String c r)
  = match parse_number (String c r) with
    | Some (x, rest) => Some (JNum x, rest)
    | None => None
    end.
Proof.
  intros H. destruct (number_first_not c H) as [Ht [Hf Hn]]. unfold scalar.
  rewrite !prefix_other by assumption. reflexivity.
Qed.

Lemma scalar_is_num (c : ascii) (r : string) (x : float) (rest : string) :
  scalar (String c r) = Some (JNum x, rest) ->
  (is_digit c = true \/ c = "-"%char) /\ parse_number (String c r) = Some (x, rest).
Proof.
  unfold scalar.
  destruct (String.prefix "true" _); [discriminate|].
  destruct (String.prefix "false" _); [discriminate|].
  destruct (String.prefix "null" _); [discriminate|].
  destruct (parse_number (String c r)) as [[y rest']|] eqn:E; [|discriminate].
  intros E1. injection E1 as <- <-. split; [exact (parse_number_first _ _ _ _ E) | reflexivity].
Qed.

Lemma scalar_app (c : ascii) (r : string) (v : json) (rest x : string) :
  scalar (String c r) = Some (v, rest) -> (is_num v = false \/ rest <> EmptyString) ->
  scalar (String c (String.append r x)) = Some (v, String.append rest x).
Proof.
  intros E Hv. destruct v as [| b | y | | |].
  - revert E. unfold scalar.
    destruct (String.prefix "true" (String c r)); [discriminate|].
    destruct (String.prefix "false" (String c r)); [discriminate|].
    destruct (String.prefix "null" (String c r)) eqn:En.
    + intros E. injection E as <-.
      pose proof (prefix_first _ _ _ _ En) as ->.
      change (String "n" (String.append r x)) with (String.append (String "n" r) x).
      rewrite (prefix_app _ _ x En).
      change 4%nat with (String.length "null"). rewrite (drop_prefix_app _ _ x En).
      reflexivity.
    + destruct (parse_number (String c r)) as [[y rest']|]; discriminate.
  - revert E. unfold scalar.
    destruct (String.prefix "true" (String c r)) eqn:Et.
    + intros E. injection E as <- <-.
      pose proof (prefix_first _ _ _ _ Et) as ->.
      change (String "t" (String.append r x)) with (String.append (String "t" r) x).
      rewrite (prefix_app _ _ x Et).
      change 4%nat with (String.length "true"). rewrite (drop_prefix_app _ _ x Et).
      reflexivity.
    + destruct (String.prefix "false" (String c r)) eqn:Ef.
      * intros E. injection E as <- <-.
        pose proof (prefix_first _ _ _ _ Ef) as ->.
        change (String "f" (String.append r x)) with (String.append (String "f" r) x).
        rewrite (prefix_app _ _ x Ef).
        change 5%nat with (String.length "false"). rewrite (drop_prefix_app _ _ x Ef).
        reflexivity.
      * destruct (String.prefix "null" (String c r)); [discriminate|].
        destruct (parse_number (String c r)) as [[y rest']|]; discriminate.
  - destruct (scalar_is_num _ _ _ _ E) as [Hc En].
    destruct Hv as [Hv | Hv]; [discriminate Hv|].
    rewrite scalar_number by exact Hc.
    change (String c (String.append r x)) with (String.append (String c r) x).
    rewrite (parse_number_app _ _ _ x En Hv). reflexivity.
  - exfalso. revert E. unfold scalar.
    repeat (destruct (String.prefix _ _); [discriminate|]).
    destruct (parse_number (String c r)) as [[y rest']|]; discriminate.
  - exfalso. revert E. unfold scalar.
    repeat (destruct (String.prefix _ _); [discriminate|]).
    destruct (parse_number (String c r)) as [[y rest']|]; discriminate.
  - exfalso. revert E. unfold scalar.
    repeat (destruct (String.prefix _ _); [discriminate|]).
    destruct (parse_number (String c r)) as [[y rest']|]; discriminate.
Qed.

Lemma skip_ws_nonempty (r : string) (c : ascii) (r' : string) :
  skip_ws r = String c r' -> r <> EmptyString.
Proof. intros E ->. discriminate E. Qed.

(** What the parser has read does not depend on what follows, unless it is a
    number at the very end of the text. *)
Lemma parse_app (f : nat) :
  (forall s v r x,
      parse_value f s = Some (v, r) -> is_num v = false \/ r <> EmptyString ->
      parse_value f (String.append s x) = Some (v, String.append r x))
  /\ (forall s ms r x,
         parse_members f s = Some (ms, r) ->
         parse_members f (String.append s x) = Some (ms, String.append r x))
  /\ (forall s es r x,
         parse_elements f s = Some (es, r) ->
         parse_elements f (String.append s x) = Some (es, String.append r x)).
Proof.
  induction f as [|f [IHv [IHm IHe]]]; [repeat split; discriminate|].
  split; [|split].
  - intros s v r x. rewrite !parse_value_eq.
    destruct (skip_ws s) as [|c r0] eqn:Es; [discriminate|].
    rewrite (skip_ws_app _ _ _ x Es).
    destruct (Ascii.eqb c "{").
    { destruct (skip_ws r0) as [|c2 r2] eqn:E2; [discriminate|].
      rewrite (skip_ws_app _ _ _ x E2).
      destruct (Ascii.eqb c2 "}").
      - intros E _. injection E as <- <-. reflexivity.
      - destruct (parse_members f (String c2 r2)) as [[ms rest]|] eqn:Em; [|discriminate].
        intros E _. injection E as <- <-.
        change (String c2 (String.append r2 x)) with (String.append (String c2 r2) x).
        rewrite (IHm _ _ _ x Em). reflexivity. }
    destruct (Ascii.eqb c "[").
    { destruct (skip_ws r0) as [|c2 r2] eqn:E2; [discriminate|].
      rewrite (skip_ws_app _ _ _ x E2).
      destruct (Ascii.eqb c2 "]").
      - intros E _. injection E as <- <-. reflexivity.
      - destruct (parse_elements f (String c2 r2)) as [[es rest]|] eqn:Ee; [|discriminate].
        intros E _. injection E as <- <-.
        change (String c2 (String.append r2 x)) with (String.append (String c2 r2) x).
        rewrite (IHe _ _ _ x Ee). reflexivity. }
    destruct (Ascii.eqb c dquote).
    { destruct (parse_string_body r0) as [[str rest]|] eqn:Eb; [|discriminate].
      intros E _. injection E as <- <-.
      rewrite (parse_string_body_app _ _ _ x Eb). reflexivity. }
    apply scalar_app.
  - intros s ms r x. rewrite !parse_members_eq.
    destruct (skip_ws s) as [|c r0] eqn:Es; [discriminate|].
    rewrite (skip_ws_app _ _ _ x Es).
    destruct (Ascii.eqb c dquote); [|discriminate].
    destruct (parse_string_body r0) as [[k r1]|] eqn:Eb; [|discriminate].
    rewrite (parse_string_body_app _ _ _ x Eb).
    destruct (skip_ws r1) as [|c1 r2] eqn:E1; [discriminate|].
    rewrite (skip_ws_app _ _ _ x E1).
    destruct (Ascii.eqb c1 ":"); [|discriminate].
    destruct (parse_value f r2) as [[v r3]|] eqn:Ev; [|discriminate].
    destruct (skip_ws r3) as [|c3 r4] eqn:E3; [discriminate|].
    rewrite (IHv _ _ _ x Ev (or_intror (skip_ws_nonempty _ _ _ E3))).
    rewrite (skip_ws_app _ _ _ x E3).
    destruct (Ascii.eqb c3 ",").
    + destruct (parse_members f r4) as [[ms' r5]|] eqn:Em; [|discriminate].
      intros E. injection E as <- <-. rewrite (IHm _ _ _ x Em). reflexivity.
    + destruct (Ascii.eqb c3 "}"); [|discriminate].
      intros E. injection E as <- <-. reflexivity.
  - intros s es r x. rewrite !parse_elements_eq.
    destruct (parse_value f s) as [[v r1]|] eqn:Ev; [|discriminate].
    destruct (skip_ws r1) as [|c r2] eqn:E1; [discriminate|].
    rewrite (IHv _ _ _ x Ev (or_intror (skip_ws_nonempty _ _ _ E1))).
    rewrite (skip_ws_app _ _ _ x E1).
    destruct (Ascii.eqb c ",").
    + destruct (parse_elements f r2) as [[es' r3]|] eqn:Ee; [|discriminate].
      intros E. injection E as <- <-. rewrite (IHe _ _ _ x Ee). reflexivity.
    + destruct (Ascii.eqb c "]"); [|discriminate].
      intros E. injection E as <- <-. reflexivity.
Qed.

(** More fuel does not change a result. *)
Lemma parse_fuel_succ (f : nat) :
  (forall s res, parse_value f s = Some res -> parse_value (S f) s = Some res)
  /\ (forall s res, parse_members f s = Some res -> parse_members (S f) s = Some res)
  /\ (forall s res, parse_elements f s = Some res -> parse_elements (S f) s = Some res).
Proof.
  induction f as [|f [IHv [IHm IHe]]]; [repeat split; discriminate|].
  split; [|split].
  - intros s res. rewrite (parse_value_eq (S f)), (parse_value_eq f).
    destruct (skip_ws s) as [|c r0]; [discriminate|].
    destruct (Ascii.eqb c "{").
    { destruct (skip_ws r0) as [|c2 r2]; [discriminate|].
      destruct (Ascii.eqb c2 "}"); [exact id|].
      destruct (parse_members f (String c2 r2)) as [[ms rest]|] eqn:Em; [|discriminate].
      rewrite (IHm _ _ Em). exact id. }
    destruct (Ascii.eqb c "[").
    { destruct (skip_ws r0) as [|c2 r2]; [discriminate|].
      destruct (Ascii.eqb c2 "]"); [exact id|].
      destruct (parse_elements f (String c2 r2)) as [[es rest]|] eqn:Ee; [|discriminate].
      rewrite (IHe _ _ Ee). exact id. }
    exact id.
  - intros s res. rewrite (parse_members_eq (S f)), (parse_members_eq f).
    destruct (skip_ws s) as [|c r0]; [discriminate|].
    destruct (Ascii.eqb c dquote); [|discriminate].
    destruct (parse_string_body r0) as [[k r1]|]; [|discriminate].
    destruct (skip_ws r1) as [|c1 r2]; [discriminate|].
    destruct (Ascii.eqb c1 ":"); [|discriminate].
    destruct (parse_value f r2) as [[v r3]|] eqn:Ev; [|discriminate].
    rewrite (IHv _ _ Ev).
    destruct (skip_ws r3) as [|c3 r4]; [discriminate|].
    destruct (Ascii.eqb c3 ","); [|exact id].
    destruct (parse_members f r4) as [[ms' r5]|] eqn:Em; [|discriminate].
    rewrite (IHm _ _ Em). exact id.
  - intros s res. rewrite (parse_elements_eq (S f)), (parse_elements_eq f).
    destruct (parse_value f s) as [[v r1]|] eqn:Ev; [|discriminate].
    rewrite (IHv _ _ Ev).
    destruct (skip_ws r1) as [|c r2]; [discriminate|].
    destruct (Ascii.eqb c ","); [|exact id].
    destruct (parse_elements f r2) as [[es' r3]|] eqn:Ee; [|discriminate].
    rewrite (IHe _ _ Ee). exact id.
Qed.

Lemma parse_value_fuel (f g : nat) (s : string) (res : json * string) :
  (f <= g)%nat -> parse_value f s = Some res -> parse_value g s = Some res.
Proof.
  intros Hle. induction Hle as [|g Hle IH]; [exact id|].
  intros E. apply parse_fuel_succ, IH, E.
Qed.






Lemma append_nil_r (s : string) : String.append s EmptyString = s.
Proof. induction s as [|c s IH]; cbn [String.append]; congruence. Qed.






(** *** The backward scan *)

Lemma brace_excess_snoc (s : string) (i len : nat) :
  brace_excess s i (S len) = brace_excess s i len + brace_step (String.get (i + len) s).
Proof.
  revert i. induction len as [|len IH]; intros i.
  - cbn [brace_excess]. rewrite Nat.add_0_r. lia.
  - change (brace_excess s i (S (S len)))
      with (brace_step (String.get i s) + brace_excess s (S i) (S len)).
    rewrite IH. cbn [brace_excess]. replace (S i + len)%nat with (i + S len)%nat by lia. lia.
Qed.

Lemma matching_brace_step (s : string) (i : nat) (k : Z) :
  matching_brace s (S i) k
  = if k + brace_step (String.get i s) =? 0 then true
    else matching_brace s i (k + brace_step (String.get i s)).
Proof.
  cbn [matching_brace]. unfold brace_step.
  destruct (option_eqb_char (String.get i s) "}"), (option_eqb_char (String.get i s) "{");
    replace (k + 1 - 1) with (k + (1 - 1)) by lia;
    replace (k + 1) with (k + (1 - 0)) by lia;
    replace (k - 1) with (k + (0 - 1)) by lia;
    try reflexivity.
  replace (k + (0 - 0)) with k by lia. reflexivity.
Qed.

(** The scan succeeds when the braces balance from some index on. *)
Lemma matching_brace_spec (s : string) (n : nat) (k : Z) :
  matching_brace s n k = true
  <-> exists i, (i < n)%nat /\ brace_excess s i (n - i) + k = 0.
Proof.
  revert k. induction n as [|n IH]; intros k.
  - split; [discriminate | intros [i [Hi _]]; lia].
  - rewrite matching_brace_step.
    destruct (k + brace_step (String.get n s) =? 0) eqn:E.
    + split; [intros _ | reflexivity]. exists n. split; [lia|].
      replace (S n - n)%nat with 1%nat by lia. cbn [brace_excess]. lia.
    + rewrite IH. split; intros [i [Hi H]].
      * exists i. split; [lia|].
        replace (S n - i)%nat with (S (n - i)) by lia.
        rewrite brace_excess_snoc. replace (i + (n - i))%nat with n by lia. lia.
      * assert (Hn : i <> n).
        { intros ->. replace (S n - n)%nat with 1%nat in H by lia.
          cbn [brace_excess] in H. lia. }
        exists i. split; [lia|].
        replace (S n - i)%nat with (S (n - i)) in H by lia.
        rewrite brace_excess_snoc in H. replace (i + (n - i))%nat with n in H by lia. lia.
Qed.




(** ** The rate limiter *)

Lemma Map_get_set_same (k : string) (v : list Z) (m : request_map) :
  Map_get k (Map_set k v m) = Some v.
Proof.
  induction m as [|[k' v'] m IH]; cbn [Map_set Map_get].
  - rewrite String.eqb_refl. reflexivity.
  - destruct (String.eqb k' k) eqn:E; cbn [Map_get].
    + rewrite String.eqb_refl. reflexivity.
    + rewrite E. exact IH.
Qed.

Lemma Map_get_set_other (k k0 : string) (v : list Z) (m : request_map) :
  k0 <> k -> Map_get k0 (Map_set k v m) = Map_get k0 m.
Proof.
  intros Hk. induction m as [|[k' v'] m IH]; cbn [Map_set Map_get].
  - destruct (String.eqb_spec k k0); [congruence | reflexivity].
  - destruct (String.eqb_spec k' k) as [-> | Hk']; cbn [Map_get].
    + destruct (String.eqb_spec k k0); [congruence | reflexivity].
    + destruct (String.eqb k' k0); [reflexivity | exact IH].
Qed.

Lemma Map_set_get (k : string) (v : list Z) (m : request_map) :
  Map_get k m = Some v -> Map_set k v m = m.
Proof.
  induction m as [|[k' v'] m IH]; cbn [Map_set Map_get]; [discriminate|].
  destruct (String.eqb_spec k' k) as [-> | Hk'].
  - intros E. injection E as ->. reflexivity.
  - intros E. rewrite (IH E). reflexivity.
Qed.

Lemma checkRateLimit_eq (ip : string) (now : Z) (m : request_map) :
  let recent := filter (fun time => now - RATE_WINDOW <? time) (recorded ip m) in
  checkRateLimit ip now m
  = if RATE_LIMIT <=? Z.of_nat (List.length recent) then (false, m)
    else (true, Map_set ip (recent ++ [now]) m).
Proof.
  intros recent. subst recent. unfold checkRateLimit, recorded, Map_has. cbv zeta.
  destruct (Map_get ip m) as [l|] eqn:E; cbn [negb list_of]; [rewrite E; reflexivity|].
  rewrite Map_get_set_same. cbn [list_of filter List.length].
  change (RATE_LIMIT <=? Z.of_nat 0) with false. cbv iota. cbn [app].
  f_equal. clear E. induction m as [|[k' v'] m IH]; cbn [Map_set].
  - rewrite String.eqb_refl. reflexivity.
  - destruct (String.eqb k' k') eqn:E; [|rewrite String.eqb_refl in E; discriminate].
    destruct (String.eqb_spec k' ip) as [-> | Hk]; cbn [Map_set].
    + rewrite String.eqb_refl. reflexivity.
    + destruct (String.eqb_spec k' ip); [contradiction|]. rewrite IH. reflexivity.
Qed.

Lemma filter_length_app {A : Type} (f : A -> bool) (l1 l2 : list A) :
  List.length (filter f (l1 ++ l2)) = (List.length (filter f l1) + List.length (filter f l2))%nat.
Proof. rewrite filter_app, length_app. reflexivity. Qed.

(** Times that a later window has dropped are outside every window after it. *)
Lemma filter_window (t0 t : Z) (l : list Z) :
  t0 <= t ->
  filter (fun time => t <? time) (filter (fun time => t0 <? time) l)
  = filter (fun time => t <? time) l.
Proof.
  intros Ht. induction l as [|x l IH]; [reflexivity|]. cbn [filter].
  destruct (Z.ltb_spec t0 x); cbn [filter].
  - rewrite IH. reflexivity.
  - destruct (Z.ltb_spec t x); [lia | exact IH].
Qed.

Lemma agrees_from_step (t0 now : Z) (ip : string) (m : request_map)
    (history : list (string * Z)) :
  agrees_from (t0 - RATE_WINDOW) m history -> t0 <= now ->
  let r := checkRateLimit ip now m in
  fst r = (accepted_since ip (now - RATE_WINDOW) history <? RATE_LIMIT)
  /\ agrees_from (now - RATE_WINDOW) (snd r)
       (if fst r then (ip, now) :: history else history).
Proof.
  intros Hag Hnow. cbv zeta. rewrite checkRateLimit_eq. cbv zeta.
  rewrite (Hag ip (now - RATE_WINDOW)) by lia.
  rewrite Z.leb_antisym.
  destruct (accepted_since ip (now - RATE_WINDOW) history <? RATE_LIMIT);
    cbn [negb fst snd]; (split; [reflexivity|]).
  - intros ip' t Ht. unfold recorded, accepted_since. cbn [filter fst snd].
    destruct (String.eqb_spec ip ip') as [<- | Hip].
    + rewrite Map_get_set_same. cbn [list_of andb].
      rewrite filter_length_app, (filter_window _ _ _ Ht). cbn [filter].
      pose proof (Hag ip t ltac:(lia)) as H. unfold recorded, accepted_since in H.
      destruct (t <? now); cbn [List.length]; lia.
    + rewrite Map_get_set_other by congruence. cbn [andb].
      exact (Hag ip' t ltac:(lia)).
  - intros ip' t Ht. exact (Hag ip' t ltac:(lia)).
Qed.

Lemma checkRateLimit_all_window (calls : list (string * Z)) :
  forall (t0 : Z) (m : request_map) (history : list (string * Z)),
    agrees_from (t0 - RATE_WINDOW) m history -> clock_from t0 calls ->
    fst (checkRateLimit_all calls m) = sliding_window history calls.
Proof.
  induction calls as [|[ip now] calls IH]; intros t0 m history Hag Hclock; [reflexivity|].
  cbn [checkRateLimit_all sliding_window clock_from fst snd] in *.
  destruct Hclock as [Hnow Hclock].
  destruct (agrees_from_step t0 now ip m history Hag Hnow) as [Hr Hs].
  rewrite <- Hr. f_equal. exact (IH now _ _ Hs Hclock).
Qed.

(** X1: as long as the clock does not go back, the limiter of a fresh
    instance accepts a call exactly when fewer than 10 accepted calls of the
    same address are less than 60000 ms old: the pruning of the recorded
    times forgets nothing that a later window needs, and a refused call is
    not counted. *)
Theorem checkRateLimit_sliding_window (calls : list (string * Z)) (t0 : Z) :
  clock_from t0 calls ->
  fst (checkRateLimit_all calls []) = sliding_window [] calls.
Proof.
  apply checkRateLimit_all_window. intros ip t _. reflexivity.
Qed.

Lemma checkRateLimit_sliding_window_witness :
  fst (checkRateLimit_all calls_1 [])
  = sliding_window [] calls_1
  /\ sliding_window [] calls_1
     = [true; true; true; true; true; true; true; true; true; true; false;
        true; true; false].
Proof.
  assert (H : clock_from 0 calls_1) by (cbn; lia).
  split; [exact (checkRateLimit_sliding_window calls_1 0 H) | vm_compute; reflexivity].
Defined.

Lemma filter_all {A : Type} (f : A -> bool) (l : list A) :
  Forall (fun x => f x = true) (filter f l).
Proof.
  induction l as [|x l IH]; cbn [filter]; [constructor|].
  destruct (f x) eqn:E; [constructor; assumption | exact IH].
Qed.

(** X2: a refused call leaves the map as it was. An accepted call records for
    its address the times of the last 60000 ms that were on record, followed
    by the time of the call: at most 10 times. No call changes the record of
    another address, and no address is ever removed from the map. *)
Theorem checkRateLimit_record (ip : string) (now : Z) (m : request_map) :
  let r := checkRateLimit ip now m in
  (fst r = false -> snd r = m /\ Map_has ip m = true)
  /\ (fst r = true ->
      exists recent,
        Map_get ip (snd r) = Some (recent ++ [now])
        /\ recent = filter (fun time => now - RATE_WINDOW <? time) (recorded ip m)
        /\ Forall (fun time => now - RATE_WINDOW < time) (recent ++ [now])
        /\ (List.length (recent ++ [now]) <= 10)%nat)
  /\ (forall ip', ip' <> ip -> Map_get ip' (snd r) = Map_get ip' m)
  /\ (forall ip', Map_has ip' m = true -> Map_has ip' (snd r) = true).
Proof.
  cbv zeta. rewrite checkRateLimit_eq. cbv zeta.
  destruct (Z.leb_spec RATE_LIMIT
              (Z.of_nat (List.length (filter (fun time => now - RATE_WINDOW <? time)
                                        (recorded ip m))))) as [Hfull | Hroom];
    cbn [fst snd].
  - split; [intros _; split; [reflexivity|] | split; [discriminate | split; auto]].
    unfold recorded, Map_has in *. destruct (Map_get ip m); [reflexivity|].
    cbn in Hfull. unfold RATE_LIMIT in Hfull. lia.
  - split; [discriminate | split; [intros _ | split]].
    + eexists. split; [apply Map_get_set_same | split; [reflexivity | split]].
      * apply Forall_app. split.
        -- eapply Forall_impl; [|apply filter_all]. cbv beta. intros t Ht.
           apply Z.ltb_lt, Ht.
        -- constructor; [unfold RATE_WINDOW; lia | constructor].
      * rewrite length_app. cbn [List.length]. unfold RATE_LIMIT in Hroom. lia.
    + intros ip' Hip. apply Map_get_set_other, Hip.
    + intros ip'. unfold Map_has.
      destruct (String.eqb_spec ip' ip) as [-> | Hip].
      * rewrite Map_get_set_same. reflexivity.
      * rewrite Map_get_set_other by exact Hip. exact id.
Qed.

Lemma checkRateLimit_record_witness :
  snd (checkRateLimit "10.0.0.1" 11 requests_full) = requests_full
  /\ Map_has "10.0.0.1" requests_full = true.
Proof.
  assert (H : fst (checkRateLimit "10.0.0.1" 11 requests_full) = false)
    by (vm_compute; reflexivity).
  exact (proj1 (checkRateLimit_record "10.0.0.1" 11 requests_full) H).
Defined.

(** ** The entry of the handler *)

Lemma handler_all_window (reqs : list (http_request * Z * backends)) :
  forall (t0 : Z) (m : request_map) (history : list (string * Z)),
    agrees_from (t0 - RATE_WINDOW) m history -> request_clock t0 reqs ->
    handler_all reqs m = entry_law history reqs.
Proof.
  induction reqs as [|[[req now] env] reqs IH]; intros t0 m history Hag Hclock;
    [reflexivity|].
  cbn [handler_all entry_law request_clock] in *. destruct Hclock as [Hnow Hclock].
  assert (Hag' : agrees_from (now - RATE_WINDOW) m history)
    by (intros ip t Ht; apply Hag; lia).
  unfold handler_entry.
  destruct (String.eqb (method req) "OPTIONS"); cbn [fst snd];
    [f_equal; exact (IH now _ _ Hag' Hclock)|].
  destruct (String.eqb (method req) "POST"); cbn [negb fst snd];
    [|f_equal; exact (IH now _ _ Hag' Hclock)].
  destruct (agrees_from_step t0 now (clientIP req) m history Hag Hnow) as [Hr Hs].
  rewrite <- Hr.
  destruct (fst (checkRateLimit (clientIP req) now m)); cbn [negb fst snd];
    f_equal; exact (IH now _ _ Hs Hclock).
Qed.

(** X3: on a fresh instance whose clock does not go back, a preflight is
    answered 200 and any other method than POST 405, neither being counted;
    a POST is answered 429 exactly when 10 POST requests of the same client
    address that were not refused are less than 60000 ms old, and is handled
    (and counted, whatever its outcome) otherwise. A request that is not
    handled writes no log entry and calls no backend; requests without the
    two address headers share the address "unknown". *)
Theorem handler_entry_sliding_window (reqs : list (http_request * Z * backends)) (t0 : Z) :
  request_clock t0 reqs ->
  handler_all reqs [] = entry_law [] reqs
  /\ (forall r, In r (handler_all reqs []) ->
      (exists res, fst r = Answer res) \/ snd r = [])
  /\ (forall req, x_forwarded_for req = None -> x_real_ip req = None ->
      clientIP req = "unknown").
Proof.
  intros Hclock.
  assert (E : handler_all reqs [] = entry_law [] reqs).
  { apply (handler_all_window reqs t0); [|exact Hclock]. intros ip t _. reflexivity. }
  split; [exact E | split].
  - rewrite E. clear E Hclock. generalize (@nil (string * Z)) as history.
    induction reqs as [|[[req now] env] reqs IH]; intros history r; [contradiction|].
    cbn [entry_law].
    destruct (String.eqb (method req) "OPTIONS");
      [intros [<- | H]; [right; reflexivity | exact (IH _ _ H)]|].
    destruct (String.eqb (method req) "POST"); cbn [negb];
      [|intros [<- | H]; [right; reflexivity | exact (IH _ _ H)]].
    destruct (accepted_since (clientIP req) (now - RATE_WINDOW) history <? RATE_LIMIT);
      (intros [<- | H]; [| exact (IH _ _ H)]).
    + left. eexists. reflexivity.
    + right. reflexivity.
  - intros req H1 H2. unfold clientIP. rewrite H1, H2. reflexivity.
Qed.

Lemma handler_entry_sliding_window_witness :
  handler_all [(post None None, 0, backends_down); (post None None, 5, backends_down)] []
  = entry_law [] [(post None None, 0, backends_down); (post None None, 5, backends_down)].
Proof.
  assert (H : request_clock 0 [(post None None, 0, backends_down);
                               (post None None, 5, backends_down)]) by (cbn; lia).
  exact (proj1 (handler_entry_sliding_window _ 0 H)).
Defined.

(** ** The product context *)

Lemma existsb_orb {A : Type} (f g : A -> bool) (l : list A) :
  existsb (fun x => f x || g x) l = existsb f l || existsb g l.
Proof.
  induction l as [|x l IH]; [reflexivity|]. cbn [existsb]. rewrite IH.
  destruct (f x), (g x), (existsb f l), (existsb g l); reflexivity.
Qed.

Lemma social_or_marketing (summary description : string) (components labels : list string) :
  includes "social" summary || includes "social" description
  || includes "marketing" summary || includes "marketing" description
  || existsb (fun c => includes "social" c || includes "marketing" c) components
  || existsb (fun l => includes "social" l || includes "marketing" l) labels
  = (includes "social" summary || includes "social" description
     || existsb (fun c => includes "social" c) components
     || existsb (fun l => includes "social" l) labels)
    || (includes "marketing" summary || includes "marketing" description
        || existsb (fun c => includes "marketing" c) components
        || existsb (fun l => includes "marketing" l) labels).
Proof.
  pose proof (existsb_orb (fun c => includes "social" c) (fun c => includes "marketing" c)
                components) as Hc.
  pose proof (existsb_orb (fun c => includes "social" c) (fun c => includes "marketing" c)
                labels) as Hl.
  cbv beta in Hc, Hl. rewrite Hc, Hl.
  destruct (includes "social" summary), (includes "social" description),
    (includes "marketing" summary), (includes "marketing" description),
    (existsb (fun c => includes "social" c) components),
    (existsb (fun c => includes "marketing" c) components),
    (existsb (fun c => includes "social" c) labels),
    (existsb (fun c => includes "marketing" c) labels); reflexivity.
Qed.

Lemma getProductContext_detected (i : issue) :
  (product (getProductContext i), product_confidence (getProductContext i))
  = if mentions i "community" then
      if mentions i "aurora" then ("Khoros Aurora Community", "High")
      else if mentions i "classic" then ("Khoros Classic Community", "High")
      else ("Khoros Community Platform", "Medium")
    else if mentions i "care" then ("Khoros Care", "High")
    else if mentions i "social" || mentions i "marketing"
    then ("Khoros Social Media & Marketing", "High")
    else ("Unknown", "Low").
Proof.
  unfold getProductContext, mentions. cbv zeta. cbn [product product_confidence].
  rewrite social_or_marketing.
  destruct (includes "community" _ || includes "community" _ || existsb _ _ || existsb _ _);
    [destruct (includes "aurora" _ || includes "aurora" _ || existsb _ _ || existsb _ _);
       [reflexivity|];
     destruct (includes "classic" _ || includes "classic" _ || existsb _ _ || existsb _ _);
       reflexivity|].
  destruct (includes "care" _ || includes "care" _ || existsb _ _ || existsb _ _);
    [reflexivity|].
  match goal with
  | |- _ = (if ?b then _ else _) => destruct b; reflexivity
  end.
Qed.

(** X4: a ticket that mentions "community" is assigned to a community
    product whatever else it mentions, and one that mentions "care" but not
    "community" to Khoros Care. The product is "Unknown" exactly when none of
    "community", "care", "social" and "marketing" occurs in the ticket; the
    confidence is "Low" exactly then and "Medium" exactly for the community
    platform without edition. *)
Theorem getProductContext_detection (i : issue) :
  let c := getProductContext i in
  (mentions i "community" = true ->
   product c = "Khoros Aurora Community" \/ product c = "Khoros Classic Community"
   \/ product c = "Khoros Community Platform")
  /\ (mentions i "community" = false -> mentions i "care" = true ->
      product c = "Khoros Care")
  /\ (product c = "Unknown"
      <-> mentions i "community" = false /\ mentions i "care" = false
          /\ mentions i "social" = false /\ mentions i "marketing" = false)
  /\ (product_confidence c = "Low" <-> product c = "Unknown")
  /\ (product_confidence c = "Medium" <-> product c = "Khoros Community Platform").
Proof.
  cbv zeta. pose proof (getProductContext_detected i) as H.
  destruct (mentions i "community"), (mentions i "aurora"), (mentions i "classic"),
    (mentions i "care"), (mentions i "social"), (mentions i "marketing");
    cbn [orb] in H; apply pair_equal_spec in H; destruct H as [Hp Hq]; rewrite Hp, Hq;
    (repeat split; try tauto; try discriminate; try (intros; discriminate);
     try (intros [? [? [? ?]]]; discriminate)).
Qed.

Lemma features_or_default (features : list string) (d : string) :
  match features with
  | [] => [d]
  | _ => features
  end <> [].
Proof. destruct features; discriminate. Qed.

Lemma getProductContext_products (i : issue) :
  let p := product (getProductContext i) in
  p = "Khoros Aurora Community" \/ p = "Khoros Classic Community"
  \/ p = "Khoros Community Platform" \/ p = "Khoros Care"
  \/ p = "Khoros Social Media & Marketing" \/ p = "Unknown".
Proof.
  cbv zeta. pose proof (getProductContext_detected i) as H.
  destruct (mentions i "community"), (mentions i "aurora"), (mentions i "classic"),
    (mentions i "care"), (mentions i "social" || mentions i "marketing");
    apply pair_equal_spec in H; destruct H as [Hp _]; rewrite Hp; tauto.
Qed.

Lemma getProductContext_details (i : issue) :
  details (getProductContext i) = getProductDetails (product (getProductContext i)) i.
Proof. reflexivity. Qed.

(** X5: the description of the product that goes into the prompts is the
    generic one of Khoros, with the single feature "Core platform features
    and capabilities", not only for an unknown product but also for the
    Classic community and the community platform, which were detected; and
    the list of relevant features is never empty. *)
Theorem getProductContext_generic_details (i : issue) :
  let c := getProductContext i in
  (product c = "Khoros Classic Community" \/ product c = "Khoros Community Platform"
   \/ product c = "Unknown" ->
   details c = getProductDetails "Unknown" i
   /\ relevantFeatures (details c) = ["Core platform features and capabilities"])
  /\ relevantFeatures (details c) <> [].
Proof.
  cbv zeta. rewrite getProductContext_details. split.
  - intros [-> | [-> | ->]]; split; reflexivity.
  - destruct (getProductContext_products i) as [-> | [-> | [-> | [-> | [-> | ->]]]]];
      try discriminate; apply features_or_default.
Qed.

Lemma getProductContext_generic_details_witness :
  details (getProductContext ticket_classic) = getProductDetails "Unknown" ticket_classic
  /\ relevantFeatures (details (getProductContext ticket_classic))
     = ["Core platform features and capabilities"].
Proof.
  assert (H : product (getProductContext ticket_classic) = "Khoros Classic Community")
    by (vm_compute; reflexivity).
  exact (proj1 (getProductContext_generic_details ticket_classic) (or_introl H)).
Defined.

Lemma getProductContext_detection_witness :
  product (getProductContext ticket_classic) = "Khoros Aurora Community"
  \/ product (getProductContext ticket_classic) = "Khoros Classic Community"
  \/ product (getProductContext ticket_classic) = "Khoros Community Platform".
Proof.
  assert (H : mentions ticket_classic "community" = true) by (vm_compute; reflexivity).
  exact (proj1 (getProductContext_detection ticket_classic) H).
Defined.

(** ** Upper and lower case *)

Lemma lower_char_idem (c : ascii) : lower_char (lower_char c) = lower_char c.
Proof. destruct c as [[] [] [] [] [] [] [] []]; reflexivity. Qed.

Lemma toLowerCase_idem (s : string) : toLowerCase (toLowerCase s) = toLowerCase s.
Proof.
  induction s as [|c s IH]; [reflexivity|]. cbn [toLowerCase].
  rewrite lower_char_idem, IH. reflexivity.
Qed.

Lemma map_toLowerCase_idem (l : list string) :
  map toLowerCase (map toLowerCase l) = map toLowerCase l.
Proof.
  rewrite map_map. apply map_ext. exact toLowerCase_idem.
Qed.

Lemma lower_ticket_summary (i : issue) :
  toLowerCase (text_of (field summary (lower_ticket i))) = toLowerCase (text_of (field summary i)).
Proof.
  unfold field. cbn [lower_ticket fields]. destruct (fields i) as [fs|]; [|reflexivity].
  cbn [option_map summary]. destruct (summary fs); [apply toLowerCase_idem | reflexivity].
Qed.

Lemma lower_ticket_description (i : issue) :
  toLowerCase (text_of (field description (lower_ticket i)))
  = toLowerCase (text_of (field description i)).
Proof.
  unfold field. cbn [lower_ticket fields]. destruct (fields i) as [fs|]; [|reflexivity].
  cbn [option_map description]. destruct (description fs); [apply toLowerCase_idem | reflexivity].
Qed.

Lemma lower_ticket_components (i : issue) :
  map toLowerCase (list_of (field components (lower_ticket i)))
  = map toLowerCase (list_of (field components i)).
Proof.
  unfold field. cbn [lower_ticket fields]. destruct (fields i) as [fs|]; [|reflexivity].
  cbn [option_map components]. destruct (components fs); [apply map_toLowerCase_idem | reflexivity].
Qed.

Lemma lower_ticket_labels (i : issue) :
  map toLowerCase (list_of (field labels (lower_ticket i)))
  = map toLowerCase (list_of (field labels i)).
Proof.
  unfold field. cbn [lower_ticket fields]. destruct (fields i) as [fs|]; [|reflexivity].
  cbn [option_map labels]. destruct (labels fs); [apply map_toLowerCase_idem | reflexivity].
Qed.

(** X6: the three classifiers of a ticket do not tell upper from lower case:
    the product context, the effort estimate and the bug-or-feature
    classification of a ticket are those of the ticket written in lower
    case. *)
Theorem classifiers_ignore_case (i : issue) :
  getProductContext (lower_ticket i) = getProductContext i
  /\ estimateEffort (lower_ticket i) = estimateEffort i
  /\ classifyBugOrFeature (lower_ticket i) = classifyBugOrFeature i.
Proof.
  split; [|split].
  - unfold getProductContext, getProductDetails. cbv zeta.
    rewrite !lower_ticket_summary, !lower_ticket_description, !lower_ticket_components,
      !lower_ticket_labels. reflexivity.
  - unfold estimateEffort. cbv zeta.
    rewrite !lower_ticket_summary, !lower_ticket_description, !lower_ticket_components.
    reflexivity.
  - unfold classifyBugOrFeature. cbv zeta.
    rewrite !lower_ticket_summary, !lower_ticket_description, !lower_ticket_labels.
    reflexivity.
Qed.

(** ** Bug or feature *)

Lemma prefix_append_l (a b s : string) :
  String.prefix (String.append a b) s = true -> String.prefix a s = true.
Proof.
  revert s. induction a as [|c a IH]; intros s; [intros _; apply prefix_nil|].
  destruct s as [|d s]; [discriminate|]. cbn [String.append String.prefix].
  destruct (ascii_dec c d); [apply IH | discriminate].
Qed.

Lemma includes_append_l (a b s : string) :
  includes (String.append a b) s = true -> includes a s = true.
Proof.
  induction s as [|d s IH]; cbn [includes].
  - destruct (String.prefix (String.append a b) EmptyString) eqn:E; [|discriminate].
    rewrite (prefix_append_l _ _ _ E). reflexivity.
  - destruct (String.prefix (String.append a b) (String d s)) eqn:E.
    + rewrite (prefix_append_l _ _ _ E). reflexivity.
    + intros H. rewrite (IH H). destruct (String.prefix a (String d s)); reflexivity.
Qed.

Lemma regex_test_includes (p : regex) (s : string) :
  regex_test p s = true -> includes (lit_before p) s = true.
Proof.
  induction s as [|d s IH]; cbn [regex_test includes].
  - destruct (String.prefix (lit_before p) EmptyString); [reflexivity|].
    cbn [orb]. discriminate.
  - destruct (String.prefix (lit_before p) (String d s)); [reflexivity|].
    cbn [orb]. exact IH.
Qed.

Lemma regex_test_absent (a b s : string) :
  includes a s = false -> regex_test (DotStar a b) s = false.
Proof.
  intros H. destruct (regex_test (DotStar a b) s) eqn:E; [|reflexivity].
  apply regex_test_includes in E. cbn [lit_before] in E. congruence.
Qed.

Lemma count_hits_nonneg {A : Type} (hit : A -> bool) (l : list A) : 0 <= count_hits hit l.
Proof. unfold count_hits. lia. Qed.

Lemma count_hits_none {A : Type} (hit : A -> bool) (l : list A) :
  existsb hit l = false -> count_hits hit l = 0.
Proof.
  unfold count_hits. induction l as [|x l IH]; [reflexivity|]. cbn [existsb filter].
  destruct (hit x); [discriminate | exact IH].
Qed.

(** X16: [classifyBugOrFeature] answers "Bug" only on an indicator of a bug:
    when none of the words bug, fix, error, broken, issue, problem, crash,
    fail and not occurs in the lower-cased title or description and no label
    is bug or defect (in any case), the answer is "Feature". *)
Theorem classifyBugOrFeature_needs_indicator (i : issue) :
  existsb (in_text i)
    ["bug"; "fix"; "error"; "broken"; "issue"; "problem"; "crash"; "fail"; "not"] = false ->
  labelled i "bug" = false -> labelled i "defect" = false ->
  classifyBugOrFeature i = "Feature".
Proof.
  unfold in_text, labelled. intros Hw Hb Hd.
  cbn [existsb] in Hw. rewrite !orb_false_iff in Hw.
  destruct Hw as [[B1 B2] [[F1 F2] [[E1 E2] [[K1 K2] [[I1 I2] [[P1 P2] [[C1 C2]
    [[L1 L2] [[N1 N2] _]]]]]]]]].
  assert (W1 : includes "not working"
                 (toLowerCase (text_of (field summary i))) = false).
  { destruct (includes "not working" (toLowerCase (text_of (field summary i)))) eqn:E;
      [|reflexivity].
    apply (includes_append_l "not" " working") in E. congruence. }
  assert (W2 : includes "not working"
                 (toLowerCase (text_of (field description i))) = false).
  { destruct (includes "not working" (toLowerCase (text_of (field description i)))) eqn:E;
      [|reflexivity].
    apply (includes_append_l "not" " working") in E. congruence. }
  unfold classifyBugOrFeature. cbv zeta.
  rewrite Hb, Hd. cbn [orb].
  rewrite (count_hits_none _ ["bug"; "fix"; "error"; "broken"; "issue"; "problem"; "crash";
                             "fail"; "not working"; "broken"])
    by (cbn [existsb]; rewrite B1, B2, F1, F2, E1, E2, K1, K2, I1, I2, P1, P2, C1, C2, L1, L2,
          W1, W2; reflexivity).
  rewrite (count_hits_none _ [DotStar "fix" ""; DotStar "broken" ""; DotStar "not" "working";
                             DotStar "error" ""; DotStar "bug" ""])
    by (cbn [existsb]; rewrite !regex_test_absent by assumption; reflexivity).
  match goal with
  | |- (if ?x <? _ then _ else _) = _ =>
      assert (H : 0 <= x); [|destruct (Z.ltb_spec x (0 * 2 + 0 * 1 + 0)); [lia | reflexivity]]
  end.
  pose proof (count_hits_nonneg
                (fun keyword => includes keyword (toLowerCase (text_of (field summary i)))
                                || includes keyword (toLowerCase (text_of (field description i))))
                ["add"; "new"; "implement"; "create"; "build"; "enhance"; "improve"; "upgrade";
                 "feature"]).
  pose proof (count_hits_nonneg
                (fun pattern => regex_test pattern (toLowerCase (text_of (field summary i)))
                                || regex_test pattern (toLowerCase (text_of (field description i))))
                [DotStar "add" ""; DotStar "new" ""; DotStar "implement" ""; DotStar "create" "";
                 DotStar "build" ""]).
  match goal with |- context [if ?b then 3 else 0] => destruct b end; lia.
Qed.

Lemma classifyBugOrFeature_needs_indicator_witness :
  classifyBugOrFeature ticket_without_text = "Feature".
Proof.
  apply classifyBugOrFeature_needs_indicator; vm_compute; reflexivity.
Defined.

(** ** Request identifiers *)

Lemma nibble_cases (r : Z) :
  0 <= r < 16 ->
  r = 0 \/ r = 1 \/ r = 2 \/ r = 3 \/ r = 4 \/ r = 5 \/ r = 6 \/ r = 7 \/ r = 8 \/ r = 9
  \/ r = 10 \/ r = 11 \/ r = 12 \/ r = 13 \/ r = 14 \/ r = 15.
Proof. lia. Qed.

Lemma toString16_nibble (r : Z) :
  0 <= r < 16 -> exists d, toString16 r = String d EmptyString /\ is_hex d = true.
Proof.
  intros H. destruct (nibble_cases r H) as
    [-> | [-> | [-> | [-> | [-> | [-> | [-> | [-> | [-> | [-> | [-> | [-> | [-> | [-> | [-> | ->]]]]]]]]]]]]]]];
    eexists; split; reflexivity.
Qed.

Lemma toString16_variant (r : Z) :
  0 <= r < 16 ->
  exists d, toString16 (Z.lor (Z.land r 3) 8) = String d EmptyString
            /\ existsb (Ascii.eqb d) ["8"; "9"; "a"; "b"]%char = true.
Proof.
  intros H. destruct (nibble_cases r H) as
    [-> | [-> | [-> | [-> | [-> | [-> | [-> | [-> | [-> | [-> | [-> | [-> | [-> | [-> | [-> | ->]]]]]]]]]]]]]]];
    eexists; split; reflexivity.
Qed.

Lemma replace_xy_form (random : nat -> Z) (template : string) :
  (forall k, 0 <= random k < 16) ->
  forall k, has_form template (replace_xy random k template).
Proof.
  intros Hr. induction template as [|c rest IH]; intros k; [exact I|].
  cbn [replace_xy]. destruct (Ascii.eqb c "x") eqn:Ex; cbn [orb].
  - destruct (toString16_nibble _ (Hr k)) as [d [-> Hd]]. cbn [String.append has_form].
    rewrite Ex. split; [exact Hd | apply IH].
  - destruct (Ascii.eqb c "y") eqn:Ey.
    + destruct (toString16_variant _ (Hr k)) as [d [-> Hd]]. cbn [String.append has_form].
      rewrite Ex, Ey. split; [exact Hd | apply IH].
    + cbn [has_form]. rewrite Ex, Ey. split; [reflexivity | apply IH].
Qed.


Lemma has_form_fixed (template u : string) :
  has_form template u ->
  String.length u = String.length template
  /\ (forall n c, String.get n template = Some c -> c <> "x"%char -> c <> "y"%char ->
      String.get n u = Some c).
Proof.
  revert u. induction template as [|c template IH]; intros [|d u] H;
    cbn [has_form] in H; try contradiction.
  - split; [reflexivity | intros n c0 E; destruct n; discriminate E].
  - destruct H as [Hd H]. destruct (IH u H) as [Hlen Hget]. split.
    + cbn [String.length]. rewrite Hlen. reflexivity.
    + intros [|n] c0 E Hx Hy; cbn [String.get] in E |- *.
      * injection E as ->.
        destruct (Ascii.eqb_spec c0 "x"); [contradiction|].
        destruct (Ascii.eqb_spec c0 "y"); [contradiction|]. rewrite Hd. reflexivity.
      * exact (Hget n c0 E Hx Hy).
Qed.

(** X7: whatever the random numbers, the request identifier is a version 4
    UUID in lower case: 36 characters, hyphens after the 8th, 13th, 18th and
    23rd, the digit 4 in the 15th place, one of 8, 9, a, b in the 20th, and
    hexadecimal digits elsewhere. *)
Theorem generateUUID_version_4 (random : nat -> Z) :
  (forall k, 0 <= random k < 16) ->
  has_form "xxxxxxxx-xxxx-4xxx-yxxx-xxxxxxxxxxxx" (generateUUID random)
  /\ String.length (generateUUID random) = 36%nat
  /\ String.get 14 (generateUUID random) = Some "4"%char
  /\ (forall n, In n [8; 13; 18; 23]%nat -> String.get n (generateUUID random) = Some "-"%char).
Proof.
  intros Hr.
  assert (H : has_form "xxxxxxxx-xxxx-4xxx-yxxx-xxxxxxxxxxxx" (generateUUID random))
    by exact (replace_xy_form random "xxxxxxxx-xxxx-4xxx-yxxx-xxxxxxxxxxxx" Hr 0).
  split; [exact H|].
  destruct (has_form_fixed _ _ H) as [Hlen Hget].
  split; [exact Hlen | split].
  - apply Hget; [reflexivity | discriminate | discriminate].
  - intros n [<- | [<- | [<- | [<- | []]]]];
      (apply Hget; [reflexivity | discriminate | discriminate]).
Qed.

Lemma generateUUID_version_4_witness :
  String.length (generateUUID (fun k => Z.of_nat (k mod 16))) = 36%nat.
Proof.
  assert (H : forall k, 0 <= Z.of_nat (k mod 16) < 16).
  { intros k. pose proof (Nat.mod_upper_bound k 16). lia. }
  exact (proj1 (proj2 (generateUUID_version_4 _ H))).
Defined.

(** ** The similarity group *)

Lemma string_of_uint_digits (d : Decimal.uint) :
  digits_only (DecimalString.NilZero.string_of_uint d) = true.
Proof.
  assert (H : forall d, digits_only (DecimalString.NilEmpty.string_of_uint d) = true).
  { clear d. induction d; [reflexivity | ..]; exact IHd. }
  destruct d; [reflexivity | ..]; apply H.
Qed.

Lemma digits_only_app (a b : string) :
  digits_only a = true -> digits_only b = true -> digits_only (String.append a b) = true.
Proof.
  unfold digits_only. intros Ha Hb. induction a as [|c a IH]; [exact Hb|].
  cbn [String.append list_ascii_of_string forallb] in *.
  apply andb_true_iff in Ha. destruct Ha as [Hc Ha]. rewrite Hc. exact (IH Ha).
Qed.

Lemma zeros_digits (n : nat) : digits_only (zeros n) = true.
Proof. induction n as [|n IH]; [reflexivity | exact IH]. Qed.

Lemma zeros_length (n : nat) : String.length (zeros n) = n.
Proof. induction n as [|n IH]; [reflexivity|]. cbn [zeros String.length]. rewrite IH. reflexivity. Qed.

Lemma padStart3_digits (s : string) :
  digits_only s = true ->
  digits_only (padStart3 s) = true /\ (3 <= String.length (padStart3 s))%nat.
Proof.
  intros H. unfold padStart3. split.
  - apply digits_only_app; [apply zeros_digits | exact H].
  - rewrite length_append, zeros_length. lia.
Qed.

Lemma substring_nonempty (s : string) :
  s <> EmptyString -> String.substring 0 20 s <> EmptyString.
Proof. destruct s; [contradiction | discriminate]. Qed.

(** X8: for an analysis whose [similar_features] is a non-empty text,
    [generateSimilarityGroup] returns ["SIM-"] followed by at least three
    decimal digits, and the group depends only on the theme and on the first
    20 characters of that text. *)
Theorem generateSimilarityGroup_group (a : json) (theme s : string) :
  get a "similar_features" = Some (JStr s) -> s <> EmptyString ->
  exists digits,
    generateSimilarityGroup (Some a) theme = Some (Some (String.append "SIM-" digits))
    /\ digits_only digits = true /\ (3 <= String.length digits)%nat
    /\ forall a' s',
         get a' "similar_features" = Some (JStr s') ->
         String.substring 0 20 s' = String.substring 0 20 s ->
         generateSimilarityGroup (Some a') theme = generateSimilarityGroup (Some a) theme.
Proof.
  intros Hs Hne.
  assert (Ht : forall x, x <> EmptyString -> truthy (JStr x) = true).
  { intros x Hx. cbn [truthy]. destruct (String.eqb_spec x EmptyString); [contradiction | reflexivity]. }
  unfold generateSimilarityGroup. rewrite Hs. cbn [truthy_opt]. rewrite (Ht s Hne).
  eexists. split; [reflexivity|].
  destruct (padStart3_digits _ (string_of_uint_digits
              (N.to_uint (Z.to_N (Z.abs (hash_from 0
                 (String.append (if String.eqb theme EmptyString then "unknown" else theme)
                    (String.substring 0 20 s)))))))) as [Hd Hl].
  split; [exact Hd | split; [exact Hl|]].
  intros a' s' Hs' E. rewrite Hs'. cbn [truthy_opt].
  assert (Hne' : s' <> EmptyString).
  { intros ->. apply (substring_nonempty s Hne). rewrite <- E. reflexivity. }
  rewrite (Ht s' Hne'), E. reflexivity.
Qed.

Lemma generateSimilarityGroup_group_witness :
  exists digits,
    generateSimilarityGroup (Some analysis_1) "Reporting"
    = Some (Some (String.append "SIM-" digits))
    /\ digits_only digits = true /\ (3 <= String.length digits)%nat
    /\ forall a' s',
         get a' "similar_features" = Some (JStr s') ->
         String.substring 0 20 s' = String.substring 0 20 "None" ->
         generateSimilarityGroup (Some a') "Reporting"
         = generateSimilarityGroup (Some analysis_1) "Reporting".
Proof.
  apply (generateSimilarityGroup_group analysis_1 "Reporting" "None");
    [reflexivity | discriminate].
Defined.

(** ** The order of the priorities *)





(** ** The results of the two agents *)

Lemma parsed_has_scores_1 (text : string) :
  has_scores (parseAIResponse text)
  = match parseAIResponse text with Some _ => true | None => false end.
Proof.
  unfold parseAIResponse. destruct (extracted_json text) as [parsed|]; [|reflexivity].
  destruct (validate parsed) as [a|] eqn:E; [|reflexivity].
  destruct (validate_fields _ _ E) as [_ [scores [_ [_ [Hs [Ht _]]]]]].
  cbn [has_scores]. rewrite Hs. exact Ht.
Qed.

(** X12: the analysis of the priority agent is the parsed answer of Gemini
    when its client is there and its answer parses to a response with
    scores, and otherwise that of Claude under the same conditions, with the
    model named accordingly; Claude is not called after a usable answer of
    Gemini. An analysis that is returned has scores. *)
Theorem analyzePriority_first_usable (i : issue) (env : backends) :
  let p := analyzePriority i env in
  let first := if genAI env then usable_reply (gemini_priority env) else None in
  let second := if anthropic env then usable_reply (claude_priority env) else None in
  (analysis (fst p), modelUsed (fst p))
  = match first, second with
    | Some a, _ => (Some a, "Gemini Flash 2.0")
    | None, Some a => (Some a, "Claude Sonnet 3.5")
    | None, None => (None, "None - Both models failed")
    end
  /\ (first <> None -> calls Claude PriorityAgent (snd p) = 0%nat)
  /\ (forall a, analysis (fst p) = Some a ->
      has_scores (Some a) = true /\ logged "PRIORITY_ANALYSIS_SUCCESS" (snd p)).
Proof.
  cbv zeta. unfold analyzePriority, analyzePriority_claude, usable_reply.
  cbv beta iota zeta delta [bind ret logAction request fst snd].
  destruct (genAI env), (anthropic env);
    destruct (gemini_priority env) as [|tg], (claude_priority env) as [|tc];
    rewrite ?parsed_has_scores_1;
    try (pose proof (parsed_has_scores_1 tg) as Hg;
         destruct (parseAIResponse tg) as [ag|]);
    try (pose proof (parsed_has_scores_1 tc) as Hc;
         destruct (parseAIResponse tc) as [ac|]);
    cbv beta iota zeta delta [fst snd analysis modelUsed];
    (split; [reflexivity|]);
    (split; [intros H; try (exfalso; apply H; reflexivity);
             unfold calls; cbn [app filter event_is_call List.length]; reflexivity|]);
    intros a E; try discriminate E; injection E as <-;
    (split; [assumption | unfold logged; cbn [app In]; tauto]).
Qed.

Lemma processTicket_theme (i : issue) (env : backends) :
  result_theme (fst (processTicketWithFullTriage i env)) = theme (fst (classifyTheme i env)).
Proof.
  unfold processTicketWithFullTriage.
  cbv beta iota zeta delta [bind ret logAction fst snd].
  match goal with |- context [if ?b then _ else _] => destruct b end; reflexivity.
Qed.

Lemma classifyTheme_answer (i : issue) (env : backends) :
  theme (fst (classifyTheme i env))
  = match (if genAI env then answered (gemini_theme env) else None),
          (if anthropic env then answered (claude_theme env) else None) with
    | Some s, _ => s
    | None, Some s => s
    | None, None => "THEME NOT IDENTIFIED"
    end.
Proof.
  unfold classifyTheme, classifyTheme_claude, answered.
  cbv beta iota zeta delta [bind ret logAction request fst snd].
  destruct (genAI env), (anthropic env);
    destruct (gemini_theme env), (claude_theme env); reflexivity.
Qed.

(** X13: the theme of an outcome is the trimmed answer of the first backend
    of the theme agent that answers, as it is: it is not compared with the
    list of themes. An answer of white space yields no theme; when no
    backend answers the theme is "THEME NOT IDENTIFIED". The list of themes
    has at most one entry and never holds the empty text. *)
Theorem handler_themes (i : issue) (env : backends) (o : outcome) :
  fst (handler (Body (Some i)) env) = Status200 o ->
  let answer :=
    match (if genAI env then answered (gemini_theme env) else None),
          (if anthropic env then answered (claude_theme env) else None) with
    | Some s, _ => s
    | None, Some s => s
    | None, None => "THEME NOT IDENTIFIED"
    end in
  themes o = (if String.eqb answer EmptyString then [] else [answer])
  /\ ~ In EmptyString (themes o) /\ (List.length (themes o) <= 1)%nat.
Proof.
  intros H. cbv zeta. destruct (handler_no_key _ _ _ H) as [i' [E Hk]].
  injection E as <-. rewrite (handler_response i env Hk) in H. cbv zeta in H.
  rewrite processTicket_theme, classifyTheme_answer in H.
  destruct (generateSimilarityGroup _ _); [|discriminate].
  injection H as <-. cbn [themes]. split; [reflexivity|].
  destruct (String.eqb_spec
              match (if genAI env then answered (gemini_theme env) else None),
                    (if anthropic env then answered (claude_theme env) else None) with
              | Some s, _ => s
              | None, Some s => s
              | None, None => "THEME NOT IDENTIFIED"
              end EmptyString) as [E | E].
  - split; [exact id | cbn; lia].
  - split; [|cbn; lia]. intros [H | []]. apply E. exact H.
Qed.

Lemma handler_themes_witness :
  themes
    {| recommendation := JStr "On Hold"; classification := "Feature";
       themes := ["THEME NOT IDENTIFIED"]; similarity_group := None;
       importance := JNum 0; confidence := 0%float; notes := JStr EmptyString;
       outcome_analysis := None |}
  = ["THEME NOT IDENTIFIED"].
Proof.
  assert (H : fst (handler (Body (Some ticket_without_text)) backends_down)
              = Status200
                  {| recommendation := JStr "On Hold"; classification := "Feature";
                     themes := ["THEME NOT IDENTIFIED"]; similarity_group := None;
                     importance := JNum 0; confidence := 0%float; notes := JStr EmptyString;
                     outcome_analysis := None |}) by (vm_compute; reflexivity).
  exact (proj1 (handler_themes _ _ _ H)).
Defined.

(** X14: a POST request without a body is answered with status 500 after
    the log entry ERROR alone, the length of the serialised body being taken
    before anything is logged. A request whose body has no issue, or whose
    issue has no key or an empty one, is answered with status 500 after the
    entries WEBHOOK_RECEIVED and ERROR. No backend is called for either. *)
Theorem handler_without_key (body : request_body) (env : backends) :
  (forall i, body = Body (Some i) -> ~ has_key i) ->
  fst (handler body env) = Status500
  /\ snd (handler body env)
     = match body with
       | NoBody => [Log "ERROR"]
       | Body _ => [Log "WEBHOOK_RECEIVED"; Log "ERROR"]
       end.
Proof.
  intros H. unfold handler. cbv beta iota zeta delta [bind ret logAction fst snd].
  destruct body as [|[i|]]; [split; reflexivity| |split; reflexivity].
  destruct (key i) as [k|] eqn:Hk; cbn [text_of].
  - destruct (String.eqb_spec k EmptyString) as [-> | Hne]; cbn [negb]; [split; reflexivity|].
    exfalso. apply (H i eq_refl). exists k. split; assumption.
  - cbn [String.eqb negb]. split; reflexivity.
Qed.

Lemma handler_without_key_witness :
  fst (handler (Body (Some ticket_without_key)) backends_down) = Status500
  /\ snd (handler (Body (Some ticket_without_key)) backends_down)
     = [Log "WEBHOOK_RECEIVED"; Log "ERROR"].
Proof.
  assert (H : forall i, Body (Some ticket_without_key) = Body (Some i) -> ~ has_key i).
  { intros i E. injection E as <-. intros [k [Hk _]]. discriminate Hk. }
  exact (handler_without_key (Body (Some ticket_without_key)) backends_down H).
Defined.

Lemma analyzePriority_first_usable_witness :
  calls Claude PriorityAgent
    (snd (analyzePriority ticket_1
            (backends_1 (dq "{'scores':{'business_impact':90},'priority_recommendation':'Fast Track'}"))))
  = 0%nat.
Proof.
  apply (proj1 (proj2 (analyzePriority_first_usable ticket_1
           (backends_1 (dq "{'scores':{'business_impact':90},'priority_recommendation':'Fast Track'}"))))).
  vm_compute. discriminate.
Defined.

(** ** What the parser reads *)

Lemma suffix_refl (s : string) : suffix s s.
Proof. exists EmptyString. reflexivity. Qed.

Lemma suffix_trans (a b c : string) : suffix a b -> suffix b c -> suffix a c.
Proof.
  intros [u ->] [w ->]. exists (String.append w u). symmetry. apply append_assoc.
Qed.

Lemma suffix_cons (c : ascii) (r s : string) : suffix r s -> suffix r (String c s).
Proof. intros [u ->]. exists (String c u). reflexivity. Qed.

Lemma suffix_skip_ws (s : string) : suffix (skip_ws s) s.
Proof.
  induction s as [|c s IH]; [apply suffix_refl|]. cbn [skip_ws].
  destruct (is_json_space c); [apply suffix_cons, IH | apply suffix_refl].
Qed.

Lemma suffix_skip_ws_cons (s : string) (c : ascii) (r : string) :
  skip_ws s = String c r -> suffix r s.
Proof.
  intros E. apply (suffix_trans _ (skip_ws s)); [|apply suffix_skip_ws].
  rewrite E. apply suffix_cons, suffix_refl.
Qed.

Lemma suffix_drop (n : nat) (s : string) : suffix (drop n s) s.
Proof.
  revert s. induction n as [|n IH]; intros s; [apply suffix_refl|].
  destruct s as [|c s]; [apply suffix_refl|]. cbn [drop]. apply suffix_cons, IH.
Qed.

Lemma suffix_scan_digits (s : string) (acc cnt v k : Z) (r : string) :
  scan_digits acc cnt s = (v, k, r) -> suffix r s.
Proof.
  revert acc cnt. induction s as [|c s IH]; intros acc cnt; cbn [scan_digits].
  - intros E. injection E as _ _ <-. apply suffix_refl.
  - destruct (is_digit c).
    + intros E. apply suffix_cons, (IH _ _ E).
    + intros E. injection E as _ _ <-. apply suffix_refl.
Qed.

Lemma suffix_scan_fraction (need : bool) (ip : Z) (s : string) (m fc : Z) (r : string) :
  scan_fraction need ip s = Some (m, fc, r) -> suffix r s.
Proof.
  destruct s as [|c s].
  - cbn. intros E. injection E as _ _ <-. apply suffix_refl.
  - destruct (ascii_dec c ".") as [-> | Hc].
    + rewrite scan_fraction_point.
      destruct (scan_digits 0 0 s) as [[fp fc'] r1] eqn:E.
      destruct (need && (fc' =? 0)); [discriminate|].
      intros E1. injection E1 as _ _ <-. apply suffix_cons, (suffix_scan_digits _ _ _ _ _ _ E).
    + rewrite scan_fraction_other by exact Hc.
      intros E. injection E as _ _ <-. apply suffix_refl.
Qed.

Lemma suffix_exponent_sign (r : string) : suffix (snd (exponent_sign r)) r.
Proof.
  destruct r as [|[[] [] [] [] [] [] [] []] r']; cbn [exponent_sign snd];
    try apply suffix_refl; apply suffix_cons, suffix_refl.
Qed.

Lemma suffix_scan_exponent (s : string) (e : Z) (r : string) :
  scan_exponent s = Some (e, r) -> suffix r s.
Proof.
  rewrite scan_exponent_eq. destruct s as [|c s].
  - intros E. injection E as _ <-. apply suffix_refl.
  - destruct (Ascii.eqb c "e" || Ascii.eqb c "E").
    + destruct (scan_digits 0 0 (snd (exponent_sign s))) as [[v cnt] r2] eqn:E.
      destruct (cnt =? 0); [discriminate|].
      intros E1. injection E1 as _ <-. apply suffix_cons.
      exact (suffix_trans _ _ _ (suffix_scan_digits _ _ _ _ _ _ E) (suffix_exponent_sign s)).
    + intros E. injection E as _ <-. apply suffix_refl.
Qed.

Lemma suffix_number_sign (s : string) : suffix (snd (number_sign s)) s.
Proof.
  destruct s as [|c r]; [apply suffix_refl|].
  destruct (ascii_dec c "-") as [-> | Hc].
  - cbn [number_sign snd]. apply suffix_cons, suffix_refl.
  - rewrite number_sign_other by exact Hc. apply suffix_refl.
Qed.

Lemma suffix_parse_number (s : string) (v : float) (r : string) :
  parse_number s = Some (v, r) -> suffix r s.
Proof.
  rewrite parse_number_eq. intros E.
  apply (suffix_trans _ (snd (number_sign s))); [|apply suffix_number_sign].
  destruct (snd (number_sign s)) as [|c r0]; [discriminate|].
  destruct (is_digit c); [|discriminate].
  destruct (if Ascii.eqb c "0" then (0, 1, r0) else scan_digits 0 0 (String c r0))
    as [[ip n] s2] eqn:Ei.
  destruct (scan_fraction true ip s2) as [[[mant fc] s3]|] eqn:Ef; [|discriminate].
  destruct (scan_exponent s3) as [[ex s4]|] eqn:Ee; [|discriminate].
  injection E as _ <-.
  apply (suffix_trans _ s3); [exact (suffix_scan_exponent _ _ _ Ee)|].
  apply (suffix_trans _ s2); [exact (suffix_scan_fraction _ _ _ _ _ _ Ef)|].
  destruct (Ascii.eqb c "0").
  - injection Ei as _ _ <-. apply suffix_cons, suffix_refl.
  - exact (suffix_scan_digits _ _ _ _ _ _ Ei).
Qed.

Lemma suffix_parse_string_body (s t r : string) :
  parse_string_body s = Some (t, r) -> suffix r s.
Proof.
  remember (String.length s) as n eqn:Hn.
  assert (Hle : (String.length s <= n)%nat) by lia. clear Hn.
  revert s t r Hle. induction n as [|n IH]; intros s t r Hle.
  - destruct s; [discriminate | cbn in Hle; lia].
  - destruct s as [|c r0]; [discriminate|].
    cbn [String.length] in Hle. cbn [parse_string_body].
    destruct (Ascii.eqb c dquote).
    { intros E. injection E as _ <-. apply suffix_cons, suffix_refl. }
    destruct (Ascii.eqb c backslash).
    + destruct r0 as [|e r1]; [discriminate|].
      cbn [String.length] in Hle.
      destruct (unescape e).
      * destruct (parse_string_body r1) as [[t' rest]|] eqn:E; [|discriminate].
        intros E1. injection E1 as _ <-.
        apply suffix_cons, suffix_cons, (IH r1 _ _ ltac:(lia) E).
      * destruct (Ascii.eqb e "u"); [|discriminate].
        destruct r1 as [|h1 [|h2 [|h3 [|h4 r2]]]]; try discriminate.
        cbn [String.length] in Hle.
        destruct (hex4 h1 h2 h3 h4) as [code|]; [|discriminate].
        destruct (code <? 256); [|discriminate].
        destruct (parse_string_body r2) as [[t' rest]|] eqn:E; [|discriminate].
        intros E1. injection E1 as _ <-.
        do 6 apply suffix_cons. exact (IH r2 _ _ ltac:(lia) E).
    + destruct (nat_of_ascii c <? 32)%nat; [discriminate|].
      destruct (parse_string_body r0) as [[t' rest]|] eqn:E; [|discriminate].
      intros E1. injection E1 as _ <-. apply suffix_cons, (IH r0 _ _ ltac:(lia) E).
Qed.

Lemma suffix_scalar (t : string) (v : json) (r : string) :
  scalar t = Some (v, r) -> suffix r t /\ is_object v = false.
Proof.
  unfold scalar.
  destruct (String.prefix "true" t);
    [intros E; injection E as <- <-; split; [exact (suffix_drop 4 t) | reflexivity]|].
  destruct (String.prefix "false" t);
    [intros E; injection E as <- <-; split; [exact (suffix_drop 5 t) | reflexivity]|].
  destruct (String.prefix "null" t);
    [intros E; injection E as <- <-; split; [exact (suffix_drop 4 t) | reflexivity]|].
  destruct (parse_number t) as [[x rest]|] eqn:E; [|discriminate].
  intros E1. injection E1 as <- <-. split; [exact (suffix_parse_number _ _ _ E) | reflexivity].
Qed.

Lemma suffix_brace (r s : string) :
  suffix (String "}" r) s -> exists u, s = String.append u (String "}" r).
Proof. exact id. Qed.

(** The rest that the parser leaves is an end of its text; the text of an
    object ends with a closing brace just before the rest; an array has no
    property of its own. *)
Lemma parse_suffix (f : nat) :
  (forall s v r,
      parse_value f s = Some (v, r) ->
      suffix r s
      /\ (is_object v = true -> suffix (String "}" r) s)
      /\ (forall es own, v = JArr es own -> own = []))
  /\ (forall s ms r, parse_members f s = Some (ms, r) -> suffix (String "}" r) s)
  /\ (forall s es r, parse_elements f s = Some (es, r) -> suffix r s).
Proof.
  induction f as [|f [IHv [IHm IHe]]]; [repeat split; discriminate|].
  split; [|split].
  - intros s v r. rewrite parse_value_eq.
    destruct (skip_ws s) as [|c r0] eqn:Es; [discriminate|].
    pose proof (suffix_skip_ws_cons _ _ _ Es) as S0.
    assert (S0' : suffix (String c r0) s) by (rewrite <- Es; apply suffix_skip_ws).
    destruct (Ascii.eqb c "{").
    { destruct (skip_ws r0) as [|c2 r2] eqn:E2; [discriminate|].
      assert (S2 : suffix (String c2 r2) r0) by (rewrite <- E2; apply suffix_skip_ws).
      destruct (Ascii.eqb_spec c2 "}") as [-> | Hc2].
      - intros E. injection E as <- <-.
        assert (S : suffix (String "}" r2) s) by exact (suffix_trans _ _ _ S2 S0).
        repeat split; [|intros _; exact S | discriminate].
        apply (suffix_trans _ (String "}" r2)); [apply suffix_cons, suffix_refl | exact S].
      - destruct (parse_members f (String c2 r2)) as [[ms rest]|] eqn:Em; [|discriminate].
        intros E. injection E as <- <-.
        assert (S : suffix (String "}" rest) s)
          by exact (suffix_trans _ _ _ (IHm _ _ _ Em) (suffix_trans _ _ _ S2 S0)).
        repeat split; [|intros _; exact S | discriminate].
        apply (suffix_trans _ (String "}" rest)); [apply suffix_cons, suffix_refl | exact S]. }
    destruct (Ascii.eqb c "[").
    { destruct (skip_ws r0) as [|c2 r2] eqn:E2; [discriminate|].
      assert (S2 : suffix (String c2 r2) r0) by (rewrite <- E2; apply suffix_skip_ws).
      destruct (Ascii.eqb c2 "]").
      - intros E. injection E as <- <-.
        repeat split; [|discriminate | intros es own E; injection E as _ <-; reflexivity].
        apply (suffix_trans _ (String c2 r2)); [apply suffix_cons, suffix_refl|].
        exact (suffix_trans _ _ _ S2 S0).
      - destruct (parse_elements f (String c2 r2)) as [[es rest]|] eqn:Ee; [|discriminate].
        intros E. injection E as <- <-.
        repeat split; [|discriminate | intros es' own E; injection E as _ <-; reflexivity].
        exact (suffix_trans _ _ _ (IHe _ _ _ Ee) (suffix_trans _ _ _ S2 S0)). }
    destruct (Ascii.eqb c dquote).
    { destruct (parse_string_body r0) as [[str rest]|] eqn:Eb; [|discriminate].
      intros E. injection E as <- <-. repeat split; try discriminate.
      exact (suffix_trans _ _ _ (suffix_parse_string_body _ _ _ Eb) S0). }
    intros E. destruct (suffix_scalar _ _ _ E) as [S Ho].
    repeat split; [exact (suffix_trans _ _ _ S S0') | rewrite Ho; discriminate |].
    intros es own ->. revert E. unfold scalar.
    repeat (destruct (String.prefix _ _); [discriminate|]).
    destruct (parse_number _) as [[x rest]|]; discriminate.
  - intros s ms r. rewrite parse_members_eq.
    destruct (skip_ws s) as [|c r0] eqn:Es; [discriminate|].
    pose proof (suffix_skip_ws_cons _ _ _ Es) as S0.
    destruct (Ascii.eqb c dquote); [|discriminate].
    destruct (parse_string_body r0) as [[k r1]|] eqn:Eb; [|discriminate].
    pose proof (suffix_parse_string_body _ _ _ Eb) as S1.
    destruct (skip_ws r1) as [|c1 r2] eqn:E1; [discriminate|].
    pose proof (suffix_skip_ws_cons _ _ _ E1) as S2.
    destruct (Ascii.eqb c1 ":"); [|discriminate].
    destruct (parse_value f r2) as [[v r3]|] eqn:Ev; [|discriminate].
    destruct (IHv _ _ _ Ev) as [S3 _].
    destruct (skip_ws r3) as [|c3 r4] eqn:E3; [discriminate|].
    assert (S4 : suffix (String c3 r4) r3) by (rewrite <- E3; apply suffix_skip_ws).
    assert (S : suffix (String c3 r4) s).
    { exact (suffix_trans _ _ _ S4 (suffix_trans _ _ _ S3
               (suffix_trans _ _ _ S2 (suffix_trans _ _ _ S1 S0)))). }
    destruct (Ascii.eqb c3 ",").
    + destruct (parse_members f r4) as [[ms' r5]|] eqn:Em; [|discriminate].
      intros E. injection E as _ <-.
      apply (suffix_trans _ r4); [exact (IHm _ _ _ Em)|].
      apply (suffix_trans _ (String c3 r4)); [apply suffix_cons, suffix_refl | exact S].
    + destruct (Ascii.eqb_spec c3 "}") as [-> | Hc3]; [|discriminate].
      intros E. injection E as _ <-. exact S.
  - intros s es r. rewrite parse_elements_eq.
    destruct (parse_value f s) as [[v r1]|] eqn:Ev; [|discriminate].
    destruct (IHv _ _ _ Ev) as [S1 _].
    destruct (skip_ws r1) as [|c r2] eqn:E1; [discriminate|].
    pose proof (suffix_skip_ws_cons _ _ _ E1) as S2.
    destruct (Ascii.eqb c ",").
    + destruct (parse_elements f r2) as [[es' r3]|] eqn:Ee; [|discriminate].
      intros E. injection E as _ <-.
      exact (suffix_trans _ _ _ (IHe _ _ _ Ee) (suffix_trans _ _ _ S2 S1)).
    + destruct (Ascii.eqb c "]"); [|discriminate].
      intros E. injection E as _ <-. exact (suffix_trans _ _ _ S2 S1).
Qed.

(** ** The two versions of the parser *)

Lemma trimEnd_idem (s : string) : trimEnd (trimEnd s) = trimEnd s.
Proof.
  induction s as [|c s IH]; [reflexivity|]. cbn [trimEnd].
  destruct (trimEnd s) as [|d t] eqn:E.
  - destruct (is_space c) eqn:Ec; [reflexivity|]. cbn [trimEnd]. rewrite Ec. reflexivity.
  - change (trimEnd (String c (String d t)))
      with (match trimEnd (String d t) with
            | EmptyString => if is_space c then EmptyString else String c EmptyString
            | x => String c x
            end).
    rewrite IH. reflexivity.
Qed.

Lemma json_space_is_space (c : ascii) : is_json_space c = true -> is_space c = true.
Proof. destruct c as [[] [] [] [] [] [] [] []]; try discriminate; reflexivity. Qed.

Lemma trimEnd_ws (x r : string) :
  skip_ws r = EmptyString -> trimEnd (String.append x r) = trimEnd x.
Proof.
  revert x. induction r as [|c r IH]; intros x; [rewrite append_nil_r; reflexivity|].
  cbn [skip_ws]. destruct (is_json_space c) eqn:Ec; [|discriminate].
  intros Hr.
  change (String.append x (String c r))
    with (String.append x (String.append (String c EmptyString) r)).
  rewrite <- append_assoc, (IH _ Hr).
  apply trimEnd_space, json_space_is_space, Ec.
Qed.

(** The text of an object, trimmed, ends with its closing brace. *)
Lemma object_text_closed (x t : string) (v : json) :
  JSON_parse t = Some v -> is_object v = true -> trimEnd x = t ->
  exists y, t = String.append y "}".
Proof.
  unfold JSON_parse. intros Hp Ho Ht.
  destruct (parse_value (S (String.length t)) t) as [[v' r]|] eqn:E; [|discriminate].
  destruct (skip_ws r) eqn:Er; [|discriminate]. injection Hp as ->.
  destruct (proj1 (parse_suffix _) _ _ _ E) as [_ [Hs _]].
  destruct (Hs Ho) as [u Hu]. exists u.
  assert (Hi : trimEnd t = t) by (rewrite <- Ht; apply trimEnd_idem).
  rewrite <- Hi, Hu.
  change (String.append u (String "}" r))
    with (String.append u (String.append "}" r)).
  rewrite <- append_assoc, (trimEnd_ws _ _ Er).
  apply trimEnd_keep. reflexivity.
Qed.

Lemma validated_is_object (t : string) (v a : json) :
  JSON_parse t = Some v -> validate v = Some a -> is_object v = true.
Proof.
  intros Hp Hv. destruct (validate_fields _ _ Hv) as [scores0 [_ [_ [Hs _]]]].
  destruct v as [| | | |es own|]; try discriminate Hs; [|reflexivity].
  exfalso. unfold JSON_parse in Hp.
  destruct (parse_value (S (String.length t)) t) as [[v' r]|] eqn:E; [|discriminate].
  destruct (skip_ws r); [|discriminate]. injection Hp as ->.
  destruct (proj1 (parse_suffix _) _ _ _ E) as [_ [_ Ha]].
  rewrite (Ha es own eq_refl) in Hs. discriminate Hs.
Qed.

(** X11: the later version of the parser returns every response that the
    earlier version returns: the brace repair leaves a text alone that
    parses to an object with the required fields. *)
Theorem parseAIResponse_versions (text : string) (a : json) :
  TriageJs.parseAIResponse text = Some a -> Part001.parseAIResponse text = Some a.
Proof.
  unfold TriageJs.parseAIResponse, TriageJs.extracted_json,
    Part001.parseAIResponse, Part001.extracted_json.
  destruct (extract text) as [jsonStr|]; [|discriminate].
  destruct (JSON_parse (trim jsonStr)) as [v|] eqn:Ep; [|discriminate].
  intros Hv.
  destruct (object_text_closed (trimStart jsonStr) _ _ Ep (validated_is_object _ _ _ Ep Hv)
              eq_refl) as [y Hy].
  rewrite Hy, repair_closed, <- Hy, Ep. exact Hv.
Qed.

Lemma parseAIResponse_versions_witness :
  Part001.parseAIResponse
    (fenced_json "Here is the analysis: " (JSON_stringify analysis_1) " Let me know.")
  = Some analysis_1.
Proof.
  assert (H : TriageJs.parseAIResponse
                (fenced_json "Here is the analysis: " (JSON_stringify analysis_1) " Let me know.")
              = Some analysis_1) by (vm_compute; reflexivity).
  exact (parseAIResponse_versions _ _ H).
Defined.

(** ** What the repair recovers *)

Lemma count_char_app (c : ascii) (a b : string) :
  count_char c (String.append a b) = count_char c a + count_char c b.
Proof.
  induction a as [|d a IH]; cbn [String.append count_char]; [reflexivity|]. rewrite IH. lia.
Qed.

Lemma count_char_nonneg (c : ascii) (s : string) : 0 <= count_char c s.
Proof.
  induction s as [|d s IH]; cbn [count_char]; [lia|]. destruct (Ascii.eqb d c); lia.
Qed.

Lemma lastIndexOf_from_absent (c : ascii) (s : string) (i found : Z) :
  count_char c s = 0 -> lastIndexOf_from c i s found = found.
Proof.
  revert i found. induction s as [|d s IH]; intros i found; cbn [count_char lastIndexOf_from];
    [reflexivity|].
  pose proof (count_char_nonneg c s). destruct (Ascii.eqb d c); [lia|].
  intros H0. apply IH. lia.
Qed.

Lemma lastIndexOf_from_before (c : ascii) (y junk : string) (i found : Z) :
  count_char c junk = 0 ->
  lastIndexOf_from c i (String.append y (String c junk)) found = i + Z.of_nat (String.length y).
Proof.
  intros Hj. revert i found. induction y as [|d y IH]; intros i found;
    cbn [String.append lastIndexOf_from String.length].
  - rewrite Ascii.eqb_refl, (lastIndexOf_from_absent _ _ _ _ Hj). lia.
  - rewrite IH. lia.
Qed.

Lemma brace_excess_tail (c : ascii) (s : string) (i len : nat) :
  brace_excess (String c s) (S i) len = brace_excess s i len.
Proof.
  revert i. induction len as [|len IH]; intros i; [reflexivity|].
  cbn [brace_excess String.get]. rewrite IH. reflexivity.
Qed.

Lemma brace_excess_prefix (y z : string) :
  brace_excess (String.append y z) 0 (String.length y)
  = count_char "}" y - count_char "{" y.
Proof.
  induction y as [|c y IH]; [reflexivity|].
  cbn [String.append String.length brace_excess String.get count_char].
  rewrite brace_excess_tail, IH. unfold brace_step. cbn [option_eqb_char].
  destruct (Ascii.eqb c "}"), (Ascii.eqb c "{"); lia.
Qed.

Lemma substring_append (a b : string) :
  String.substring 0 (String.length a) (String.append a b) = a.
Proof.
  induction a as [|c a IH]; [destruct b; reflexivity|].
  cbn [String.length String.append String.substring]. rewrite IH. reflexivity.
Qed.

(** The repair cuts a fragment with an unmatched opening brace off a text
    whose braces are balanced and which ends with a closing brace. *)
Lemma repair_cuts_fragment (y junk : string) :
  y <> EmptyString ->
  count_char "{" (String.append y "}") = count_char "}" (String.append y "}") ->
  count_char "}" junk = 0 -> 0 < count_char "{" junk ->
  repair (String.append (String.append y "}") junk) = String.append y "}".
Proof.
  intros Hy Hbal Hc Ho. unfold repair.
  rewrite !count_char_app in *. cbn [count_char Ascii.eqb Bool.eqb] in Hbal |- *.
  rewrite Hc.
  destruct (Z.ltb_spec (count_char "}" y + (1 + 0) + 0)
              (count_char "{" y + (0 + 0) + count_char "{" junk)) as [_ | H]; [|lia].
  assert (Hl : lastIndexOf "}" (String.append (String.append y "}") junk)
               = Z.of_nat (String.length y)).
  { unfold lastIndexOf. rewrite append_assoc. cbn [String.append].
    rewrite (lastIndexOf_from_before _ _ _ _ _ Hc). lia. }
  rewrite Hl.
  destruct (Z.ltb_spec 0 (Z.of_nat (String.length y))) as [_ | H];
    [|destruct y; [contradiction | cbn [String.length] in H; lia]].
  rewrite Nat2Z.id.
  assert (Hm : matching_brace (String.append (String.append y "}") junk) (String.length y) 1
               = true).
  { apply matching_brace_spec. exists 0%nat. split.
    - destruct y; [contradiction | cbn [String.length]; lia].
    - rewrite Nat.sub_0_r, append_assoc, brace_excess_prefix. lia. }
  rewrite Hm. unfold substring0.
  replace (Z.to_nat (Z.of_nat (String.length y) + 1))
    with (String.length (String.append y "}"))
    by (rewrite length_append; cbn [String.length]; lia).
  apply substring_append.
Qed.

Lemma skip_ws_brace (junk : string) : 0 < count_char "{" junk -> skip_ws junk <> EmptyString.
Proof.
  induction junk as [|c junk IH]; cbn [count_char skip_ws]; [lia|].
  destruct (Ascii.eqb_spec c "{") as [-> | Hc]; [discriminate|].
  intros H. destruct (is_json_space c); [apply IH; lia | discriminate].
Qed.

(** X10: what the repair recovers. When the text, trimmed, is the text of
    an object with balanced braces followed by a fragment that has an opening
    brace and no closing one, the later version parses the object and
    validates it, where the earlier version returns [null]. *)
Theorem parseAIResponse_recovers
    (text jsonStr body junk : string) (props : list (string * json)) :
  extract text = Some jsonStr -> trim jsonStr = String.append body junk ->
  JSON_parse body = Some (JObj props) -> trimEnd body = body ->
  count_char "{" body = count_char "}" body ->
  count_char "}" junk = 0 -> 0 < count_char "{" junk ->
  Part001.parseAIResponse text = validate (JObj props)
  /\ TriageJs.parseAIResponse text = None.
Proof.
  intros Hext Ht Hp He Hbal Hc Ho.
  destruct (object_text_closed body body _ Hp eq_refl He) as [y Hy].
  assert (Hne : y <> EmptyString).
  { intros ->. rewrite Hy in Hp. vm_compute in Hp. discriminate. }
  unfold Part001.parseAIResponse, Part001.extracted_json,
    TriageJs.parseAIResponse, TriageJs.extracted_json.
  rewrite Hext, Ht. split.
  - rewrite Hy in Hbal |- *. rewrite (repair_cuts_fragment y junk Hne Hbal Hc Ho).
    rewrite <- Hy, Hp. reflexivity.
  - assert (E : JSON_parse (String.append body junk) = None); [|rewrite E; reflexivity].
    unfold JSON_parse in Hp |- *.
    destruct (parse_value (S (String.length body)) body) as [[v r]|] eqn:Eb; [|discriminate].
    destruct (skip_ws r) eqn:Er; [|discriminate]. injection Hp as ->.
    pose proof (proj1 (parse_app _) _ _ _ junk Eb (or_introl eq_refl)) as E1.
    assert (Hle : (S (String.length body) <= S (String.length (String.append body junk)))%nat)
      by (rewrite length_append; lia).
    rewrite (parse_value_fuel _ _ _ _ Hle E1).
    destruct (skip_ws (String.append r junk)) eqn:E2; [|reflexivity].
    exfalso. apply (skip_ws_brace junk Ho).
    clear - Er E2. induction r as [|c r IH]; [exact E2|].
    cbn [skip_ws String.append] in *. destruct (is_json_space c); [auto | discriminate].
Qed.

Lemma parseAIResponse_recovers_witness :
  Part001.parseAIResponse response_then_fragment
  = validate (JObj [("scores", JObj [("overall_priority", num 82)]);
                    ("priority_recommendation", JStr "Fast Track")])
  /\ TriageJs.parseAIResponse response_then_fragment = None.
Proof.
  assert (H1 : extract response_then_fragment = Some response_then_fragment)
    by (vm_compute; reflexivity).
  assert (H2 : trim response_then_fragment
               = String.append
                   (dq "{'scores':{'overall_priority':82},'priority_recommendation':'Fast Track'}")
                   (dq " {'note':")) by (vm_compute; reflexivity).
  assert (H3 : JSON_parse
                 (dq "{'scores':{'overall_priority':82},'priority_recommendation':'Fast Track'}")
               = Some (JObj [("scores", JObj [("overall_priority", num 82)]);
                             ("priority_recommendation", JStr "Fast Track")]))
    by (vm_compute; reflexivity).
  assert (H4 : trimEnd (dq "{'scores':{'overall_priority':82},'priority_recommendation':'Fast Track'}")
               = dq "{'scores':{'overall_priority':82},'priority_recommendation':'Fast Track'}")
    by (vm_compute; reflexivity).
  assert (H5 : count_char "{" (dq "{'scores':{'overall_priority':82},'priority_recommendation':'Fast Track'}")
               = count_char "}" (dq "{'scores':{'overall_priority':82},'priority_recommendation':'Fast Track'}"))
    by (vm_compute; reflexivity).
  assert (H6 : count_char "}" (dq " {'note':") = 0) by (vm_compute; reflexivity).
  assert (H7 : 0 < count_char "{" (dq " {'note':")) by (vm_compute; reflexivity).
  exact (parseAIResponse_recovers _ _ _ _ _ H1 H2 H3 H4 H5 H6 H7).
Defined.

(** ** The orchestrator of the earlier version *)

Lemma parsed_has_scores (text : string) :
  has_scores (TriageJs.parseAIResponse text)
  = match TriageJs.parseAIResponse text with Some _ => true | None => false end.
Proof.
  unfold TriageJs.parseAIResponse. destruct (TriageJs.extracted_json text) as [parsed|];
    [|reflexivity].
  destruct (validate parsed) as [a|] eqn:E; [|reflexivity].
  destruct (validate_fields _ _ E) as [_ [scores [_ [_ [Hs [Ht _]]]]]].
  cbn [has_scores]. rewrite Hs. exact Ht.
Qed.

Lemma callGeminiWithTriage_usable (env : TriageJsService.services) :
  fst (TriageJsService.callGeminiWithTriage env) = usable (TriageJsService.gemini env)
  /\ calls Gemini PriorityAgent (snd (TriageJsService.callGeminiWithTriage env)) = 1%nat
  /\ calls Claude PriorityAgent (snd (TriageJsService.callGeminiWithTriage env)) = 0%nat.
Proof.
  unfold TriageJsService.callGeminiWithTriage, usable.
  destruct (TriageJsService.gemini env) as [| | |text]; try (repeat split; reflexivity).
  cbn [bind TriageJsService.call fst snd]. rewrite parsed_has_scores.
  destruct (TriageJs.parseAIResponse text); repeat split; reflexivity.
Qed.

Lemma callClaudeWithTriage_usable (env : TriageJsService.services) :
  fst (TriageJsService.callClaudeWithTriage env)
  = (if TriageJsService.messages_api env then usable (TriageJsService.claude env) else None)
  /\ calls Gemini PriorityAgent (snd (TriageJsService.callClaudeWithTriage env)) = 0%nat
  /\ calls Claude PriorityAgent (snd (TriageJsService.callClaudeWithTriage env))
     = (if TriageJsService.messages_api env then 1 else 0)%nat.
Proof.
  unfold TriageJsService.callClaudeWithTriage, usable.
  destruct (TriageJsService.messages_api env); [|repeat split; reflexivity].
  destruct (TriageJsService.claude env) as [| | |text]; try (repeat split; reflexivity).
  cbn [negb bind TriageJsService.call fst snd].
  destruct (String.eqb_spec text EmptyString) as [-> | Hne].
  - repeat split; try reflexivity.
  - rewrite parsed_has_scores.
    destruct (TriageJs.parseAIResponse text); repeat split; reflexivity.
Qed.

Lemma calls_bind {A B : Type} (p : provider) (a : agent) (m : traced A) (k : A -> traced B) :
  calls p a (snd (bind m k)) = (calls p a (snd m) + calls p a (snd (k (fst m))))%nat.
Proof. unfold bind, calls. cbn [snd]. rewrite filter_app, length_app. reflexivity. Qed.

Lemma logged_bind_r {A B : Type} (action : string) (m : traced A) (k : A -> traced B) :
  logged action (snd (k (fst m))) -> logged action (snd (bind m k)).
Proof. unfold bind, logged. cbn [snd]. intros H. apply in_or_app. right. exact H. Qed.

Lemma usable_has_scores (a : TriageJsService.answer) :
  has_scores (usable a) = match usable a with Some _ => true | None => false end.
Proof. destruct a; try reflexivity. apply parsed_has_scores. Qed.

(** The result of the orchestrator, by the answers of the two backends. *)
Lemma processTicketWithFullTriage_result (i : issue) (env : TriageJsService.services) :
  let r := TriageJsService.processTicketWithFullTriage i env in
  let second :=
    if TriageJsService.messages_api env then usable (TriageJsService.claude env) else None in
  (TriageJsService.result_modelUsed (fst r), TriageJsService.result_analysis (fst r))
  = match usable (TriageJsService.gemini env) with
    | Some a => (Some "Gemini Flash 2.0", Some a)
    | None =>
        match second with
        | Some a => (Some "Claude Sonnet", Some a)
        | None => (None, None)
        end
    end
  /\ calls Gemini PriorityAgent (snd r) = 1%nat
  /\ calls Claude PriorityAgent (snd r)
     = match usable (TriageJsService.gemini env) with
       | Some _ => 0%nat
       | None => if TriageJsService.messages_api env then 1%nat else 0%nat
       end
  /\ (usable (TriageJsService.gemini env) = None -> second = None ->
      logged "BOTH_MODELS_FAILED" (snd r) /\ logged "ANALYSIS_FAILED" (snd r)).
Proof.
  cbv zeta.
  destruct (callGeminiWithTriage_usable env) as [G1 [G2 G3]].
  destruct (callClaudeWithTriage_usable env) as [C1 [C2 C3]].
  unfold TriageJsService.processTicketWithFullTriage.
  remember (TriageJsService.callGeminiWithTriage env) as g eqn:Eg. clear Eg.
  remember (TriageJsService.callClaudeWithTriage env) as c eqn:Ec. clear Ec.
  destruct g as [ga gt], c as [ca ct]. cbn [fst snd] in *. subst ga ca.
  pose proof (usable_has_scores (TriageJsService.gemini env)) as Hg.
  pose proof (usable_has_scores (TriageJsService.claude env)) as Hc.
  cbv beta iota zeta delta [bind ret logAction fst snd].
  destruct (usable (TriageJsService.gemini env)) as [a|].
  - rewrite Hg. cbv beta iota zeta delta [fst snd]. rewrite ?Hg.
    cbn [fst snd TriageJsService.result_modelUsed TriageJsService.result_analysis].
    split; [reflexivity|]. split; [|split; [|discriminate]];
      unfold calls in *; rewrite ?filter_app, ?length_app in *;
      cbn [app filter event_is_call List.length] in *; lia.
  - change (has_scores None) with false. cbv beta iota zeta delta [fst snd].
    destruct (TriageJsService.messages_api env).
    + destruct (usable (TriageJsService.claude env)) as [a|].
      * rewrite Hc. cbv beta iota zeta delta [fst snd]. rewrite ?Hc.
        cbn [fst snd TriageJsService.result_modelUsed TriageJsService.result_analysis].
        split; [reflexivity|]. split; [|split; [|discriminate]];
          unfold calls in *; rewrite ?filter_app, ?length_app in *;
          cbn [app filter event_is_call List.length] in *; lia.
      * change (has_scores None) with false. cbv beta iota zeta delta [fst snd].
        change (has_scores None) with false.
        cbn [fst snd TriageJsService.result_modelUsed TriageJsService.result_analysis].
        split; [reflexivity|]. split; [|split];
          [unfold calls in *; rewrite ?filter_app, ?length_app in *;
           cbn [app filter event_is_call List.length] in *; lia ..|].
        intros _ _. unfold logged. split;
          cbn [app In]; rewrite ?in_app_iff; cbn [app In]; rewrite ?in_app_iff;
          cbn [app In]; tauto.
    + change (has_scores None) with false. cbv beta iota zeta delta [fst snd].
      change (has_scores None) with false.
      cbn [fst snd TriageJsService.result_modelUsed TriageJsService.result_analysis].
      split; [reflexivity|]. split; [|split];
        [unfold calls in *; rewrite ?filter_app, ?length_app in *;
         cbn [app filter event_is_call List.length] in *; lia ..|].
      intros _ _. unfold logged. split;
        cbn [app In]; rewrite ?in_app_iff; cbn [app In]; rewrite ?in_app_iff;
        cbn [app In]; tauto.
Qed.

(** X9: in the earlier version a POST request whose issue has a key is
    always answered with status 200 and "success", also when no analysis was
    obtained. Gemini is called exactly once; Claude is called, once, exactly
    when the answer of Gemini gave no response with scores and the messages
    interface is there. The analysis is that of Gemini if it gave one, else
    that of Claude, with the model named accordingly; when neither gave one
    the result has no analysis and no model, and the failure is logged. *)
Theorem earlier_handler_dispatch (i : issue) (env : TriageJsService.services) :
  has_key i ->
  let r := TriageJsService.handler "POST" (Some i) env in
  let second :=
    if TriageJsService.messages_api env then usable (TriageJsService.claude env) else None in
  exists result,
    fst r = TriageJsService.Success result
    /\ (TriageJsService.result_modelUsed result, TriageJsService.result_analysis result)
       = match usable (TriageJsService.gemini env) with
         | Some a => (Some "Gemini Flash 2.0", Some a)
         | None =>
             match second with
             | Some a => (Some "Claude Sonnet", Some a)
             | None => (None, None)
             end
         end
    /\ calls Gemini PriorityAgent (snd r) = 1%nat
    /\ calls Claude PriorityAgent (snd r)
       = match usable (TriageJsService.gemini env) with
         | Some _ => 0%nat
         | None => if TriageJsService.messages_api env then 1%nat else 0%nat
         end
    /\ (usable (TriageJsService.gemini env) = None -> second = None ->
        logged "BOTH_MODELS_FAILED" (snd r) /\ logged "ANALYSIS_FAILED" (snd r)).
Proof.
  intros [k [Hk Hne]]. cbv zeta.
  destruct (processTicketWithFullTriage_result i env) as [R1 [R2 [R3 R4]]].
  unfold TriageJsService.handler. cbn [String.eqb Ascii.eqb Bool.eqb negb].
  rewrite Hk. cbn [text_of]. apply String.eqb_neq in Hne. rewrite Hne. cbn [negb].
  remember (TriageJsService.processTicketWithFullTriage i env) as p eqn:Ep. clear Ep.
  destruct p as [result t]. cbn [fst snd] in *.
  cbv beta iota zeta delta [bind ret logAction fst snd].
  exists result. split; [reflexivity|]. split; [exact R1|].
  split; [|split].
  - unfold calls in *. rewrite ?filter_app, ?length_app.
    cbn [app filter event_is_call List.length]. rewrite ?filter_app, ?length_app.
    cbn [app filter event_is_call List.length]. lia.
  - unfold calls in *. rewrite ?filter_app, ?length_app.
    cbn [app filter event_is_call List.length]. rewrite ?filter_app, ?length_app.
    cbn [app filter event_is_call List.length]. lia.
  - intros H1 H2. destruct (R4 H1 H2) as [L1 L2]. unfold logged in *.
    split; cbn [app In]; rewrite ?in_app_iff; cbn [app In]; tauto.
Qed.

Lemma earlier_handler_dispatch_witness :
  exists result,
    fst (TriageJsService.handler "POST" (Some ticket_1) services_down)
    = TriageJsService.Success result
    /\ TriageJsService.result_analysis result = None.
Proof.
  assert (Hk : has_key ticket_1) by (exists "PROJ-124"; split; [reflexivity | discriminate]).
  destruct (earlier_handler_dispatch ticket_1 services_down Hk) as [result [H1 [H2 _]]].
  exists result. split; [exact H1|].
  apply pair_equal_spec in H2. exact (proj2 H2).
Defined.
